(** * docs-mcp: content acquisition and freshness, verified against the source

    A shallow embedding of [src/config.js], [scripts/build.js] and the server
    entry point (the file that defines [DocsMcpServer]), followed by the
    properties of the specification that these files decide.

    Conventions of the embedding.
    - JavaScript values are a small universe [jsval]; truthiness, [typeof],
      [===], [String(v)] and [parseInt(v, 10)] are written out.  Numbers are
      integers (the interval is a number of minutes) plus [NaN]; the
      configuration file gives the interval as a number.
    - Node's [path] module, [fs-extra], [glob], [axios], [tar], [simple-git],
      the search engine and the protocol SDK are collaborators: [path] is a
      section variable, the others answer through a [World] oracle indexed by
      a logical clock that ticks at every external call.
    - Asynchronous code is sequential here: every call is awaited.  A
      computation returns an outcome (normal return, thrown error, process
      exit), the new process state and the chronological list of events it
      produced (external operations interleaved with the console lines the
      properties refer to). *)

From Stdlib Require Import ZArith List String Ascii Bool Lia.
From Stdlib Require Import DecimalString.
Import ListNotations.
Set Warnings "-register-all".
Local Open Scope string_scope.
Local Open Scope Z_scope.
Local Open Scope list_scope.

(* ===================================================================== *)
(** ** JavaScript values *)
(* ===================================================================== *)

Module Js.

Inductive jsval : Type :=
| VUndef
| VNull
| VBool (b : bool)
| VNum (z : Z)
| VNaN
| VStr (s : string)
| VArr (items : list jsval)
| VObj (fields : list (string * jsval)).

(** ToBoolean. *)
Definition truthy (v : jsval) : bool :=
  match v with
  | VUndef | VNull | VNaN => false
  | VBool b => b
  | VNum z => negb (z =? 0)
  | VStr s => negb (String.eqb s "")
  | VArr _ | VObj _ => true
  end.

(** [a || b]: the first operand when it is truthy, else the second. *)
Definition or_else (a b : jsval) : jsval := if truthy a then a else b.

Definition typeof (v : jsval) : string :=
  match v with
  | VUndef => "undefined"
  | VNull => "object"
  | VBool _ => "boolean"
  | VNum _ | VNaN => "number"
  | VStr _ => "string"
  | VArr _ | VObj _ => "object"
  end.

(** [a === b].  [NaN] is not equal to itself; two objects or arrays that
    come from different places (a parsed request and the settings) are
    never the same reference. *)
Definition strict_eq (a b : jsval) : bool :=
  match a, b with
  | VUndef, VUndef => true
  | VNull, VNull => true
  | VBool x, VBool y => Bool.eqb x y
  | VNum x, VNum y => x =? y
  | VStr x, VStr y => String.eqb x y
  | _, _ => false
  end.

(** Own-property read [o[k]]; reading a missing key gives [undefined]. *)
Fixpoint lookup (k : string) (fields : list (string * jsval)) : jsval :=
  match fields with
  | [] => VUndef
  | (k', v) :: rest => if String.eqb k k' then v else lookup k rest
  end.

Definition get (o : jsval) (k : string) : jsval :=
  match o with
  | VObj fields => lookup k fields
  | _ => VUndef
  end.

Definition string_of_Z (z : Z) : string :=
  NilZero.string_of_int (Z.to_int z).

Fixpoint join (sep : string) (parts : list string) : string :=
  match parts with
  | [] => ""
  | [p] => p
  | p :: rest => (p ++ sep ++ join sep rest)%string
  end.

(** [String(v)], as a template literal applies it. *)
Fixpoint toString (v : jsval) : string :=
  match v with
  | VUndef => "undefined"
  | VNull => "null"
  | VBool true => "true"
  | VBool false => "false"
  | VNum z => string_of_Z z
  | VNaN => "NaN"
  | VStr s => s
  | VArr items =>
      join "," (map (fun x => match x with
                              | VUndef | VNull => ""
                              | _ => toString x
                              end) items)
  | VObj _ => "[object Object]"
  end.

(** Numbers as [parseInt] produces them. *)
Inductive jsnum : Type :=
| Num (z : Z)
| NaN.

(** [n > 0]; every comparison with [NaN] is false. *)
Definition gt0 (n : jsnum) : bool :=
  match n with
  | Num z => 0 <? z
  | NaN => false
  end.

(** White space that [parseInt] skips (the ASCII part of it). *)
Definition is_space (c : ascii) : bool :=
  let n := nat_of_ascii c in
  (Nat.eqb n 32 || Nat.eqb n 9 || Nat.eqb n 10 || Nat.eqb n 11
   || Nat.eqb n 12 || Nat.eqb n 13)%bool.

Definition is_digit (c : ascii) : bool :=
  let n := nat_of_ascii c in (Nat.leb 48 n && Nat.leb n 57)%bool.

Definition digit_val (c : ascii) : Z := Z.of_nat (nat_of_ascii c) - 48.

Fixpoint skip_spaces (s : string) : string :=
  match s with
  | String c rest => if is_space c then skip_spaces rest else s
  | EmptyString => EmptyString
  end.

(** The longest prefix of decimal digits, read left to right; [None] when
    there is no digit at the front. *)
Fixpoint digits (acc : option Z) (s : string) : option Z :=
  match s with
  | String c rest =>
      if is_digit c
      then digits (Some (10 * match acc with Some a => a | None => 0 end
                         + digit_val c)) rest
      else acc
  | EmptyString => acc
  end.

Definition parseInt_string (s : string) : jsnum :=
  let s1 := skip_spaces s in
  let '(neg, s2) :=
    match s1 with
    | String "-" rest => (true, rest)
    | String "+" rest => (false, rest)
    | _ => (false, s1)
    end in
  match digits None s2 with
  | Some n => Num (if neg then - n else n)
  | None => NaN
  end.

(** [parseInt(v, 10)]: the argument is converted to a string first. *)
Definition parseInt (v : jsval) : jsnum := parseInt_string (toString v).

End Js.
Import Js.

(* ===================================================================== *)
(** ** Errors, outcomes, events and the outside world *)
(* ===================================================================== *)

(** What a [catch] clause can receive.  Only an axios failure carries a
    [response] with an HTTP status; file-system and Git failures carry a
    [code] (such as ENOENT) and a message. *)
Inductive error : Type :=
| HttpError (status : Z)
| IoError (code message : string)
| JsError (message : string)
| McpError (code : Z) (message : string).

Definition message_of (e : error) : string :=
  match e with
  | HttpError status =>
      ("Request failed with status code " ++ string_of_Z status)%string
  | IoError _ m | JsError m | McpError _ m => m
  end.

(** [error.response && error.response.status === 404] *)
Definition is_404 (e : error) : bool :=
  match e with
  | HttpError status => status =? 404
  | _ => false
  end.

Inductive outcome (A : Type) : Type :=
| Return (a : A)
| Throw (e : error)
| Exit (code : Z).
Arguments Return {A} a.
Arguments Throw {A} e.
Arguments Exit {A} code.

(** Console lines that mark a branch or that a property speaks about; the
    comment gives the start of the line in the source. *)
Inductive console : Type :=
(* config.js *)
| ConfigLoaded            (* Loaded configuration from ... *)
| ConfigLoadError         (* Error loading configuration from ... *)
| ConfigFileMissing       (* No configuration file found at ... *)
| BothSourcesWarning      (* Both includeDir and gitUrl are specified. Using gitUrl. *)
| NoSourceWarning         (* Neither includeDir nor gitUrl is specified. ... *)
(* scripts/build.js *)
| BuildingPackage         (* Building docs-mcp package... *)
| UsingGitClone           (* Auto-update enabled (interval: ...). Using git clone. *)
| UsingTarball            (* Auto-update disabled. Attempting to download tarball archive. *)
| EmptyDataDirCreated     (* No includeDir or gitUrl specified. Created empty data directory. *)
| CloningRepository       (* Cloning Git repository ... *)
| CloneSucceeded          (* Successfully cloned repository to ... *)
| CloneFailed             (* Error cloning Git repository: *)
| CopyingDirectory        (* Copying ... to ... *)
| FoundFiles (n : nat)    (* Found n files in ... *)
| CopySucceeded (n : nat) (* Successfully copied n files to ... *)
| CopyFailed              (* Error copying ...: *)
| UrlNotRecognized        (* Cannot determine tarball URL from gitUrl: ... *)
| Attempting (ref : jsval) (url : string)
                          (* Attempting to download archive (ref) from url to ... *)
| ArchiveSucceeded (ref : jsval)
                          (* Successfully downloaded and extracted archive (ref) to ... *)
| RetryingWithMaster      (* Download failed for ref 'main' (404). Retrying with 'master'... *)
| MasterRetryFailed       (* Retry with 'master' also failed: ... *)
| ArchiveFailed (ref : jsval)
                          (* Error downloading or extracting tarball (ref): ... *)
| FallingBackToClone      (* Falling back to git clone... *)
| FallbackCloneFailed     (* Fallback git clone failed: *)
| CleaningUp              (* Cleaning up data directory: ... *)
| Removing (file : string) (* Removing: file (...) *)
| CouldNotProcess (file : string)
                          (* Could not process file ... during cleanup: ... *)
| CleanupComplete (n : nat) (* Cleanup complete. Removed n files. *)
| CleanupDisabled         (* Build cleanup is disabled via configuration. *)
| CreatedDefaultConfig    (* Created default configuration file at ... *)
| MadeExecutable          (* Made bin script executable: ... *)
| BuildSucceeded          (* Build process finished successfully! *)
| BuildFailed             (* Build failed: *)
(* server *)
| EnsuredDataDir          (* Ensured data directory exists: ... *)
| EnsureDataDirFailed     (* Failed to ensure data directory exists: ... *)
| StartingServer          (* Starting Docs MCP server... and the three lines after it *)
| UsingGitRepository (interval : jsnum)
                          (* Using Git repository: ...; Auto-update interval: n minutes *)
| UsingStaticDirectory    (* Using static directory: ... *)
| OverrideDetected        (* Runtime content source override detected. ... *)
| UsingPrebuilt           (* Detected non-empty default data directory. Using pre-built content ... *)
| DataDirEmpty            (* Default data directory ... exists but is empty. ... *)
| DataDirMissing          (* Default data directory ... does not exist. ... *)
| DataDirCheckError       (* Error checking default data directory ...: *)
| SkippingFetch           (* Skipping content fetch, using pre-built data. *)
| AutoUpdateEnabled       (* Auto-update enabled. Initializing Git for ... *)
| NotARepoCloning         (* Directory ... is not a Git repository. Attempting initial clone... *)
| InitialCloneSucceeded   (* Successfully cloned ... to ... *)
| InitialCloneFailed      (* Error during initial clone: *)
| ProceedingWithUpdateCheck (* Directory ... is a Git repository. Proceeding with update check. *)
| AutoUpdateDisabled      (* Auto-update disabled. Initializing content from tarball for ... *)
| TarballInitFailed       (* Failed to initialize from tarball: *)
| IncludeDirWarning       (* Warning: Config specifies includeDir (...) but data dir ... *)
| NoContentSource         (* No content source specified and no pre-built data found ... *)
| ServerRunning           (* Docs MCP server running on stdio *)
| StartError              (* Error starting server: *)
| CheckingForUpdates      (* Checking for documentation updates... *)
| NotARepoSkipping        (* Data directory ... is not a Git repository. Skipping update. *)
| PullingUpdates (behind : Z) (* Local branch is n commits behind ... Pulling updates... *)
| DocumentationUpdated    (* Documentation updated successfully. *)
| UpToDate                (* Documentation is up-to-date. *)
| UpdateCheckError        (* Error checking for updates: *)
| ToolRequest (name : jsval) (* Received request for tool: ...; Request arguments: ... *)
| ExecutingSearch         (* Executing search with options: ... *)
| SearchError             (* Error executing docs search: *)
| ToolError (name : jsval). (* Error executing name: *)

(** External operations, with the arguments the source passes, and the
    console lines, in the order in which they happen. *)
Inductive event : Type :=
| Console (c : console)
| EnsureDir (dir : jsval)
| EmptyDir (dir : jsval)
| ExistsSync (p : jsval)
| Readdir (dir : jsval)
| HttpGet (url : string)
| Extract (dir : jsval)            (* tar.x({ strip: 1, C: dir }) *)
| Clone (url dir ref : jsval)      (* clone(url, dir, ['--branch', ref, '--depth', '1']) *)
| CheckIsRepo
| Fetch
| Status
| Pull (ref : jsval)               (* pull('origin', ref) *)
| Glob (cwd : jsval) (ignore : option (list string))
                                   (* glob({ cwd, nodir, ignore, dot, gitignore }) *)
| GlobAbsolute (cwd : jsval)       (* glob({ cwd, nodir, dot, absolute }) *)
| Copy (src dst : string)
| Stat (file : string)
| Remove (file : string)
| WriteFile (p : string)
| Chmod (p : string)
| Search (dir query : jsval)       (* search({ path, query, maxTokens: 10000 }) *)
| Connect
| SetTimeout (id : nat) (ms : Z)
| ClearTimeout (id : nat).

Definition trace := list event.

(** Answer of a file-system or Git call. *)
Inductive io (A : Type) : Type :=
| Ok (a : A)
| Failed (code message : string).
Arguments Ok {A} a.
Arguments Failed {A} code message.

(** Answer of an HTTP request: a response with a status, or no response. *)
Inductive http : Type :=
| Responded (status : Z)
| NoResponse (message : string).

(** The outside world.  Every oracle takes the logical time of the call, so
    the same call may be answered differently at different moments. *)
Record World : Type := {
  w_ensureDir : nat -> jsval -> io unit;
  w_emptyDir : nat -> jsval -> io unit;
  w_existsSync : nat -> jsval -> bool;
  w_readdir : nat -> jsval -> io (list string);
  w_httpGet : nat -> string -> http;
  w_extract : nat -> jsval -> io unit;
  w_clone : nat -> jsval -> jsval -> jsval -> io unit;
  w_checkIsRepo : nat -> io bool;
  w_fetch : nat -> io unit;
  w_status : nat -> io Z;             (* status.behind *)
  w_pull : nat -> jsval -> io unit;
  w_glob : nat -> jsval -> option (list string) -> io (list string);
  w_globAbsolute : nat -> jsval -> io (list string);
  w_copy : nat -> string -> string -> io unit;
  w_stat : nat -> string -> io Z;     (* stats.size *)
  w_remove : nat -> string -> io unit;
  w_writeFile : nat -> string -> io unit;
  w_chmod : nat -> string -> io unit;
  w_search : nat -> jsval -> jsval -> io string;
  w_connect : nat -> io unit
}.

(* ===================================================================== *)
(** ** src/config.js *)
(* ===================================================================== *)

Module Config.

Record Config : Type := mkConfig {
  includeDir : jsval;
  gitUrl : jsval;
  gitRef : jsval;
  autoUpdateInterval : jsnum;
  dataDir : jsval;
  toolName : jsval;
  toolDescription : jsval;
  ignorePatterns : option (list string);
  enableBuildCleanup : jsval
}.

Definition set_includeDir v c :=
  mkConfig v (gitUrl c) (gitRef c) (autoUpdateInterval c) (dataDir c)
    (toolName c) (toolDescription c) (ignorePatterns c) (enableBuildCleanup c).
Definition set_gitUrl v c :=
  mkConfig (includeDir c) v (gitRef c) (autoUpdateInterval c) (dataDir c)
    (toolName c) (toolDescription c) (ignorePatterns c) (enableBuildCleanup c).
Definition set_gitRef v c :=
  mkConfig (includeDir c) (gitUrl c) v (autoUpdateInterval c) (dataDir c)
    (toolName c) (toolDescription c) (ignorePatterns c) (enableBuildCleanup c).
Definition set_autoUpdateInterval n c :=
  mkConfig (includeDir c) (gitUrl c) (gitRef c) n (dataDir c)
    (toolName c) (toolDescription c) (ignorePatterns c) (enableBuildCleanup c).
Definition set_dataDir v c :=
  mkConfig (includeDir c) (gitUrl c) (gitRef c) (autoUpdateInterval c) v
    (toolName c) (toolDescription c) (ignorePatterns c) (enableBuildCleanup c).
Definition set_toolName v c :=
  mkConfig (includeDir c) (gitUrl c) (gitRef c) (autoUpdateInterval c)
    (dataDir c) v (toolDescription c) (ignorePatterns c) (enableBuildCleanup c).
Definition set_toolDescription v c :=
  mkConfig (includeDir c) (gitUrl c) (gitRef c) (autoUpdateInterval c)
    (dataDir c) (toolName c) v (ignorePatterns c) (enableBuildCleanup c).
Definition set_ignorePatterns l c :=
  mkConfig (includeDir c) (gitUrl c) (gitRef c) (autoUpdateInterval c)
    (dataDir c) (toolName c) (toolDescription c) l (enableBuildCleanup c).
Definition set_enableBuildCleanup v c :=
  mkConfig (includeDir c) (gitUrl c) (gitRef c) (autoUpdateInterval c)
    (dataDir c) (toolName c) (toolDescription c) (ignorePatterns c) v.

(** The parsed configuration file: a key is present ([Some]) or absent.
    [autoUpdateInterval] is a JSON number and [ignorePatterns] an array of
    strings when present ([None] inside [ignorePatterns] of the settings
    stands for a JSON [null]). *)
Record FileConfig : Type := mkFileConfig {
  f_includeDir : option jsval;
  f_gitUrl : option jsval;
  f_gitRef : option jsval;
  f_autoUpdateInterval : option jsnum;
  f_dataDir : option jsval;
  f_toolName : option jsval;
  f_toolDescription : option jsval;
  f_ignorePatterns : option (option (list string));
  f_enableBuildCleanup : option jsval
}.

(** What is found at the configuration path: nothing, a file that cannot be
    read or parsed, or a JSON object. *)
Inductive FileState : Type :=
| FileMissing
| FileMalformed
| FileParsed (f : FileConfig).

(** [minimist(process.argv.slice(2))]: an absent flag reads [undefined]. *)
Record Args : Type := mkArgs {
  a_config : jsval;
  a_includeDir : jsval;
  a_gitUrl : jsval;
  a_gitRef : jsval;
  a_autoUpdateInterval : jsval;
  a_dataDir : jsval;
  a_toolName : jsval;
  a_toolDescription : jsval;
  a_enableBuildCleanup : jsval
}.

(** [process.env]: a variable is a string or is not defined. *)
Record Env : Type := mkEnv {
  INCLUDE_DIR : option string;
  GIT_URL : option string;
  GIT_REF : option string;
  AUTO_UPDATE_INTERVAL : option string;
  DATA_DIR : option string;
  TOOL_NAME : option string;
  TOOL_DESCRIPTION : option string
}.

Definition env_val (o : option string) : jsval :=
  match o with
  | Some s => VStr s
  | None => VUndef
  end.

Definition is_undefined (v : jsval) : bool :=
  match v with
  | VUndef => true
  | _ => false
  end.

Section LoadConfig.

(** Node's [path] module and the two paths computed from [__dirname]. *)
Variable path_isAbsolute : string -> bool.
Variable path_resolve : string -> string -> string.
Variable defaultConfigPath : string.  (* <package>/docs-mcp.config.json *)
Variable defaultDataDir : string.     (* <package>/data *)

(** The process: command line, environment, working directory, and the
    file system as seen through [existsSync]/[readFileSync]/[JSON.parse]. *)
Variable args : Args.
Variable env : Env.
Variable cwd : string.
Variable readConfig : jsval -> FileState.

Definition defaultConfig : Config := {|
  includeDir := VNull;
  gitUrl := VNull;
  gitRef := VStr "main";
  autoUpdateInterval := Num 0;
  dataDir := VStr defaultDataDir;
  toolName := VStr "search_docs";
  toolDescription :=
    VStr "Search documentation using the probe search engine.";
  ignorePatterns :=
    Some ["node_modules"; ".git"; "dist"; "build"; "coverage"];
  enableBuildCleanup := VBool true
|}.

Definition over {A : Type} (old : A) (o : option A) : A :=
  match o with
  | Some v => v
  | None => old
  end.

(** [{ ...config, ...fileConfig }] on the keys the program reads. *)
Definition spread (c : Config) (f : FileConfig) : Config := {|
  includeDir := over (includeDir c) (f_includeDir f);
  gitUrl := over (gitUrl c) (f_gitUrl f);
  gitRef := over (gitRef c) (f_gitRef f);
  autoUpdateInterval := over (autoUpdateInterval c) (f_autoUpdateInterval f);
  dataDir := over (dataDir c) (f_dataDir f);
  toolName := over (toolName c) (f_toolName f);
  toolDescription := over (toolDescription c) (f_toolDescription f);
  ignorePatterns := over (ignorePatterns c) (f_ignorePatterns f);
  enableBuildCleanup := over (enableBuildCleanup c) (f_enableBuildCleanup f)
|}.

Definition configPath : jsval := Js.or_else (a_config args) (VStr defaultConfigPath).

(** Lines 54-67: defaults, then the file when it exists and parses. *)
Definition fileLayer : Config * list console :=
  let config := defaultConfig in
  match readConfig configPath with
  | FileParsed fileConfig => (spread config fileConfig, [ConfigLoaded])
  | FileMalformed => (config, [ConfigLoadError])
  | FileMissing => (config, [ConfigFileMissing])
  end.

(** Lines 69-76: [if (process.env.X) config.x = process.env.X]. *)
Definition envLayer (config : Config) : Config :=
  let config := if truthy (env_val (INCLUDE_DIR env))
                then set_includeDir (env_val (INCLUDE_DIR env)) config
                else config in
  let config := if truthy (env_val (GIT_URL env))
                then set_gitUrl (env_val (GIT_URL env)) config
                else config in
  let config := if truthy (env_val (GIT_REF env))
                then set_gitRef (env_val (GIT_REF env)) config
                else config in
  let config := if truthy (env_val (AUTO_UPDATE_INTERVAL env))
                then set_autoUpdateInterval
                       (parseInt (env_val (AUTO_UPDATE_INTERVAL env))) config
                else config in
  let config := if truthy (env_val (DATA_DIR env))
                then set_dataDir (env_val (DATA_DIR env)) config
                else config in
  let config := if truthy (env_val (TOOL_NAME env))
                then set_toolName (env_val (TOOL_NAME env)) config
                else config in
  let config := if truthy (env_val (TOOL_DESCRIPTION env))
                then set_toolDescription (env_val (TOOL_DESCRIPTION env)) config
                else config in
  config.

(** Lines 78-86: [if (args.x) config.x = args.x], with [!== undefined]
    for the interval and the cleanup switch. *)
Definition argsLayer (config : Config) : Config :=
  let config := if truthy (a_includeDir args)
                then set_includeDir (a_includeDir args) config
                else config in
  let config := if truthy (a_gitUrl args)
                then set_gitUrl (a_gitUrl args) config
                else config in
  let config := if truthy (a_gitRef args)
                then set_gitRef (a_gitRef args) config
                else config in
  let config := if negb (is_undefined (a_autoUpdateInterval args))
                then set_autoUpdateInterval
                       (parseInt (a_autoUpdateInterval args)) config
                else config in
  let config := if truthy (a_dataDir args)
                then set_dataDir (a_dataDir args) config
                else config in
  let config := if truthy (a_toolName args)
                then set_toolName (a_toolName args) config
                else config in
  let config := if truthy (a_toolDescription args)
                then set_toolDescription (a_toolDescription args) config
                else config in
  let config := if negb (is_undefined (a_enableBuildCleanup args))
                then set_enableBuildCleanup
                       (VBool (strict_eq (a_enableBuildCleanup args) (VBool true)
                               || strict_eq (a_enableBuildCleanup args)
                                    (VStr "true"))) config
                else config in
  config.

(** The settings after the three overriding layers (lines 54-86). *)
Definition merged : Config := argsLayer (envLayer (fst fileLayer)).

(** [path.isAbsolute(v)] throws a TypeError unless [v] is a string. *)
Definition isAbsolute (v : jsval) : outcome bool :=
  match v with
  | VStr s => Return (path_isAbsolute s)
  | _ => Throw (JsError "The path argument must be of type string")
  end.

Definition resolve (base : string) (v : jsval) : jsval :=
  match v with
  | VStr s => VStr (path_resolve base s)
  | _ => v
  end.

(** Lines 88-96. *)
Definition absolutePaths (config : Config) : outcome Config :=
  match isAbsolute (dataDir config) with
  | Return abs =>
      let config := if negb abs
                    then set_dataDir (resolve cwd (dataDir config)) config
                    else config in
      if truthy (includeDir config)
      then match isAbsolute (includeDir config) with
           | Return abs' =>
               Return (if negb abs'
                       then set_includeDir (resolve cwd (includeDir config)) config
                       else config)
           | Throw e => Throw e
           | Exit c => Exit c
           end
      else Return config
  | Throw e => Throw e
  | Exit c => Exit c
  end.

(** Lines 98-105. *)
Definition validate (config : Config) : Config * list console :=
  let '(config, out1) :=
    if truthy (includeDir config) && truthy (gitUrl config)
    then (set_includeDir VNull config, [BothSourcesWarning])
    else (config, []) in
  let out2 :=
    if negb (truthy (includeDir config)) && negb (truthy (gitUrl config))
    then [NoSourceWarning]
    else [] in
  (config, out1 ++ out2).

Definition loadConfig : outcome Config * list console :=
  let out0 := snd fileLayer in
  match absolutePaths merged with
  | Return config =>
      let '(config, out) := validate config in
      (Return config, out0 ++ out)
  | Throw e => (Throw e, out0)
  | Exit c => (Exit c, out0)
  end.

End LoadConfig.

End Config.
Import Config.

(* ===================================================================== *)
(** ** Process state and the computation monad *)
(* ===================================================================== *)

(** The two module-level variables of the server ([git], [updateTimer]),
    the timers the event loop holds, and the logical clock. *)
Record state : Type := mkState {
  git : bool;                    (* [git] is not null *)
  updateTimer : option nat;      (* handle of the last timer armed *)
  pending : list (nat * Z);      (* armed timers: handle and delay in ms *)
  next_id : nat;
  clock : nat
}.

Definition init_state : state := mkState false None [] 0 0.

Definition tick (st : state) : state :=
  mkState (git st) (updateTimer st) (pending st) (next_id st) (S (clock st)).

Definition M (A : Type) : Type := state -> outcome A * state * trace.

Definition ret {A} (a : A) : M A := fun st => (Return a, st, []).

Definition bind {A B} (m : M A) (k : A -> M B) : M B := fun st =>
  match m st with
  | (Return a, st1, t1) =>
      let '(r, st2, t2) := k a st1 in (r, st2, t1 ++ t2)
  | (Throw e, st1, t1) => (Throw e, st1, t1)
  | (Exit c, st1, t1) => (Exit c, st1, t1)
  end.

Declare Scope js_scope.
Delimit Scope js_scope with js.
Notation "x <- m ;; k" := (bind m (fun x => k))
  (at level 61, m at next level, right associativity) : js_scope.
Notation "m ;; k" := (bind m (fun _ => k))
  (at level 61, right associativity) : js_scope.
Local Open Scope js_scope.

Definition throw {A} (e : error) : M A := fun st => (Throw e, st, []).

(** [process.exit(code)]: nothing runs afterwards, not even a [finally]. *)
Definition exit {A} (code : Z) : M A := fun st => (Exit code, st, []).

(** [try { m } catch (e) { h e }] *)
Definition try_catch {A} (m : M A) (h : error -> M A) : M A := fun st =>
  match m st with
  | (Throw e, st1, t1) =>
      let '(r, st2, t2) := h e st1 in (r, st2, t1 ++ t2)
  | other => other
  end.

(** [try { m } finally { f }]: [f] runs after a return and after a throw,
    and the outcome of [m] is kept unless [f] itself throws or exits. *)
Definition try_finally {A} (m : M A) (f : M unit) : M A := fun st =>
  match m st with
  | (Exit c, st1, t1) => (Exit c, st1, t1)
  | (r, st1, t1) =>
      match f st1 with
      | (Return _, st2, t2) => (r, st2, t1 ++ t2)
      | (Throw e, st2, t2) => (Throw e, st2, t1 ++ t2)
      | (Exit c, st2, t2) => (Exit c, st2, t1 ++ t2)
      end
  end.

Definition log (c : console) : M unit := fun st => (Return tt, st, [Console c]).

(** An awaited call to a collaborator that may reject. *)
Definition call {A} (ev : event) (ask : nat -> io A) : M A := fun st =>
  match ask (clock st) with
  | Ok a => (Return a, tick st, [ev])
  | Failed code message => (Throw (IoError code message), tick st, [ev])
  end.

Definition outcome_of {A} (x : outcome A * state * trace) : outcome A := fst (fst x).
Definition state_of {A} (x : outcome A * state * trace) : state := snd (fst x).
Definition trace_of {A} (x : outcome A * state * trace) : trace := snd x.

(** [for (const x of xs) { await body(x) }] *)
Fixpoint for_each {A} (body : A -> M unit) (xs : list A) : M unit :=
  match xs with
  | [] => ret tt
  | x :: rest => body x ;; for_each body rest
  end.

(** Calls shared by the build script and the server. *)
Section Primitives.

Variable w : World.

Definition ensureDir (dir : jsval) : M unit :=
  call (EnsureDir dir) (fun t => w_ensureDir w t dir).

Definition emptyDir (dir : jsval) : M unit :=
  call (EmptyDir dir) (fun t => w_emptyDir w t dir).

(** [fs.existsSync] never throws. *)
Definition existsSync (p : jsval) : M bool := fun st =>
  (Return (w_existsSync w (clock st) p), tick st, [ExistsSync p]).

(** axios with [validateStatus: 200 <= status < 300]: any other status
    rejects with an error that carries the response. *)
Definition httpGet (url : string) : M unit := fun st =>
  match w_httpGet w (clock st) url with
  | Responded status =>
      if (200 <=? status) && (status <? 300)
      then (Return tt, tick st, [HttpGet url])
      else (Throw (HttpError status), tick st, [HttpGet url])
  | NoResponse message => (Throw (JsError message), tick st, [HttpGet url])
  end.

Definition extract (dir : jsval) : M unit :=
  call (Extract dir) (fun t => w_extract w t dir).

(** [simpleGit().clone(url, dir, ['--branch', ref, '--depth', '1'])] *)
Definition clone (url dir ref : jsval) : M unit :=
  call (Clone url dir ref) (fun t => w_clone w t url dir ref).

End Primitives.

(* ===================================================================== *)
(** ** The repository URL pattern *)
(* ===================================================================== *)

(** [url.match(/github\.com\/([^/]+)\/([^/]+?)(\.git)?$/)] *)
Module GitHub.

Fixpoint strip_prefix (p s : string) : option string :=
  match p, s with
  | EmptyString, _ => Some s
  | String a p', String b s' =>
      if Ascii.eqb a b then strip_prefix p' s' else None
  | String _ _, EmptyString => None
  end.

(** The text before the first slash and the text after it. *)
Fixpoint split_slash (s : string) : option (string * string) :=
  match s with
  | EmptyString => None
  | String c rest =>
      if Ascii.eqb c "/" then Some (EmptyString, rest)
      else match split_slash rest with
           | Some (a, b) => Some (String c a, b)
           | None => None
           end
  end.

Fixpoint has_slash (s : string) : bool :=
  match s with
  | EmptyString => false
  | String c rest => Ascii.eqb c "/" || has_slash rest
  end.

(** The lazy group [([^/]+?)] before [(\.git)?$]: the shortest non-empty
    prefix that leaves nothing or exactly [.git]. *)
Fixpoint lazy_repo (s : string) : string :=
  match s with
  | EmptyString => EmptyString
  | String c rest =>
      if String.eqb rest ".git" then String c EmptyString
      else String c (lazy_repo rest)
  end.

(** A match that starts at the first character. *)
Definition match_here (s : string) : option (string * string) :=
  match strip_prefix "github.com/" s with
  | Some after =>
      match split_slash after with
      | Some (owner, rest) =>
          if String.eqb owner "" || String.eqb rest "" || has_slash rest
          then None
          else Some (owner, lazy_repo rest)
      | None => None
      end
  | None => None
  end.

(** The leftmost match: [(owner, repo)], that is [match[1]], [match[2]]. *)
Fixpoint match_url (s : string) : option (string * string) :=
  match match_here s with
  | Some r => Some r
  | None =>
      match s with
      | EmptyString => None
      | String _ rest => match_url rest
      end
  end.

Definition tarballUrl (owner repo : string) (ref : jsval) : string :=
  ("https://github.com/" ++ owner ++ "/" ++ repo ++ "/archive/"
   ++ toString ref ++ ".tar.gz")%string.

End GitHub.

(* ===================================================================== *)
(** ** scripts/build.js *)
(* ===================================================================== *)

Module Build.

Section BuildJs.

Variable w : World.
Variable config : Config.

(** Node's [path] module and the two paths computed from [rootDir]. *)
Variable path_join : string -> string -> string.
Variable path_dirname : string -> string.
Variable path_extname : string -> string.
Variable rootConfigPath : string.   (* <rootDir>/docs-mcp.config.json *)
Variable binPath : string.          (* <rootDir>/bin/mcp *)

(** [const dataDir = config.dataDir] *)
Definition dataDir : jsval := Config.dataDir config.

Definition cloneGitRepo : M unit :=
  log CloningRepository ;;
  try_catch
    (clone w (gitUrl config) dataDir (gitRef config) ;;
     log CloneSucceeded)
    (fun e => log CloneFailed ;; throw e).

(** [path.join(dir, file)] throws a TypeError unless [dir] is a string. *)
Definition join (dir : jsval) (file : string) : M string :=
  match dir with
  | VStr d => ret (path_join d file)
  | _ => throw (JsError "The path argument must be of type string")
  end.

(** The body of the copy loop, lines 89-96. *)
Definition copyFile (file : string) : M unit :=
  sourcePath <- join (includeDir config) file ;;
  targetPath <- join dataDir file ;;
  ensureDir w (VStr (path_dirname targetPath)) ;;
  call (Copy sourcePath targetPath)
       (fun t => w_copy w t sourcePath targetPath).

Definition copyIncludedDir : M unit :=
  log CopyingDirectory ;;
  try_catch
    (files <- call (Glob (includeDir config) (ignorePatterns config))
                   (fun t => w_glob w t (includeDir config)
                               (ignorePatterns config)) ;;
     log (FoundFiles (List.length files)) ;;
     for_each copyFile files ;;
     log (CopySucceeded (List.length files)))
    (fun e => log CopyFailed ;; throw e).

(** Lines 124-148.  The directory is not emptied here: [prepareDataDir]
    did it once before the source was chosen. *)
Definition downloadAttempt (owner repo : string) (currentRef : jsval)
  : M unit :=
  let tarballUrl := GitHub.tarballUrl owner repo currentRef in
  log (Attempting currentRef tarballUrl) ;;
  httpGet w tarballUrl ;;
  extract w dataDir ;;
  log (ArchiveSucceeded currentRef).

Definition fallbackToClone : M unit :=
  try_catch cloneGitRepo (fun e => log FallbackCloneFailed ;; throw e).

Definition downloadAndExtractTarball : M unit :=
  match gitUrl config with
  | VStr url =>
      match GitHub.match_url url with
      | None => log UrlNotRecognized ;; cloneGitRepo
      | Some (owner, repo) =>
          let ref := Js.or_else (gitRef config) (VStr "main") in
          try_catch
            (downloadAttempt owner repo ref)
            (fun error =>
               if strict_eq ref (VStr "main") && is_404 error
               then
                 log RetryingWithMaster ;;
                 let ref := VStr "master" in
                 try_catch
                   (downloadAttempt owner repo ref)
                   (fun retryError =>
                      log MasterRetryFailed ;;
                      log FallingBackToClone ;;
                      fallbackToClone)
               else
                 log (ArchiveFailed ref) ;;
                 log FallingBackToClone ;;
                 fallbackToClone)
      end
  | _ => throw (JsError "config.gitUrl.match is not a function")
  end.

Definition prepareDataDir : M unit :=
  log BuildingPackage ;;
  ensureDir w dataDir ;;
  emptyDir w dataDir ;;
  if truthy (gitUrl config) then
    if gt0 (autoUpdateInterval config)
    then log UsingGitClone ;; cloneGitRepo
    else log UsingTarball ;; downloadAndExtractTarball
  else if truthy (includeDir config) then copyIncludedDir
  else log EmptyDataDirCreated.

Definition forbiddenExtensions : list string :=
  [".jpg"; ".jpeg"; ".png"; ".gif"; ".bmp"; ".tiff"; ".webp"; ".svg"; ".ico";
   ".mp4"; ".mov"; ".avi"; ".wmv"; ".mkv"; ".flv"; ".webm";
   ".mp3"; ".wav"; ".ogg"; ".aac"; ".flac";
   ".zip"; ".tar"; ".gz"; ".bz2"; ".rar"; ".7z";
   ".pdf"; ".doc"; ".docx"; ".xls"; ".xlsx"; ".ppt"; ".pptx";
   ".exe"; ".dll"; ".so"; ".dylib"; ".app";
   ".psd"; ".ai"; ".iso"; ".dmg"; ".pkg"; ".deb"; ".rpm"].

Definition maxSize : Z := 100 * 1024.

Definition lower (c : ascii) : ascii :=
  let n := nat_of_ascii c in
  if (Nat.leb 65 n && Nat.leb n 90)%bool then ascii_of_nat (n + 32) else c.

Fixpoint toLowerCase (s : string) : string :=
  match s with
  | EmptyString => EmptyString
  | String c rest => String (lower c) (toLowerCase rest)
  end.

Definition has (set : list string) (x : string) : bool :=
  existsb (String.eqb x) set.

(** One turn of the cleanup loop; the result says whether the file was
    removed ([removedCount++]). *)
Definition cleanupFile (file : string) : M bool :=
  try_catch
    (size <- call (Stat file) (fun t => w_stat w t file) ;;
     let ext := toLowerCase (path_extname file) in
     if has forbiddenExtensions ext || (maxSize <? size)
     then log (Removing file) ;;
          call (Remove file) (fun t => w_remove w t file) ;;
          ret true
     else ret false)
    (fun error =>
       match error with
       | IoError "ENOENT" _ => ret false
       | _ => log (CouldNotProcess file) ;; ret false
       end).

Fixpoint cleanupLoop (files : list string) (removedCount : nat) : M nat :=
  match files with
  | [] => ret removedCount
  | file :: rest =>
      removed <- cleanupFile file ;;
      cleanupLoop rest (if removed then S removedCount else removedCount)
  end.

Definition cleanupDataDir : M unit :=
  log CleaningUp ;;
  files <- call (GlobAbsolute dataDir)
                (fun t => w_globAbsolute w t dataDir) ;;
  removedCount <- cleanupLoop files 0%nat ;;
  log (CleanupComplete removedCount).

Definition createDefaultConfig : M unit :=
  found <- existsSync w (VStr rootConfigPath) ;;
  if negb found
  then call (WriteFile rootConfigPath)
            (fun t => w_writeFile w t rootConfigPath) ;;
       log CreatedDefaultConfig
  else ret tt.

Definition build : M unit :=
  try_catch
    (createDefaultConfig ;;
     prepareDataDir ;;
     (if truthy (enableBuildCleanup config)
      then cleanupDataDir
      else log CleanupDisabled) ;;
     call (Chmod binPath) (fun t => w_chmod w t binPath) ;;
     log MadeExecutable ;;
     log BuildSucceeded)
    (fun error => log BuildFailed ;; exit 1).

End BuildJs.

End Build.

(* ===================================================================== *)
(** ** The server: [DocsMcpServer] *)
(* ===================================================================== *)

Module Server.

(** [request.params] of a tool call. *)
Record request : Type := mkRequest {
  name : jsval;
  arguments : jsval
}.

(** The object a tool call returns: one text item, and [isError] when the
    call failed ([false] stands for the absent key). *)
Record response : Type := mkResponse {
  text : string;
  isError : bool
}.

Definition MethodNotFound : Z := -32601.

Section IndexJs.

Variable w : World.
Variable config : Config.
Variable args : Args.
Variable env : Env.

(** [if (updateTimer) clearTimeout(updateTimer); updateTimer = null;] *)
Definition clearUpdateTimer : M unit := fun st =>
  match updateTimer st with
  | Some id =>
      (Return tt,
       mkState (git st) None
         (filter (fun p => negb (Nat.eqb (fst p) id)) (pending st))
         (next_id st) (clock st),
       [ClearTimeout id])
  | None => (Return tt, st, [])
  end.

(** [updateTimer = setTimeout(callback, ms)] *)
Definition setUpdateTimer (ms : Z) : M unit := fun st =>
  let id := next_id st in
  (Return tt,
   mkState (git st) (Some id) (pending st ++ [(id, ms)]) (S id) (clock st),
   [SetTimeout id ms]).

(** [if (!git) git = simpleGit(config.dataDir)] *)
Definition initGit : M unit := fun st =>
  (Return tt,
   mkState true (updateTimer st) (pending st) (next_id st) (clock st), []).

Definition getGit : M bool := fun st => (Return (git st), st, []).

(** Module level, lines 46-53. *)
Definition ensureDataDir : M unit :=
  try_catch
    (ensureDir w (dataDir config) ;; log EnsuredDataDir)
    (fun err => log EnsureDataDirFailed ;; exit 1).

(** [error.message || String(error)] *)
Definition message_or_string (e : error) : string :=
  if String.eqb (message_of e) "" then "Error" else message_of e.

Definition executeDocsSearch (args : jsval) : M string :=
  try_catch
    (let searchPath := dataDir config in
     log ExecutingSearch ;;
     call (Search searchPath (Js.get args "query"))
          (fun t => w_search w t searchPath (Js.get args "query")))
    (fun error =>
       log SearchError ;;
       throw (McpError MethodNotFound
                ("Error executing docs search: "
                 ++ message_or_string error)%string)).

(** The [CallToolRequestSchema] handler, lines 121-169. *)
Definition callTool (request : request) : M response :=
  if negb (strict_eq (name request) (toolName config))
  then throw (McpError MethodNotFound
                ("Unknown tool: " ++ toString (name request)
                 ++ ". Expected: " ++ toString (toolName config))%string)
  else
    try_catch
      (log (ToolRequest (name request)) ;;
       if negb (truthy (arguments request))
          || negb (String.eqb (typeof (arguments request)) "object")
       then throw (JsError "Arguments must be an object")
       else
         let args := arguments request in
         if negb (truthy (Js.get args "query"))
         then throw (JsError "Query is required in arguments")
         else
           result <- executeDocsSearch args ;;
           ret (mkResponse result false))
      (fun error =>
         log (ToolError (name request)) ;;
         ret (mkResponse
                ("Error executing " ++ toString (name request) ++ ": "
                 ++ message_of error)%string
                true)).

(** Lines 209-242.  The [return] for a directory that is not a repository
    sits inside the [try], so the [finally] still runs after it; the
    [return] of the first line sits before the [try]. *)
Definition checkForUpdates : M unit :=
  initialized <- getGit ;;
  if negb (truthy (gitUrl config)) || negb initialized then ret tt
  else
    log CheckingForUpdates ;;
    try_finally
      (try_catch
         (isRepo <- call CheckIsRepo (w_checkIsRepo w) ;;
          if negb isRepo then log NotARepoSkipping
          else
            call Fetch (w_fetch w) ;;
            behind <- call Status (w_status w) ;;
            if 0 <? behind
            then log (PullingUpdates behind) ;;
                 call (Pull (gitRef config))
                      (fun t => w_pull w t (gitRef config)) ;;
                 log DocumentationUpdated
            else log UpToDate)
         (fun error => log UpdateCheckError))
      (if gt0 (autoUpdateInterval config)
       then match autoUpdateInterval config with
            | Num minutes => setUpdateTimer (minutes * 60 * 1000)
            | NaN => ret tt
            end
       else ret tt).

(** Lines 261-288: the directory is emptied at the start of each attempt. *)
Definition downloadAttempt (owner repo : string) (currentRef : jsval)
  : M unit :=
  let tarballUrl := GitHub.tarballUrl owner repo currentRef in
  log (Attempting currentRef tarballUrl) ;;
  emptyDir w (dataDir config) ;;
  httpGet w tarballUrl ;;
  extract w (dataDir config) ;;
  log (ArchiveSucceeded currentRef).

Definition downloadAndExtractTarballRuntime : M unit :=
  match gitUrl config with
  | VStr url =>
      match GitHub.match_url url with
      | None =>
          log UrlNotRecognized ;;
          throw (JsError "Invalid or unsupported Git URL for tarball download.")
      | Some (owner, repo) =>
          let ref := Js.or_else (gitRef config) (VStr "main") in
          try_catch
            (downloadAttempt owner repo ref)
            (fun error =>
               if strict_eq ref (VStr "main") && is_404 error
               then
                 log RetryingWithMaster ;;
                 let ref := VStr "master" in
                 try_catch
                   (downloadAttempt owner repo ref)
                   (fun retryError =>
                      log MasterRetryFailed ;;
                      throw (JsError
                        "Failed to download archive for both 'main' and 'master' refs."))
               else
                 log (ArchiveFailed ref) ;;
                 throw error)
      end
  | _ => throw (JsError "config.gitUrl.match is not a function")
  end.

(** Lines 327-329. *)
Definition runtimeOverride : jsval :=
  Js.or_else (a_dataDir args)
    (Js.or_else (a_gitUrl args)
       (Js.or_else (a_includeDir args)
          (Js.or_else (env_val (DATA_DIR env))
             (Js.or_else (env_val (GIT_URL env)) (env_val (INCLUDE_DIR env)))))).

(** Lines 331-354: the value of [usePrebuiltData]. *)
Definition detectPrebuilt : M bool :=
  if negb (truthy runtimeOverride) then
    try_catch
      (found <- existsSync w (dataDir config) ;;
       if found then
         items <- call (Readdir (dataDir config))
                       (fun t => w_readdir w t (dataDir config)) ;;
         if Nat.ltb 0 (List.length items)
         then log UsingPrebuilt ;; ret true
         else log DataDirEmpty ;; ret false
       else log DataDirMissing ;; ret false)
      (fun readDirError => log DataDirCheckError ;; ret false)
  else log OverrideDetected ;; ret false.

(** Lines 359-410. *)
Definition initContent (usePrebuiltData : bool) : M unit :=
  if usePrebuiltData then
    log SkippingFetch ;;
    clearUpdateTimer
  else if truthy (gitUrl config) then
    if gt0 (autoUpdateInterval config) then
      log AutoUpdateEnabled ;;
      initGit ;;
      isRepo <- call CheckIsRepo (w_checkIsRepo w) ;;
      (if negb isRepo then
         log NotARepoCloning ;;
         try_catch
           (emptyDir w (dataDir config) ;;
            clone w (gitUrl config) (dataDir config) (gitRef config) ;;
            log InitialCloneSucceeded)
           (fun cloneError => log InitialCloneFailed ;; exit 1)
       else ret tt) ;;
      log ProceedingWithUpdateCheck ;;
      checkForUpdates
    else
      log AutoUpdateDisabled ;;
      try_catch downloadAndExtractTarballRuntime
        (fun tarballError => log TarballInitFailed ;; exit 1) ;;
      clearUpdateTimer
  else if truthy (includeDir config) && negb (truthy runtimeOverride) then
    log IncludeDirWarning ;;
    clearUpdateTimer
  else if negb (truthy runtimeOverride) then
    log NoContentSource ;;
    clearUpdateTimer
  else ret tt.

Definition run : M unit :=
  try_catch
    (log StartingServer ;;
     (if truthy (gitUrl config)
      then log (UsingGitRepository (autoUpdateInterval config))
      else if truthy (includeDir config) then log UsingStaticDirectory
      else ret tt) ;;
     usePrebuiltData <- detectPrebuilt ;;
     initContent usePrebuiltData ;;
     call Connect (w_connect w) ;;
     log ServerRunning)
    (fun error => log StartError ;; exit 1).

(** The process from its first line: the data directory is ensured, then
    the server runs. *)
Definition main : M unit := ensureDataDir ;; run.

(** The event loop fires the oldest armed timer; its callback is
    [() => this.checkForUpdates()]. *)
Definition fireTimer : M unit := fun st =>
  match pending st with
  | [] => (Return tt, st, [])
  | (id, ms) :: rest =>
      checkForUpdates
        (mkState (git st) (updateTimer st) rest (next_id st) (clock st))
  end.

Fixpoint fireTimers (n : nat) : M unit :=
  match n with
  | O => ret tt
  | S k => fireTimer ;; fireTimers k
  end.

(** The requests of a session, answered one after the other.  A handler
    that throws is answered by the SDK with a protocol error; the process
    goes on. *)
Inductive reply : Type :=
| Result (r : response)
| ProtocolError (e : error).

Definition answer (request : request) : M reply :=
  try_catch (r <- callTool request ;; ret (Result r))
            (fun e => ret (ProtocolError e)).

Fixpoint serve (requests : list request) : M (list reply) :=
  match requests with
  | [] => ret []
  | request :: rest =>
      r <- answer request ;;
      rs <- serve rest ;;
      ret (r :: rs)
  end.

End IndexJs.

End Server.

(* ===================================================================== *)
(** ** The precedence rule, as the specification words it *)
(* ===================================================================== *)

Module Precedence.

(** The value set at the highest-precedence layer that sets the field:
    command line, then environment, then file, then the built-in default. *)
Definition highest {A : Type} (cli env file : option A) (default : A) : A :=
  match cli, env, file with
  | Some v, _, _ => v
  | None, Some v, _ => v
  | None, None, Some v => v
  | None, None, None => default
  end.

(** A flag sets a field when its value is truthy. *)
Definition flag (v : jsval) : option jsval :=
  if truthy v then Some v else None.

(** A flag sets the interval or the cleanup switch when it is given at all. *)
Definition given (v : jsval) : option jsval :=
  match v with
  | VUndef => None
  | _ => Some v
  end.

(** A variable sets a field when it is a non-empty string. *)
Definition variable (o : option string) : option jsval :=
  match o with
  | Some s => if String.eqb s "" then None else Some (VStr s)
  | None => None
  end.

(** The file sets a field when it parses and holds the key. *)
Definition key {A : Type} (file : FileState) (field : FileConfig -> option A)
  : option A :=
  match file with
  | FileParsed f => field f
  | FileMalformed | FileMissing => None
  end.

(** [v === true || v === 'true'] *)
Definition is_true (v : jsval) : jsval :=
  VBool (strict_eq v (VBool true) || strict_eq v (VStr "true")).

Section Layers.

Variable defaultDataDir : string.
Variable args : Args.
Variable env : Env.
Variable file : FileState.

(** Every field taken from the highest layer that sets it. *)
Definition by_precedence : Config := {|
  includeDir :=
    highest (flag (a_includeDir args)) (variable (INCLUDE_DIR env))
      (key file f_includeDir) VNull;
  gitUrl :=
    highest (flag (a_gitUrl args)) (variable (GIT_URL env))
      (key file f_gitUrl) VNull;
  gitRef :=
    highest (flag (a_gitRef args)) (variable (GIT_REF env))
      (key file f_gitRef) (VStr "main");
  autoUpdateInterval :=
    highest (option_map parseInt (given (a_autoUpdateInterval args)))
      (option_map parseInt (variable (AUTO_UPDATE_INTERVAL env)))
      (key file f_autoUpdateInterval) (Num 0);
  dataDir :=
    highest (flag (a_dataDir args)) (variable (DATA_DIR env))
      (key file f_dataDir) (VStr defaultDataDir);
  toolName :=
    highest (flag (a_toolName args)) (variable (TOOL_NAME env))
      (key file f_toolName) (VStr "search_docs");
  toolDescription :=
    highest (flag (a_toolDescription args)) (variable (TOOL_DESCRIPTION env))
      (key file f_toolDescription)
      (VStr "Search documentation using the probe search engine.");
  ignorePatterns :=
    highest None None (key file f_ignorePatterns)
      (Some ["node_modules"; ".git"; "dist"; "build"; "coverage"]);
  enableBuildCleanup :=
    highest (option_map is_true (given (a_enableBuildCleanup args))) None
      (key file f_enableBuildCleanup) (VBool true)
|}.

End Layers.

End Precedence.

(** A path made absolute against the working directory, as lines 88-96 of
    config.js do it. *)
Definition absolute (path_isAbsolute : string -> bool)
    (path_resolve : string -> string -> string) (cwd : string) (v : jsval)
  : jsval :=
  match v with
  | VStr s => if path_isAbsolute s then v else VStr (path_resolve cwd s)
  | _ => v
  end.

(** Number of times a line was written to the console. *)
Definition count_line (p : console -> bool) (out : list console) : nat :=
  List.length (filter p out).

Definition is_conflict (c : console) : bool :=
  match c with
  | BothSourcesWarning => true
  | _ => false
  end.

(* ===================================================================== *)
(** ** Observations on traces *)
(* ===================================================================== *)

(** Delays of the timers armed, in order. *)
Definition armed (t : trace) : list Z :=
  flat_map (fun e => match e with SetTimeout _ ms => [ms] | _ => [] end) t.

(** Number of update cycles started. *)
Definition cycles (t : trace) : nat :=
  List.length
    (filter (fun e => match e with
                      | Console CheckingForUpdates => true
                      | _ => false
                      end) t).

(** Operations that fetch content or touch the repository or empty the
    data directory. *)
Definition is_acquisition (e : event) : bool :=
  match e with
  | EmptyDir _ | HttpGet _ | Extract _ | Clone _ _ _
  | CheckIsRepo | Fetch | Status | Pull _ => true
  | _ => false
  end.

Definition acquisitions (t : trace) : trace := filter is_acquisition t.


(** URLs requested, in order. *)
Definition downloads (t : trace) : list string :=
  flat_map (fun e => match e with HttpGet url => [url] | _ => [] end) t.


Definition has_event (p : event -> bool) (t : trace) : bool := existsb p t.

(** Some download attempt ran to the end. *)
Definition archive_succeeded : trace -> bool :=
  has_event (fun e => match e with
                      | Console (ArchiveSucceeded _) => true
                      | _ => false
                      end).

Definition used_prebuilt : trace -> bool :=
  has_event (fun e => match e with Console UsingPrebuilt => true | _ => false end).

Definition clone_succeeded : trace -> bool :=
  has_event (fun e => match e with Console CloneSucceeded => true | _ => false end).

Definition connected : trace -> bool :=
  has_event (fun e => match e with Connect => true | _ => false end).

(** The clones started, in order. *)
Definition clones (t : trace) : trace :=
  filter (fun e => match e with Clone _ _ _ => true | _ => false end) t.

(** Every request is sent right after the data directory was emptied:
    no other operation lies between the two (console lines do not count). *)
Fixpoint cleared_right_before (clean : bool) (t : trace) : bool :=
  match t with
  | [] => true
  | Console _ :: rest => cleared_right_before clean rest
  | EmptyDir _ :: rest => cleared_right_before true rest
  | HttpGet _ :: rest => clean && cleared_right_before false rest
  | _ :: rest => cleared_right_before false rest
  end.

(** Every request is sent after the data directory was emptied, with
    nothing but requests since. *)
Fixpoint cleared_and_untouched (clean : bool) (t : trace) : bool :=
  match t with
  | [] => true
  | Console _ :: rest => cleared_and_untouched clean rest
  | EmptyDir _ :: rest => cleared_and_untouched true rest
  | HttpGet _ :: rest => clean && cleared_and_untouched clean rest
  | _ :: rest => cleared_and_untouched false rest
  end.

(** The directories emptied, in order. *)
Definition clears (t : trace) : list jsval :=
  flat_map (fun e => match e with EmptyDir d => [d] | _ => [] end) t.


Definition build_succeeded : trace -> bool :=
  has_event (fun e => match e with Console BuildSucceeded => true | _ => false end).

Definition copy_started : trace -> bool :=
  has_event (fun e => match e with Console CopyingDirectory => true | _ => false end).


(** The arguments of a tool call are not an object, or hold no usable
    [query]. *)
Definition lacks_query (arguments : jsval) : bool :=
  negb (truthy arguments)
  || negb (String.eqb (typeof arguments) "object")
  || negb (truthy (Js.get arguments "query")).


(** Calls to the Git engine. *)
Definition git_operations (t : trace) : trace :=
  filter (fun e => match e with
                   | CheckIsRepo | Fetch | Status | Pull _ | Clone _ _ _ => true
                   | _ => false
                   end) t.



(** What the interval asks of one update cycle: the timer it arms. *)
Definition rearmed (config : Config) (st st' : state) (t : trace) : Prop :=
  match autoUpdateInterval config with
  | Num minutes =>
      if 0 <? minutes
      then armed t = [minutes * 60 * 1000] /\
           pending st' = pending st ++ [(next_id st, minutes * 60 * 1000)]
      else armed t = [] /\ pending st' = pending st
  | NaN => armed t = [] /\ pending st' = pending st
  end.

(* ===================================================================== *)
(** ** Sample worlds and settings *)
(* ===================================================================== *)

(** A world in which every call succeeds: the data directory holds one
    file, the repository is valid and current, downloads answer 200. *)
Definition calm : World := {|
  w_ensureDir := fun _ _ => Ok tt;
  w_emptyDir := fun _ _ => Ok tt;
  w_existsSync := fun _ _ => true;
  w_readdir := fun _ _ => Ok ["README.md"];
  w_httpGet := fun _ _ => Responded 200;
  w_extract := fun _ _ => Ok tt;
  w_clone := fun _ _ _ _ => Ok tt;
  w_checkIsRepo := fun _ => Ok true;
  w_fetch := fun _ => Ok tt;
  w_status := fun _ => Ok 0;
  w_pull := fun _ _ => Ok tt;
  w_glob := fun _ _ _ => Ok ["a.md"; "guide/b.md"];
  w_globAbsolute := fun _ _ => Ok [];
  w_copy := fun _ _ _ => Ok tt;
  w_stat := fun _ _ => Ok 10;
  w_remove := fun _ _ => Ok tt;
  w_writeFile := fun _ _ => Ok tt;
  w_chmod := fun _ _ => Ok tt;
  w_search := fun _ _ _ => Ok "results";
  w_connect := fun _ => Ok tt
|}.

(** [calm] with some answers replaced. *)
Definition with_httpGet (f : nat -> string -> http) (w : World) : World := {|
  w_ensureDir := w_ensureDir w; w_emptyDir := w_emptyDir w;
  w_existsSync := w_existsSync w; w_readdir := w_readdir w;
  w_httpGet := f;
  w_extract := w_extract w; w_clone := w_clone w;
  w_checkIsRepo := w_checkIsRepo w; w_fetch := w_fetch w;
  w_status := w_status w; w_pull := w_pull w; w_glob := w_glob w;
  w_globAbsolute := w_globAbsolute w; w_copy := w_copy w;
  w_stat := w_stat w; w_remove := w_remove w;
  w_writeFile := w_writeFile w; w_chmod := w_chmod w;
  w_search := w_search w; w_connect := w_connect w
|}.

Definition with_fetch (f : nat -> io unit) (w : World) : World := {|
  w_ensureDir := w_ensureDir w; w_emptyDir := w_emptyDir w;
  w_existsSync := w_existsSync w; w_readdir := w_readdir w;
  w_httpGet := w_httpGet w;
  w_extract := w_extract w; w_clone := w_clone w;
  w_checkIsRepo := w_checkIsRepo w; w_fetch := f;
  w_status := w_status w; w_pull := w_pull w; w_glob := w_glob w;
  w_globAbsolute := w_globAbsolute w; w_copy := w_copy w;
  w_stat := w_stat w; w_remove := w_remove w;
  w_writeFile := w_writeFile w; w_chmod := w_chmod w;
  w_search := w_search w; w_connect := w_connect w
|}.


Definition with_readdir (f : nat -> jsval -> io (list string)) (w : World)
  : World := {|
  w_ensureDir := w_ensureDir w; w_emptyDir := w_emptyDir w;
  w_existsSync := w_existsSync w; w_readdir := f;
  w_httpGet := w_httpGet w;
  w_extract := w_extract w; w_clone := w_clone w;
  w_checkIsRepo := w_checkIsRepo w; w_fetch := w_fetch w;
  w_status := w_status w; w_pull := w_pull w; w_glob := w_glob w;
  w_globAbsolute := w_globAbsolute w; w_copy := w_copy w;
  w_stat := w_stat w; w_remove := w_remove w;
  w_writeFile := w_writeFile w; w_chmod := w_chmod w;
  w_search := w_search w; w_connect := w_connect w
|}.

(** Settings for a repository on GitHub, checked every [n] minutes. *)
Definition repoConfig (interval : jsnum) : Config := {|
  includeDir := VNull;
  gitUrl := VStr "https://github.com/acme/docs";
  gitRef := VStr "main";
  autoUpdateInterval := interval;
  dataDir := VStr "/srv/data";
  toolName := VStr "search_docs";
  toolDescription := VStr "Search documentation using the probe search engine.";
  ignorePatterns := Some ["node_modules"; ".git"; "dist"; "build"; "coverage"];
  enableBuildCleanup := VBool true
|}.

(** Settings for a local directory. *)
Definition localConfig : Config := {|
  includeDir := VStr "/tmp/mydocs";
  gitUrl := VNull;
  gitRef := VStr "main";
  autoUpdateInterval := Num 0;
  dataDir := VStr "/srv/data";
  toolName := VStr "search_docs";
  toolDescription := VStr "Search documentation using the probe search engine.";
  ignorePatterns := Some ["*.log"];
  enableBuildCleanup := VBool true
|}.

Definition noArgs : Args :=
  mkArgs VUndef VUndef VUndef VUndef VUndef VUndef VUndef VUndef VUndef.

Definition noEnv : Env := mkEnv None None None None None None None.

(** A state in which the Git engine has been initialised. *)
Definition git_ready : state := mkState true None [] 0 0.

(** POSIX-looking stand-ins for [path.isAbsolute], [path.resolve],
    [path.join] and [path.dirname], for the sample runs. *)
Definition sample_isAbsolute (p : string) : bool :=
  match p with
  | String "/" _ => true
  | _ => false
  end.

Definition sample_resolve (base p : string) : string :=
  (base ++ "/" ++ p)%string.

Definition sample_join (dir file : string) : string :=
  (dir ++ "/" ++ file)%string.

Definition sample_dirname (p : string) : string := p.

Definition noFile : FileConfig :=
  mkFileConfig None None None None None None None None None.

(** A configuration file that names a repository, and a command line that
    names a local directory. *)
Definition repoFile : FileState :=
  FileParsed (mkFileConfig None (Some (VStr "https://github.com/acme/docs"))
                None None None None None None None).

Definition includeDirArgs : Args :=
  mkArgs VUndef (VStr "/docs") VUndef VUndef VUndef VUndef VUndef VUndef VUndef.

(** [main] answers 404, every other ref answers 200. *)
Definition main_is_missing : World :=
  with_httpGet
    (fun _ url =>
       if String.eqb url "https://github.com/acme/docs/archive/main.tar.gz"
       then Responded 404 else Responded 200)
    calm.

(** Neither [main] nor [master] can be downloaded. *)
Definition archive_is_down : World :=
  with_httpGet (fun _ _ => Responded 404) calm.


(* ===================================================================== *)
(** ** Further observations *)
(* ===================================================================== *)

(** Files handed to [fs.stat] and to [fs.remove], in order. *)
Definition stats (t : trace) : list string :=
  flat_map (fun e => match e with Stat f => [f] | _ => [] end) t.

Definition removals (t : trace) : list string :=
  flat_map (fun e => match e with Remove f => [f] | _ => [] end) t.

(** Files the cleanup warned about, and the counts it reported. *)
Definition cleanup_warnings (t : trace) : list string :=
  flat_map (fun e => match e with
                     | Console (CouldNotProcess f) => [f]
                     | _ => []
                     end) t.

Definition cleanup_reports (t : trace) : list nat :=
  flat_map (fun e => match e with
                     | Console (CleanupComplete n) => [n]
                     | _ => []
                     end) t.

(** The test of line 213 of build.js on a file and its size. *)
Definition removable (path_extname : string -> string) (file : string)
    (size : Z) : bool :=
  Build.has Build.forbiddenExtensions (Build.toLowerCase (path_extname file))
  || (Build.maxSize <? size).

(** External operations of a trace: everything but console lines. *)
Definition operations (t : trace) : trace :=
  filter (fun e => match e with Console _ => false | _ => true end) t.

(** A stand-in for [path.extname]: the text from the last dot on. *)
Fixpoint sample_extname (p : string) : string :=
  match p with
  | EmptyString => EmptyString
  | String c rest =>
      match sample_extname rest with
      | EmptyString => if Ascii.eqb c "." then p else EmptyString
      | ext => ext
      end
  end.

(** A data directory of four files: one of exactly 100 KiB, an image with
    an upper-case extension, one a byte over the limit, one that vanished. *)
Definition four_files : World := {|
  w_ensureDir := fun _ _ => Ok tt;
  w_emptyDir := fun _ _ => Ok tt;
  w_existsSync := fun _ _ => true;
  w_readdir := fun _ _ => Ok ["a.md"];
  w_httpGet := fun _ _ => Responded 200;
  w_extract := fun _ _ => Ok tt;
  w_clone := fun _ _ _ _ => Ok tt;
  w_checkIsRepo := fun _ => Ok true;
  w_fetch := fun _ => Ok tt;
  w_status := fun _ => Ok 0;
  w_pull := fun _ _ => Ok tt;
  w_glob := fun _ _ _ => Ok [];
  w_globAbsolute := fun _ _ =>
    Ok ["/srv/data/a.md"; "/srv/data/logo.PNG"; "/srv/data/big.md";
        "/srv/data/gone.txt"];
  w_copy := fun _ _ _ => Ok tt;
  w_stat := fun _ file =>
    if String.eqb file "/srv/data/a.md" then Ok 102400
    else if String.eqb file "/srv/data/logo.PNG" then Ok 10
    else if String.eqb file "/srv/data/big.md" then Ok 102401
    else Failed "ENOENT" "no such file or directory";
  w_remove := fun _ _ => Ok tt;
  w_writeFile := fun _ _ => Ok tt;
  w_chmod := fun _ _ => Ok tt;
  w_search := fun _ _ _ => Ok "results";
  w_connect := fun _ => Ok tt
|}.

(** A computation whose events all satisfy [P], from whatever state. *)
Definition confined {A} (P : event -> bool) (m : M A) : Prop :=
  forall st, forallb P (trace_of (m st)) = true.

(** A computation that never ends the process. *)
Definition no_exit {A} (m : M A) : Prop :=
  forall st c, outcome_of (m st) <> Exit c.

(** A computation that ends the process with status [code] only. *)
Definition exits_only {A} (code : Z) (m : M A) : Prop :=
  forall st c, outcome_of (m st) = Exit c -> c = code.

(** From a state that satisfies [P] the computation ends, however it ends,
    in a state that satisfies [Q]. *)
Definition leads {A} (P Q : state -> Prop) (m : M A) : Prop :=
  forall st, P st -> Q (state_of (m st)).

(** The two lines that end a build. *)
Definition is_verdict (e : event) : bool :=
  match e with
  | Console BuildSucceeded | Console BuildFailed => true
  | _ => false
  end.

Definition build_failed : trace -> bool :=
  has_event (fun e => match e with Console BuildFailed => true | _ => false end).

(** The three ways of filling the data directory. *)
Definition clone_event (e : event) : bool :=
  match e with Clone _ _ _ => true | _ => false end.

Definition archive_event (e : event) : bool :=
  match e with HttpGet _ | Extract _ => true | _ => false end.

Definition copy_event (e : event) : bool :=
  match e with Glob _ _ | Copy _ _ => true | _ => false end.

(** No event of the trace satisfies [p]. *)
Definition free_of (p : event -> bool) (t : trace) : Prop :=
  has_event p t = false.

Definition clear_event (e : event) : bool :=
  match e with EmptyDir _ => true | _ => false end.

(** A world in which the data directory cannot be emptied. *)
Definition cannot_empty : World := {|
  w_ensureDir := fun _ _ => Ok tt;
  w_emptyDir := fun _ _ => Failed "EACCES" "permission denied";
  w_existsSync := fun _ _ => true;
  w_readdir := fun _ _ => Ok ["README.md"];
  w_httpGet := fun _ _ => Responded 200;
  w_extract := fun _ _ => Ok tt;
  w_clone := fun _ _ _ _ => Ok tt;
  w_checkIsRepo := fun _ => Ok true;
  w_fetch := fun _ => Ok tt;
  w_status := fun _ => Ok 0;
  w_pull := fun _ _ => Ok tt;
  w_glob := fun _ _ _ => Ok ["a.md"; "guide/b.md"];
  w_globAbsolute := fun _ _ => Ok [];
  w_copy := fun _ _ _ => Ok tt;
  w_stat := fun _ _ => Ok 10;
  w_remove := fun _ _ => Ok tt;
  w_writeFile := fun _ _ => Ok tt;
  w_chmod := fun _ _ => Ok tt;
  w_search := fun _ _ _ => Ok "results";
  w_connect := fun _ => Ok tt
|}.

(** What copying [files] from [source] to [target] asks of the file
    system, in order: for each file the directory of its target, then the
    copy itself (lines 88-97 of build.js). *)
Definition copy_plan (path_join : string -> string -> string)
    (path_dirname : string -> string) (source target : string)
    (files : list string) : trace :=
  flat_map (fun file =>
              [EnsureDir (VStr (path_dirname (path_join target file)));
               Copy (path_join source file) (path_join target file)])
           files.

Definition write_event (e : event) : bool :=
  match e with WriteFile _ => true | _ => false end.

(** A world without a configuration file at the root of the package. *)
Definition fresh_checkout : World := {|
  w_ensureDir := fun _ _ => Ok tt;
  w_emptyDir := fun _ _ => Ok tt;
  w_existsSync := fun _ _ => false;
  w_readdir := fun _ _ => Ok [];
  w_httpGet := fun _ _ => Responded 200;
  w_extract := fun _ _ => Ok tt;
  w_clone := fun _ _ _ _ => Ok tt;
  w_checkIsRepo := fun _ => Ok false;
  w_fetch := fun _ => Ok tt;
  w_status := fun _ => Ok 0;
  w_pull := fun _ _ => Ok tt;
  w_glob := fun _ _ _ => Ok [];
  w_globAbsolute := fun _ _ => Ok [];
  w_copy := fun _ _ _ => Ok tt;
  w_stat := fun _ _ => Ok 10;
  w_remove := fun _ _ => Ok tt;
  w_writeFile := fun _ _ => Failed "EROFS" "read-only file system";
  w_chmod := fun _ _ => Ok tt;
  w_search := fun _ _ _ => Ok "results";
  w_connect := fun _ => Ok tt
|}.

Definition cleanup_event (e : event) : bool :=
  match e with
  | GlobAbsolute _ | Stat _ | Remove _ => true
  | _ => false
  end.

(** Settings for a local directory, with the cleanup switched off. *)
Definition keepAllConfig : Config :=
  set_enableBuildCleanup (VBool false) localConfig.

(** [needle] occurs somewhere in [s]. *)
Fixpoint mentions (needle s : string) : bool :=
  match GitHub.strip_prefix needle s with
  | Some _ => true
  | None =>
      match s with
      | EmptyString => false
      | String _ rest => mentions needle rest
      end
  end.

(** [s] ends with [suffix]. *)
Fixpoint ends_with (suffix s : string) : bool :=
  String.eqb s suffix
  || match s with
     | EmptyString => false
     | String _ rest => ends_with suffix rest
     end.

(** Settings that name the repository by its SSH address. *)
Definition sshConfig : Config := {|
  includeDir := VNull;
  gitUrl := VStr "git@github.com:acme/docs.git";
  gitRef := VStr "main";
  autoUpdateInterval := Num 0;
  dataDir := VStr "/srv/data";
  toolName := VStr "search_docs";
  toolDescription := VStr "Search documentation using the probe search engine.";
  ignorePatterns := Some ["node_modules"; ".git"; "dist"; "build"; "coverage"];
  enableBuildCleanup := VBool true
|}.

Definition extract_event (e : event) : bool :=
  match e with Extract _ => true | _ => false end.

Definition request_event (e : event) : bool :=
  match e with HttpGet _ => true | _ => false end.

(** The status is one that axios accepts under the [validateStatus] of the
    download: 200 to 299. *)
Definition accepted (answer : http) : bool :=
  match answer with
  | Responded status => (200 <=? status) && (status <? 300)
  | NoResponse _ => false
  end.

(** The archive host answers "300 Multiple Choices". *)
Definition archive_redirects : World :=
  with_httpGet (fun _ _ => Responded 300) calm.

(** The searches run, in order: the directory searched and the query. *)
Definition searches (t : trace) : list (jsval * jsval) :=
  flat_map (fun e => match e with Search d q => [(d, q)] | _ => [] end) t.

(** The module-level variables and the timers of two states agree. *)
Definition same_timers (st st' : state) : Prop :=
  git st' = git st /\ updateTimer st' = updateTimer st /\
  pending st' = pending st /\ next_id st' = next_id st.

(** No timer is pending. *)
Definition no_timer (st : state) : Prop := pending st = [].

(** At most one timer is pending, and [updateTimer] holds its handle. *)
Definition one_timer (st : state) : Prop :=
  pending st = [] \/
  exists id ms, pending st = [(id, ms)] /\ updateTimer st = Some id.

Definition connect_event (e : event) : bool :=
  match e with Connect => true | _ => false end.

Definition running_line (e : event) : bool :=
  match e with Console ServerRunning => true | _ => false end.

(** A call for the configured tool with a query and a path of its own. *)
Definition install_query : Server.request :=
  Server.mkRequest (VStr "search_docs")
    (VObj [("query", VStr "install"); ("path", VStr "/etc")]).

(** A call for a tool the server does not offer. *)
Definition other_tool : Server.request :=
  Server.mkRequest (VStr "read_file") (VObj [("path", VStr "/etc/passwd")]).

(** The reply is a protocol error "method not found". *)
Definition is_method_not_found (r : Server.reply) : bool :=
  match r with
  | Server.ProtocolError (McpError code _) => code =? Server.MethodNotFound
  | _ => false
  end.

Definition timer_event (e : event) : bool :=
  match e with SetTimeout _ _ => true | _ => false end.

Definition git_event (e : event) : bool :=
  match e with
  | CheckIsRepo | Fetch | Status | Pull _ | Clone _ _ _ => true
  | _ => false
  end.

(** A command line that names a data directory. *)
Definition dataDirArgs : Args :=
  mkArgs VUndef VUndef VUndef VUndef VUndef (VStr "/srv/data") VUndef VUndef
    VUndef.

(** The same query with the options a client may add. *)
Definition paged_query : Server.request :=
  Server.mkRequest (VStr "search_docs")
    (VObj [("page", VNum 3); ("maxResults", VNum 1);
           ("query", VStr "install")]).

(** An environment that names a repository and an interval. *)
Definition intervalEnv : Env :=
  mkEnv None (Some "https://github.com/acme/docs") None (Some "15")
    None None None.

(** A command line whose data directory minimist reads as a number. *)
Definition numericDataDirArgs : Args :=
  mkArgs VUndef VUndef VUndef VUndef VUndef (VNum 2024) VUndef VUndef VUndef.

Definition is_string (v : jsval) : bool :=
  match v with VStr _ => true | _ => false end.

(** An absolute path, as text. *)
Definition absolute_path (path_isAbsolute : string -> bool) (v : jsval)
  : bool :=
  match v with VStr s => path_isAbsolute s | _ => false end.

(** A stand-in for [path.resolve] that always answers an absolute path: a
    relative base is taken from the root. *)
Definition rooted_resolve (base p : string) : string :=
  if sample_isAbsolute base then (base ++ "/" ++ p)%string
  else String "/" (base ++ "/" ++ p).

(* ===================================================================== *)
(** ** The configuration resolver *)
(* ===================================================================== *)

Lemma variable_sets (o : option string) (old : jsval) :
  (if truthy (env_val o) then env_val o else old)
  = match Precedence.variable o with Some v => v | None => old end.
Proof.
  destruct o as [s|]; cbn; [destruct (String.eqb s "")|]; reflexivity.
Qed.

Lemma flag_sets (v old : jsval) :
  (if truthy v then v else old)
  = match Precedence.flag v with Some x => x | None => old end.
Proof. unfold Precedence.flag. destruct (truthy v); reflexivity. Qed.

Section Resolver.

Variable path_isAbsolute : string -> bool.
Variable path_resolve : string -> string -> string.
Variable defaultConfigPath : string.
Variable defaultDataDir : string.
Variable args : Args.
Variable env : Env.
Variable cwd : string.
Variable readConfig : jsval -> FileState.

(** The environment layer, field by field. *)
Lemma envLayer_fields (c : Config) :
  envLayer env c = {|
    includeDir := if truthy (env_val (INCLUDE_DIR env))
                  then env_val (INCLUDE_DIR env) else includeDir c;
    gitUrl := if truthy (env_val (GIT_URL env))
              then env_val (GIT_URL env) else gitUrl c;
    gitRef := if truthy (env_val (GIT_REF env))
              then env_val (GIT_REF env) else gitRef c;
    autoUpdateInterval :=
      if truthy (env_val (AUTO_UPDATE_INTERVAL env))
      then parseInt (env_val (AUTO_UPDATE_INTERVAL env))
      else autoUpdateInterval c;
    dataDir := if truthy (env_val (DATA_DIR env))
               then env_val (DATA_DIR env) else dataDir c;
    toolName := if truthy (env_val (TOOL_NAME env))
                then env_val (TOOL_NAME env) else toolName c;
    toolDescription := if truthy (env_val (TOOL_DESCRIPTION env))
                       then env_val (TOOL_DESCRIPTION env)
                       else toolDescription c;
    ignorePatterns := ignorePatterns c;
    enableBuildCleanup := enableBuildCleanup c
  |}.
Proof.
  unfold envLayer. destruct c.
  destruct (truthy (env_val (INCLUDE_DIR env))),
    (truthy (env_val (GIT_URL env))), (truthy (env_val (GIT_REF env))),
    (truthy (env_val (AUTO_UPDATE_INTERVAL env))),
    (truthy (env_val (DATA_DIR env))), (truthy (env_val (TOOL_NAME env))),
    (truthy (env_val (TOOL_DESCRIPTION env)));
    reflexivity.
Qed.

(** The command-line layer, field by field. *)
Lemma argsLayer_fields (c : Config) :
  argsLayer args c = {|
    includeDir := if truthy (a_includeDir args)
                  then a_includeDir args else includeDir c;
    gitUrl := if truthy (a_gitUrl args) then a_gitUrl args else gitUrl c;
    gitRef := if truthy (a_gitRef args) then a_gitRef args else gitRef c;
    autoUpdateInterval :=
      if negb (is_undefined (a_autoUpdateInterval args))
      then parseInt (a_autoUpdateInterval args)
      else autoUpdateInterval c;
    dataDir := if truthy (a_dataDir args) then a_dataDir args else dataDir c;
    toolName := if truthy (a_toolName args)
                then a_toolName args else toolName c;
    toolDescription := if truthy (a_toolDescription args)
                       then a_toolDescription args else toolDescription c;
    ignorePatterns := ignorePatterns c;
    enableBuildCleanup :=
      if negb (is_undefined (a_enableBuildCleanup args))
      then Precedence.is_true (a_enableBuildCleanup args)
      else enableBuildCleanup c
  |}.
Proof.
  unfold argsLayer. destruct c.
  destruct (truthy (a_includeDir args)), (truthy (a_gitUrl args)),
    (truthy (a_gitRef args)),
    (negb (is_undefined (a_autoUpdateInterval args))),
    (truthy (a_dataDir args)), (truthy (a_toolName args)),
    (truthy (a_toolDescription args)),
    (negb (is_undefined (a_enableBuildCleanup args)));
    reflexivity.
Qed.

(** The three overriding layers follow the precedence rule field by
    field. *)
Lemma merged_by_precedence :
  merged defaultConfigPath defaultDataDir args env readConfig
  = Precedence.by_precedence defaultDataDir args env
      (readConfig (configPath defaultConfigPath args)).
Proof.
  unfold merged. rewrite argsLayer_fields, envLayer_fields.
  unfold Precedence.by_precedence.
  f_equal; rewrite ?variable_sets, ?flag_sets;
    unfold fileLayer, Precedence.highest;
    destruct (readConfig (configPath defaultConfigPath args)) as [| |f];
    cbn [fst spread defaultConfig over includeDir gitUrl gitRef
         autoUpdateInterval dataDir toolName toolDescription ignorePatterns
         enableBuildCleanup Precedence.key];
    unfold over;
    try match goal with
        | |- context [is_undefined ?a] =>
            destruct a; cbn [negb is_undefined option_map Precedence.given]
        end;
    try match goal with
        | |- context [option_map parseInt (Precedence.variable ?o)] =>
            let text := fresh "text" in
            destruct o as [text|];
            cbn [truthy env_val negb option_map Precedence.variable];
            try destruct (String.eqb text "");
            cbn [negb option_map]
        end;
    repeat match goal with
           | |- context [match ?o with Some _ => _ | None => _ end] =>
               destruct o
           end; reflexivity.
Qed.


(** Lines 88-96 on settings whose paths are strings. *)
Lemma absolutePaths_strings (m : Config) (d : string) :
  dataDir m = VStr d ->
  (truthy (includeDir m) = true -> exists i, includeDir m = VStr i) ->
  absolutePaths path_isAbsolute path_resolve cwd m
  = Return (set_includeDir
              (if truthy (includeDir m)
               then absolute path_isAbsolute path_resolve cwd (includeDir m)
               else includeDir m)
              (set_dataDir
                 (absolute path_isAbsolute path_resolve cwd (dataDir m)) m)).
Proof.
  intros Hd Hinc.
  destruct m as [i u r n dd tn td ip cl]. cbn in Hd, Hinc. subst dd.
  unfold absolutePaths, isAbsolute, resolve, absolute.
  cbn [dataDir includeDir set_dataDir set_includeDir gitUrl gitRef
       autoUpdateInterval toolName toolDescription ignorePatterns
       enableBuildCleanup].
  destruct (truthy i) eqn:Ti.
  - destruct (Hinc eq_refl) as [s ->].
    cbn in Ti.
    destruct (path_isAbsolute d); cbn; rewrite Ti;
      destruct (path_isAbsolute s); reflexivity.
  - destruct (path_isAbsolute d); cbn [negb];
      cbn [dataDir includeDir set_dataDir set_includeDir gitUrl gitRef
           autoUpdateInterval toolName toolDescription ignorePatterns
           enableBuildCleanup];
      rewrite ?Ti; reflexivity.
Qed.

(** What [loadConfig] returns on settings whose paths are strings. *)
Lemma loadConfig_resolved (m : Config) (d : string) :
  merged defaultConfigPath defaultDataDir args env readConfig = m ->
  dataDir m = VStr d ->
  (truthy (includeDir m) = true -> exists i, includeDir m = VStr i) ->
  let inc := if truthy (includeDir m)
             then absolute path_isAbsolute path_resolve cwd (includeDir m)
             else includeDir m in
  let conflict := truthy inc && truthy (gitUrl m) in
  exists out,
    loadConfig path_isAbsolute path_resolve defaultConfigPath defaultDataDir
      args env cwd readConfig
    = (Return {|
         includeDir := if conflict then VNull else inc;
         gitUrl := gitUrl m;
         gitRef := gitRef m;
         autoUpdateInterval := autoUpdateInterval m;
         dataDir := absolute path_isAbsolute path_resolve cwd (dataDir m);
         toolName := toolName m;
         toolDescription := toolDescription m;
         ignorePatterns := ignorePatterns m;
         enableBuildCleanup := enableBuildCleanup m
       |}, out) /\
    count_line is_conflict out = (if conflict then 1 else 0)%nat.
Proof.
  intros Hm Hd Hinc inc conflict.
  unfold loadConfig. rewrite Hm, (absolutePaths_strings m d Hd Hinc).
  fold inc. unfold validate.
  cbn [includeDir gitUrl set_dataDir set_includeDir].
  fold conflict.
  assert (Hfile : count_line is_conflict
                    (snd (fileLayer defaultConfigPath defaultDataDir args
                            readConfig)) = 0%nat).
  { unfold fileLayer.
    destruct (readConfig (configPath defaultConfigPath args)); reflexivity. }
  destruct conflict eqn:Hc.
  - eexists. split; [reflexivity|].
    unfold count_line in *. rewrite filter_app, length_app, Hfile.
    cbn [includeDir gitUrl set_includeDir set_dataDir truthy negb andb].
    destruct (negb (truthy (gitUrl m))); reflexivity.
  - cbn [includeDir gitUrl set_dataDir set_includeDir gitRef
         autoUpdateInterval dataDir toolName toolDescription ignorePatterns
         enableBuildCleanup].
    eexists. split; [reflexivity|].
    unfold count_line in *. rewrite filter_app, length_app, Hfile.
    destruct (negb (truthy inc) && negb (truthy (gitUrl m))); reflexivity.
Qed.

End Resolver.

(** C6 as stated fails: the command line names a local directory, the file
    names a repository; the command line is the highest layer that sets
    [includeDir], yet the resolved [includeDir] is null. *)
Lemma cli_includeDir_lost_to_file_gitUrl :
  exists config out,
    loadConfig sample_isAbsolute sample_resolve "/pkg/docs-mcp.config.json"
      "/pkg/data" includeDirArgs noEnv "/work" (fun _ => repoFile)
    = (Return config, out) /\
    includeDir (Precedence.by_precedence "/pkg/data" includeDirArgs noEnv repoFile)
    = VStr "/docs" /\
    includeDir config = VNull.
Proof. do 2 eexists. repeat split. Qed.

(** C6, amended.  After the three overriding layers every field holds the
    value of the highest-precedence layer that sets it, command line over
    environment over file over default, where a flag sets a field when its
    value is truthy (the interval and the cleanup switch: when it is given),
    a variable when it is a non-empty string, the file when it holds the
    key; the interval of a flag or variable goes through [parseInt], the
    cleanup flag is compared with [true].  The resolved settings then keep
    every field but two: [dataDir] is made absolute, and [includeDir] is
    made absolute when set and is null when a repository is set too. *)
Theorem settings_follow_precedence_then_normalise :
  forall (path_isAbsolute : string -> bool)
         (path_resolve : string -> string -> string)
         (defaultConfigPath defaultDataDir : string)
         (args : Args) (env : Env) (cwd : string)
         (readConfig : jsval -> FileState),
    let p := Precedence.by_precedence defaultDataDir args env
               (readConfig (configPath defaultConfigPath args)) in
    merged defaultConfigPath defaultDataDir args env readConfig = p /\
    (forall d,
        dataDir p = VStr d ->
        (truthy (includeDir p) = true -> exists i, includeDir p = VStr i) ->
        exists config out,
          loadConfig path_isAbsolute path_resolve defaultConfigPath
            defaultDataDir args env cwd readConfig
          = (Return config, out) /\
          gitUrl config = gitUrl p /\
          gitRef config = gitRef p /\
          autoUpdateInterval config = autoUpdateInterval p /\
          toolName config = toolName p /\
          toolDescription config = toolDescription p /\
          ignorePatterns config = ignorePatterns p /\
          enableBuildCleanup config = enableBuildCleanup p /\
          dataDir config
          = absolute path_isAbsolute path_resolve cwd (dataDir p) /\
          includeDir config
          = (let inc :=
               if truthy (includeDir p)
               then absolute path_isAbsolute path_resolve cwd (includeDir p)
               else includeDir p in
             if truthy inc && truthy (gitUrl p) then VNull else inc)).
Proof.
  intros pia pr dcp ddd args env cwd readConfig p.
  pose proof (merged_by_precedence dcp ddd args env readConfig) as Hm.
  fold p in Hm. split; [exact Hm|].
  intros d Hd Hinc.
  destruct (loadConfig_resolved pia pr dcp ddd args env cwd readConfig p d
              Hm Hd Hinc) as (out & Hload & _).
  eexists. exists out. split; [exact Hload|].
  cbn. repeat split.
Qed.

(** A run of the amended C6: three layers set [gitRef], the environment
    gives the repository and the interval, the file a relative data
    directory. *)
Lemma settings_follow_precedence_then_normalise_witness :
  let args := mkArgs VUndef VUndef VUndef (VStr "v2") VUndef VUndef VUndef
                VUndef VUndef in
  let env := mkEnv None (Some "https://github.com/acme/docs") (Some "v1")
               (Some "15") None None None in
  let file := FileParsed (mkFileConfig None None (Some (VStr "v0")) (Some (Num 5))
                            (Some (VStr "data")) None None None None) in
  exists config out,
    loadConfig sample_isAbsolute sample_resolve "/pkg/docs-mcp.config.json"
      "/pkg/data" args env "/work" (fun _ => file)
    = (Return config, out) /\
    gitUrl config = VStr "https://github.com/acme/docs" /\
    gitRef config = VStr "v2" /\
    autoUpdateInterval config = Num 15 /\
    dataDir config = VStr "/work/data" /\
    includeDir config = VNull.
Proof.
  intros args env file.
  destruct (settings_follow_precedence_then_normalise sample_isAbsolute
              sample_resolve "/pkg/docs-mcp.config.json" "/pkg/data" args env
              "/work" (fun _ => file)) as [_ H].
  destruct (H "data" eq_refl (fun F => False_ind _ (Bool.diff_false_true F)))
    as (config & out & Hload & Hu & Hr & Hn & _ & _ & _ & _ & Hd & Hi).
  exists config, out.
  split; [exact Hload|]. split; [exact Hu|]. split; [exact Hr|].
  split; [exact Hn|]. split; [exact Hd | exact Hi].
Defined.







(* ===================================================================== *)
(** ** The update cycle *)
(* ===================================================================== *)

Lemma armed_app t1 t2 : armed (t1 ++ t2) = armed t1 ++ armed t2.
Proof. apply flat_map_app. Qed.

Lemma cycles_app t1 t2 : (cycles (t1 ++ t2) = cycles t1 + cycles t2)%nat.
Proof. unfold cycles. now rewrite filter_app, length_app. Qed.

Section UpdateCycle.

Import Server.
Variable w : World.
Variable config : Config.
Hypothesis git_backed : truthy (gitUrl config) = true.

Ltac ask :=
  match goal with
  | |- context [match w_checkIsRepo ?w ?t with _ => _ end] =>
      destruct (w_checkIsRepo w t) as [[|]|? ?]
  | |- context [match w_fetch ?w ?t with _ => _ end] =>
      destruct (w_fetch w t) as [[]|? ?]
  | |- context [match w_status ?w ?t with _ => _ end] =>
      destruct (w_status w t) as [?|? ?]
  | |- context [match w_pull ?w ?t ?r with _ => _ end] =>
      destruct (w_pull w t r) as [[]|? ?]
  | |- context [if ?b then _ else _] => destruct b
  end.

Lemma checkForUpdates_cycle st :
  git st = true ->
  exists st' t,
    checkForUpdates w config st = (Return tt, st', t) /\
    git st' = true /\ cycles t = 1%nat /\ rearmed config st st' t.
Proof.
  intros Hgit.
  unfold checkForUpdates, getGit, bind at 1.
  rewrite git_backed, Hgit. cbn [negb orb].
  unfold rearmed, try_finally, try_catch, bind, call, log, ret,
    setUpdateTimer, gt0.
  cbn [clock tick git].
  destruct (autoUpdateInterval config) as [minutes|];
    [destruct (0 <? minutes)|];
    repeat ask; cbn; eauto 10.
Qed.

Lemma fireTimers_keep_going minutes (Hint : autoUpdateInterval config = Num minutes)
      (Hpos : 0 < minutes) n :
  forall st, git st = true -> List.length (pending st) = 1%nat ->
  exists st' t,
    fireTimers w config n st = (Return tt, st', t) /\
    git st' = true /\ List.length (pending st') = 1%nat /\
    cycles t = n /\ armed t = repeat (minutes * 60 * 1000) n.
Proof.
  induction n as [|n IH]; intros st Hgit Hone.
  - exists st, []. cbn. auto.
  - destruct (pending st) as [|[id ms] [|]] eqn:Hp; try discriminate.
    set (st0 := mkState (git st) (updateTimer st) [] (next_id st) (clock st)).
    destruct (checkForUpdates_cycle st0 Hgit) as (st1 & t1 & E1 & G1 & C1 & R1).
    unfold rearmed in R1. rewrite Hint in R1.
    apply Z.ltb_lt in Hpos. rewrite Hpos in R1. destruct R1 as [A1 P1].
    destruct (IH st1 G1) as (st2 & t2 & E2 & G2 & P2 & C2 & A2).
    { rewrite P1. reflexivity. }
    exists st2, (t1 ++ t2).
    cbn [fireTimers]. unfold bind, fireTimer. rewrite Hp.
    fold st0. rewrite E1, E2.
    rewrite cycles_app, armed_app, C1, A1, C2, A2. auto.
Qed.

End UpdateCycle.

(** C1.  On a Git-backed source (a repository URL is configured and the Git
    engine is initialised) a cycle of [checkForUpdates] always returns,
    whatever the repository check, fetch, status or pull answer.  With an
    interval of [minutes > 0] it arms exactly one timer, of
    [minutes * 60 * 1000] ms; with an interval of 0 it arms none.  From a
    state without timers, the first check followed by [n] timer firings runs
    [n + 1] cycles, each arming one timer, and leaves one timer armed: no
    failing check ends the loop. *)
Theorem checkForUpdates_rearms_once :
  forall (w : World) (config : Config) (st : state),
    truthy (gitUrl config) = true ->
    git st = true ->
    let r := Server.checkForUpdates w config st in
    outcome_of r = Return tt /\
    (forall minutes,
        autoUpdateInterval config = Num minutes -> 0 < minutes ->
        armed (trace_of r) = [minutes * 60 * 1000] /\
        pending (state_of r)
        = pending st ++ [(next_id st, minutes * 60 * 1000)]) /\
    (autoUpdateInterval config = Num 0 ->
     armed (trace_of r) = [] /\ pending (state_of r) = pending st) /\
    (forall minutes n,
        autoUpdateInterval config = Num minutes -> 0 < minutes ->
        pending st = [] ->
        let r' := (Server.checkForUpdates w config ;;
                   Server.fireTimers w config n)%js st in
        outcome_of r' = Return tt /\
        cycles (trace_of r') = S n /\
        armed (trace_of r') = repeat (minutes * 60 * 1000) (S n) /\
        List.length (pending (state_of r')) = 1%nat).
Proof.
  intros w config st Hurl Hgit r.
  destruct (checkForUpdates_cycle w config Hurl st Hgit)
    as (st1 & t1 & E1 & G1 & C1 & R1).
  subst r. rewrite E1. unfold outcome_of, trace_of, state_of. cbn [fst snd].
  unfold rearmed in R1.
  split; [reflexivity|]. split; [|split].
  - intros minutes Hint Hpos. rewrite Hint in R1.
    apply Z.ltb_lt in Hpos. now rewrite Hpos in R1.
  - intros Hint. now rewrite Hint in R1.
  - intros minutes n Hint Hpos Hnone. cbn zeta.
    rewrite Hint in R1. pose proof Hpos as Hpos'.
    apply Z.ltb_lt in Hpos'. rewrite Hpos' in R1. destruct R1 as [A1 P1].
    destruct (fireTimers_keep_going w config Hurl minutes Hint Hpos n st1 G1)
      as (st2 & t2 & E2 & G2 & P2 & C2 & A2).
    { rewrite P1, Hnone. reflexivity. }
    unfold bind. rewrite E1, E2. cbn [fst snd].
    rewrite cycles_app, armed_app, C1, A1, C2, A2. auto.
Qed.

(** A run of C1: every fetch fails, the interval is five minutes. *)
Lemma checkForUpdates_rearms_once_witness :
  let w := with_fetch (fun _ => Failed "ENETDOWN" "network is down") calm in
  let r := Server.checkForUpdates w (repoConfig (Num 5)) git_ready in
  outcome_of r = Return tt /\
  armed (trace_of r) = [300000] /\
  (let r' := (Server.checkForUpdates w (repoConfig (Num 5)) ;;
              Server.fireTimers w (repoConfig (Num 5)) 3)%js git_ready in
   cycles (trace_of r') = 4%nat /\
   armed (trace_of r') = [300000; 300000; 300000; 300000]).
Proof.
  intros w r.
  pose proof (checkForUpdates_rearms_once w (repoConfig (Num 5)) git_ready
                eq_refl eq_refl) as (H1 & H2 & _ & H4).
  split; [exact H1|]. split.
  - exact (proj1 (H2 5 eq_refl eq_refl)).
  - destruct (H4 5 3%nat eq_refl eq_refl eq_refl) as (_ & C & A & _).
    split; [exact C | exact A].
Defined.

(* ===================================================================== *)
(** ** Server start *)
(* ===================================================================== *)

(** C2.  At server start, when neither the command line nor the environment
    names a data directory, a repository or a local directory, and the data
    directory exists and lists at least one entry, the server detects the
    pre-built content, performs no download, extraction, clone, repository
    check, fetch, status or pull and does not empty the directory, arms no
    timer (the timer variable is null and nothing is pending), and goes on
    to connect the transport; it returns as soon as the connection succeeds. *)
Theorem prebuilt_content_skips_acquisition :
  forall (w : World) (config : Config) (args : Args) (env : Env),
    truthy (Server.runtimeOverride args env) = false ->
    (forall t, w_existsSync w t (dataDir config) = true) ->
    (forall t, exists item items,
        w_readdir w t (dataDir config) = Ok (item :: items)) ->
    let r := Server.run w config args env init_state in
    acquisitions (trace_of r) = [] /\
    armed (trace_of r) = [] /\
    updateTimer (state_of r) = None /\
    pending (state_of r) = [] /\
    In (Console UsingPrebuilt) (trace_of r) /\
    In Connect (trace_of r) /\
    ((forall t, w_connect w t = Ok tt) -> outcome_of r = Return tt).
Proof.
  intros w config args env Hov Hex Hrd r. subst r.
  unfold Server.run, Server.detectPrebuilt.
  rewrite Hov. cbn [negb].
  unfold try_catch, bind, log, ret, existsSync, call.
  destruct (truthy (gitUrl config)); [|destruct (truthy (includeDir config))];
    cbn [init_state clock tick];
    rewrite Hex;
    match goal with
    | |- context [w_readdir w ?t ?d] =>
        destruct (Hrd t) as (item & items & ->)
    end;
    cbn;
    match goal with
    | |- context [w_connect w ?t] =>
        destruct (w_connect w t) as [[]|? ?] eqn:Hc
    end;
    cbn; repeat split; auto 10;
    try (intros Hall; rewrite Hall in Hc; discriminate).
Qed.

(** A run of C2: a repository is configured with a five-minute interval,
    but the package already holds content. *)
Lemma prebuilt_content_skips_acquisition_witness :
  let r := Server.run calm (repoConfig (Num 5)) noArgs noEnv init_state in
  acquisitions (trace_of r) = [] /\
  armed (trace_of r) = [] /\
  updateTimer (state_of r) = None /\
  pending (state_of r) = [] /\
  outcome_of r = Return tt.
Proof.
  intros r.
  destruct (prebuilt_content_skips_acquisition calm (repoConfig (Num 5))
              noArgs noEnv eq_refl (fun _ => eq_refl)
              (fun _ => ex_intro _ "README.md"
                          (ex_intro _ [] eq_refl)))
    as (H1 & H2 & H3 & H4 & _ & _ & H7).
  split; [exact H1|]. split; [exact H2|]. split; [exact H3|].
  split; [exact H4|]. apply H7. reflexivity.
Defined.

(* ===================================================================== *)
(** ** The archive fetcher *)
(* ===================================================================== *)




(** Case analysis on the answers that server start inspects. *)
Ltac ask_start :=
  repeat (cbn -[GitHub.tarballUrl Z.leb Z.ltb Z.eqb strict_eq Js.or_else truthy
                GitHub.match_url];
          match goal with
          | |- context [match w_httpGet ?w ?t ?u with _ => _ end] =>
              destruct (w_httpGet w t u) eqn:?
          | |- context [match w_emptyDir ?w ?t ?d with _ => _ end] =>
              destruct (w_emptyDir w t d) as [[]|? ?] eqn:?
          | |- context [match w_extract ?w ?t ?d with _ => _ end] =>
              destruct (w_extract w t d) as [[]|? ?] eqn:?
          | |- context [match w_clone ?w ?t ?u ?d ?r with _ => _ end] =>
              destruct (w_clone w t u d r) as [[]|? ?] eqn:?
          | |- context [match w_readdir ?w ?t ?d with _ => _ end] =>
              destruct (w_readdir w t d) as [[|? ?]|? ?] eqn:?
          | |- context [match w_connect ?w ?t with _ => _ end] =>
              destruct (w_connect w t) as [[]|? ?] eqn:?
          | |- context [if w_existsSync ?w ?t ?d then _ else _] =>
              destruct (w_existsSync w t d) eqn:?
          | |- context [match GitHub.match_url ?u with _ => _ end] =>
              destruct (GitHub.match_url u) as [[? ?]|] eqn:?
          | |- context [if (200 <=? ?s) && (?s <? 300) then _ else _] =>
              destruct ((200 <=? s) && (s <? 300)) eqn:?
          | |- context [if strict_eq ?a ?b && _ then _ else _] =>
              destruct (strict_eq a b) eqn:?
          | |- context [if ?s =? 404 then _ else _] =>
              destruct (s =? 404) eqn:?
          | |- context [if truthy ?v then _ else _] =>
              destruct (truthy v) eqn:?
          | |- context [if negb (truthy ?v) then _ else _] =>
              destruct (truthy v) eqn:?
          end);
  cbn -[GitHub.tarballUrl Z.leb Z.ltb Z.eqb strict_eq Js.or_else truthy
        GitHub.match_url].

(** C4.  At server start, with a repository configured and no auto-update,
    when pre-built content is not used and no download attempt runs to its
    end (whatever the reason: the URL, the network, the status, the
    extraction, the retry), the process exits with status 1 without
    starting a clone and without connecting the transport.  At build time,
    whenever no download attempt runs to its end, exactly one shallow clone
    of the configured repository and ref is started, and the archive path
    returns normally exactly when that clone succeeds. *)
Theorem archive_failure_exit_or_clone :
  forall (w : World) (config : Config) (args : Args) (env : Env)
         (url : string) (st : state),
    gitUrl config = VStr url ->
    url <> "" ->
    gt0 (autoUpdateInterval config) = false ->
    let r := Server.run w config args env init_state in
    let b := Build.downloadAndExtractTarball w config st in
    (used_prebuilt (trace_of r) = false ->
     archive_succeeded (trace_of r) = false ->
     outcome_of r = Exit 1 /\
     clones (trace_of r) = [] /\
     connected (trace_of r) = false) /\
    (archive_succeeded (trace_of b) = false ->
     clones (trace_of b)
     = [Clone (gitUrl config) (dataDir config) (gitRef config)] /\
     (outcome_of b = Return tt <-> clone_succeeded (trace_of b) = true)).
Proof.
  intros w config args env url st Hurl Hne Hint r b. subst r b.
  assert (Htruthy : truthy (VStr url) = true).
  { cbn. destruct (String.eqb_spec url "") as [E|E];
      [contradiction | reflexivity]. }
  split.
  - unfold Server.run, Server.detectPrebuilt, Server.initContent,
      Server.downloadAndExtractTarballRuntime, Server.downloadAttempt,
      Server.clearUpdateTimer.
    rewrite Hint, Hurl, Htruthy.
    unfold try_catch, bind, log, ret, throw, exit, existsSync, httpGet,
      extract, emptyDir, call, outcome_of, trace_of.
    ask_start; intros; try discriminate; auto.
  - unfold Build.downloadAndExtractTarball, Build.downloadAttempt,
      Build.fallbackToClone, Build.cloneGitRepo, Build.dataDir.
    rewrite Hurl.
    unfold try_catch, bind, log, ret, throw, httpGet, extract, clone, call,
      outcome_of, trace_of.
    ask_start; intros; try discriminate; split; auto;
      split; intros; try discriminate; auto.
Qed.

(** A run of C4: neither [main] nor [master] can be downloaded. *)
Lemma archive_failure_exit_or_clone_witness :
  let args := mkArgs VUndef VUndef (VStr "https://github.com/acme/docs")
                VUndef VUndef VUndef VUndef VUndef VUndef in
  let r := Server.run archive_is_down (repoConfig (Num 0)) args noEnv
             init_state in
  let b := Build.downloadAndExtractTarball archive_is_down (repoConfig (Num 0))
             init_state in
  (outcome_of r = Exit 1 /\
   clones (trace_of r) = [] /\
   connected (trace_of r) = false) /\
  (clones (trace_of b)
   = [Clone (VStr "https://github.com/acme/docs") (VStr "/srv/data")
        (VStr "main")] /\
   outcome_of b = Return tt).
Proof.
  intros args r b.
  destruct (archive_failure_exit_or_clone archive_is_down (repoConfig (Num 0))
              args noEnv "https://github.com/acme/docs" init_state eq_refl
              ltac:(discriminate) eq_refl) as [Hr Hb].
  split.
  - exact (Hr eq_refl eq_refl).
  - destruct (Hb eq_refl) as [Hc Hiff].
    split; [exact Hc | exact (proj2 Hiff eq_refl)].
Defined.

(** C5 as stated fails at build time: when [main] answers 404, the request
    for [master] follows the request for [main] with no clear in between. *)
Lemma build_retry_is_not_preceded_by_a_clear :
  let t := trace_of (Build.prepareDataDir main_is_missing (repoConfig (Num 0))
                       (fun d f => (d ++ "/" ++ f)%string) (fun p => p)
                       init_state) in
  filter (fun e => match e with Console _ => false | _ => true end) t
  = [EnsureDir (VStr "/srv/data");
     EmptyDir (VStr "/srv/data");
     HttpGet "https://github.com/acme/docs/archive/main.tar.gz";
     HttpGet "https://github.com/acme/docs/archive/master.tar.gz";
     Extract (VStr "/srv/data")] /\
  cleared_right_before false t = false.
Proof. split; reflexivity. Qed.

(** C5, amended.  When the archive path is taken (a repository is
    configured, no auto-update): at server start every download attempt,
    the retry included, empties the data directory right before its
    request; at build time the data directory is emptied once, by
    [prepareDataDir], and between that clear and any request nothing but
    requests happens, so nothing was extracted, cloned or copied into it. *)
Theorem archive_attempts_start_from_a_cleared_directory :
  forall (w : World) (config : Config)
         (path_join : string -> string -> string)
         (path_dirname : string -> string) (st : state),
    truthy (gitUrl config) = true ->
    gt0 (autoUpdateInterval config) = false ->
    let s := Server.downloadAndExtractTarballRuntime w config st in
    let b := Build.prepareDataDir w config path_join path_dirname st in
    cleared_right_before false (trace_of s) = true /\
    Forall (eq (dataDir config)) (clears (trace_of s)) /\
    cleared_and_untouched false (trace_of b) = true /\
    (clears (trace_of b) = [dataDir config] \/ clears (trace_of b) = []).
Proof.
  intros w config pj pd st Hurl Hint s b. subst s b.
  unfold Build.prepareDataDir, Build.downloadAndExtractTarball,
    Build.downloadAttempt, Build.fallbackToClone, Build.cloneGitRepo,
    Build.dataDir, Server.downloadAndExtractTarballRuntime,
    Server.downloadAttempt.
  rewrite Hurl, Hint.
  unfold try_catch, bind, log, ret, throw, httpGet, extract, emptyDir,
    ensureDir, clone, call, trace_of.
  destruct (gitUrl config) as [| | | | |url| |]; try discriminate;
    (split; [|split; [|split]]);
    repeat (cbn -[GitHub.tarballUrl Z.leb Z.ltb Z.eqb strict_eq Js.or_else
                  GitHub.match_url];
            match goal with
            | |- context [match w_httpGet ?w ?t ?u with _ => _ end] =>
                destruct (w_httpGet w t u)
            | |- context [match w_emptyDir ?w ?t ?d with _ => _ end] =>
                destruct (w_emptyDir w t d) as [[]|? ?]
            | |- context [match w_ensureDir ?w ?t ?d with _ => _ end] =>
                destruct (w_ensureDir w t d) as [[]|? ?]
            | |- context [match w_extract ?w ?t ?d with _ => _ end] =>
                destruct (w_extract w t d) as [[]|? ?]
            | |- context [match w_clone ?w ?t ?u ?d ?r with _ => _ end] =>
                destruct (w_clone w t u d r) as [[]|? ?]
            | |- context [match GitHub.match_url ?u with _ => _ end] =>
                destruct (GitHub.match_url u) as [[? ?]|]
            | |- context [if (200 <=? ?s) && (?s <? 300) then _ else _] =>
                destruct ((200 <=? s) && (s <? 300))
            | |- context [if strict_eq ?a ?b && _ then _ else _] =>
                destruct (strict_eq a b)
            | |- context [if ?s =? 404 then _ else _] =>
                destruct (s =? 404)
            end);
    cbn -[GitHub.tarballUrl Js.or_else]; auto.
Qed.

(** A run of the amended C5: [main] answers 404. *)
Lemma archive_attempts_start_from_a_cleared_directory_witness :
  let s := Server.downloadAndExtractTarballRuntime main_is_missing
             (repoConfig (Num 0)) init_state in
  let b := Build.prepareDataDir main_is_missing (repoConfig (Num 0))
             (fun d f => (d ++ "/" ++ f)%string) (fun p => p) init_state in
  cleared_right_before false (trace_of s) = true /\
  clears (trace_of s) = [VStr "/srv/data"; VStr "/srv/data"] /\
  cleared_and_untouched false (trace_of b) = true /\
  clears (trace_of b) = [VStr "/srv/data"].
Proof.
  intros s b.
  destruct (archive_attempts_start_from_a_cleared_directory main_is_missing
              (repoConfig (Num 0)) (fun d f => (d ++ "/" ++ f)%string)
              (fun p => p) init_state eq_refl eq_refl)
    as (H1 & _ & H3 & _).
  split; [exact H1|]. split; [reflexivity|].
  split; [exact H3 | reflexivity].
Defined.

(* ===================================================================== *)
(** ** The local copy *)
(* ===================================================================== *)

Lemma bind_Return {A B} (m : M A) (k : A -> M B) st a st1 t1 :
  m st = (Return a, st1, t1) ->
  bind m k st = (let '(r, st2, t2) := k a st1 in (r, st2, t1 ++ t2)).
Proof. intros H. unfold bind. now rewrite H. Qed.

Lemma bind_Throw {A B} (m : M A) (k : A -> M B) st e st1 t1 :
  m st = (Throw e, st1, t1) -> bind m k st = (Throw e, st1, t1).
Proof. intros H. unfold bind. now rewrite H. Qed.

Lemma has_event_app p t1 t2 :
  has_event p (t1 ++ t2) = has_event p t1 || has_event p t2.
Proof. apply existsb_app. Qed.




Section LocalCopy.

Variable w : World.
Variable config : Config.
Variable path_join : string -> string -> string.
Variable path_dirname : string -> string.

Local Abbreviation copyFile :=
  (Build.copyFile w config path_join path_dirname).
Local Abbreviation copyIncludedDir :=
  (Build.copyIncludedDir w config path_join path_dirname).





End LocalCopy.

Section BuildOutcome.

Variable w : World.
Variable config : Config.
Variable path_join : string -> string -> string.
Variable path_dirname : string -> string.
Variable path_extname : string -> string.
Variable rootConfigPath : string.
Variable binPath : string.

Hypothesis no_repository : truthy (gitUrl config) = false.
Hypothesis local_directory : truthy (includeDir config) = true.




End BuildOutcome.



(* ===================================================================== *)
(** ** The tool handler *)
(* ===================================================================== *)

Section ToolHandler.

Import Server.
Variable w : World.
Variable config : Config.

(** A call for the configured tool without a usable query is answered
    with an error payload; nothing outside the process is touched. *)
Lemma callTool_rejects request st :
  strict_eq (name request) (toolName config) = true ->
  lacks_query (arguments request) = true ->
  exists message,
    callTool w config request st
    = (Return (mkResponse message true), st,
       [Console (ToolRequest (name request));
        Console (ToolError (name request))]).
Proof.
  intros Hname Hbad. unfold callTool. rewrite Hname. cbn [negb].
  unfold lacks_query in Hbad.
  unfold try_catch, bind, log, throw, ret.
  destruct (negb (truthy (arguments request))
            || negb (String.eqb (typeof (arguments request)) "object")) eqn:Hobj.
  - cbn. eexists. reflexivity.
  - cbn in Hbad. rewrite Hbad. cbn. eexists. reflexivity.
Qed.

(** Every request is answered: the handler returns or throws a protocol
    error, and the process never exits. *)
Lemma answer_returns request st :
  exists reply st' t, answer w config request st = (Return reply, st', t).
Proof.
  unfold answer, callTool, executeDocsSearch.
  unfold try_catch, bind, log, throw, ret, call.
  destruct (negb (strict_eq (name request) (toolName config))); cbn;
    [eauto|].
  destruct (negb (truthy (arguments request))
            || negb (String.eqb (typeof (arguments request)) "object"));
    cbn; [eauto|].
  destruct (negb (truthy (Js.get (arguments request) "query"))); cbn;
    [eauto|].
  destruct (w_search w (clock st) (dataDir config)
              (Js.get (arguments request) "query")); cbn; eauto.
Qed.

Lemma serve_answers_all requests :
  forall st, exists replies st' t,
    serve w config requests st = (Return replies, st', t) /\
    List.length replies = List.length requests.
Proof.
  induction requests as [|request rest IH]; intros st.
  - exists [], st, []. auto.
  - destruct (answer_returns request st) as (r & st1 & t1 & E1).
    destruct (IH st1) as (rs & st2 & t2 & E2 & L2).
    exists (r :: rs), st2, (t1 ++ t2 ++ []).
    cbn [serve]. unfold bind at 1. rewrite E1.
    unfold bind at 1. rewrite E2. cbn. auto.
Qed.

End ToolHandler.

(** C9.  A call for the configured tool whose arguments are not an object,
    or hold no usable [query], returns a response with [isError] set; the
    handler neither throws nor exits, and leaves the process state as it
    was.  Every request of a session gets a reply, and the requests that
    follow such a call are answered exactly as they would be without it. *)
Theorem missing_query_is_a_tool_error :
  forall (w : World) (config : Config),
    (forall request st,
        strict_eq (Server.name request) (toolName config) = true ->
        lacks_query (Server.arguments request) = true ->
        exists message,
          Server.callTool w config request st
          = (Return (Server.mkResponse message true), st,
             [Console (ToolRequest (Server.name request));
              Console (ToolError (Server.name request))])) /\
    (forall requests st,
        exists replies st' t,
          Server.serve w config requests st = (Return replies, st', t) /\
          List.length replies = List.length requests) /\
    (forall request rest st,
        strict_eq (Server.name request) (toolName config) = true ->
        lacks_query (Server.arguments request) = true ->
        exists message replies st' t,
          Server.serve w config rest st = (Return replies, st', t) /\
          Server.serve w config (request :: rest) st
          = (Return (Server.Result (Server.mkResponse message true) :: replies),
             st',
             [Console (ToolRequest (Server.name request));
              Console (ToolError (Server.name request))] ++ t)).
Proof.
  intros w config. split; [|split].
  - apply callTool_rejects.
  - apply serve_answers_all.
  - intros request rest st Hname Hbad.
    destruct (callTool_rejects w config request st Hname Hbad) as [message E].
    destruct (serve_answers_all w config rest st) as (replies & st' & t & Er & _).
    exists message, replies, st', t. split; [exact Er|].
    cbn [Server.serve]. unfold Server.answer, bind at 1, try_catch, bind at 1.
    rewrite E. unfold ret at 1. cbn [app]. unfold bind at 1. rewrite Er.
    unfold ret. cbn. now rewrite app_nil_r.
Qed.

(** A run of C9: a call with arguments [{}], then a proper query. *)
Lemma missing_query_is_a_tool_error_witness :
  let empty := Server.mkRequest (VStr "search_docs") (VObj []) in
  let query := Server.mkRequest (VStr "search_docs")
                 (VObj [("query", VStr "install")]) in
  exists message,
    outcome_of (Server.serve calm (repoConfig (Num 0)) [empty; query] init_state)
    = Return [Server.Result (Server.mkResponse message true);
              Server.Result (Server.mkResponse "results" false)].
Proof.
  intros empty query.
  destruct (missing_query_is_a_tool_error calm (repoConfig (Num 0)))
    as (_ & _ & H).
  destruct (H empty [query] init_state eq_refl eq_refl)
    as (message & replies & st' & t & Er & E).
  exists message. rewrite E. unfold outcome_of. cbn [fst].
  inversion Er. reflexivity.
Defined.

(* ===================================================================== *)
(** ** An interval that is not a number *)
(* ===================================================================== *)




Section NotANumber.

Variable path_isAbsolute : string -> bool.
Variable path_resolve : string -> string -> string.
Variable defaultConfigPath : string.
Variable defaultDataDir : string.
Variable args : Args.
Variable env : Env.
Variable cwd : string.
Variable readConfig : jsval -> FileState.

(** [loadConfig] returns the interval of the merged settings. *)
Lemma loadConfig_keeps_interval config out :
  loadConfig path_isAbsolute path_resolve defaultConfigPath defaultDataDir
    args env cwd readConfig = (Return config, out) ->
  autoUpdateInterval config
  = autoUpdateInterval
      (merged defaultConfigPath defaultDataDir args env readConfig).
Proof.
  unfold loadConfig, absolutePaths, validate, isAbsolute.
  destruct (merged defaultConfigPath defaultDataDir args env readConfig)
    as [i u r n dd tn td ip cl].
  cbn [dataDir includeDir gitUrl autoUpdateInterval set_dataDir
       set_includeDir].
  destruct dd; try discriminate.
  destruct (negb (path_isAbsolute s));
    cbn [dataDir includeDir gitUrl autoUpdateInterval set_dataDir
         set_includeDir];
    (destruct (truthy i);
     [destruct i; try discriminate;
      match goal with
      | |- context [negb (path_isAbsolute ?x)] =>
          destruct (negb (path_isAbsolute x))
      end|];
     cbn [dataDir includeDir gitUrl autoUpdateInterval set_dataDir
          set_includeDir resolve];
     match goal with
     | |- context [if ?b then (set_includeDir VNull _, _) else _] =>
         destruct b
     end;
     intros H; inversion H; reflexivity).
Qed.


End NotANumber.

Section IntervalIsNaN.

Variable w : World.
Variable config : Config.
Variable args : Args.
Variable env : Env.
Hypothesis interval_nan : autoUpdateInterval config = NaN.

Local Abbreviation zero := (set_autoUpdateInterval (Num 0) config).








End IntervalIsNaN.




(* ===================================================================== *)
(** ** The cleanup pass *)
(* ===================================================================== *)

Lemma stats_app t1 t2 : stats (t1 ++ t2) = stats t1 ++ stats t2.
Proof. apply flat_map_app. Qed.

Lemma removals_app t1 t2 : removals (t1 ++ t2) = removals t1 ++ removals t2.
Proof. apply flat_map_app. Qed.

Lemma cleanup_warnings_app t1 t2 :
  cleanup_warnings (t1 ++ t2) = cleanup_warnings t1 ++ cleanup_warnings t2.
Proof. apply flat_map_app. Qed.

Lemma operations_app t1 t2 :
  operations (t1 ++ t2) = operations t1 ++ operations t2.
Proof. apply filter_app. Qed.

(** The pattern [IoError "ENOENT" _] is a comparison of the code. *)
Lemma enoent_case {A} (code : string) (a b : A) :
  match code with
  | "ENOENT"%string => a
  | _ => b
  end = if String.eqb code "ENOENT" then a else b.
Proof.
  do 7 (destruct code as [|[[] [] [] [] [] [] [] []] code]; try reflexivity).
Qed.

Section Cleanup.

Variable w : World.
Variable config : Config.
Variable path_extname : string -> string.

(** One turn of the cleanup loop: it always returns; it stats the file
    once, removes it only when the size just read or the extension asks
    for it, and counts it only when the removal succeeded. *)
Lemma cleanupFile_turn file st :
  exists removed st' t,
    Build.cleanupFile w path_extname file st = (Return removed, st', t) /\
    stats t = [file] /\
    (clock st < clock st')%nat /\
    (removals t = [] /\ removed = false \/
     removals t = [file] /\
     (exists size, w_stat w (clock st) file = Ok size /\
                   removable path_extname file size = true) /\
     (removed = true <-> w_remove w (S (clock st)) file = Ok tt)) /\
    (forall f, In f (cleanup_warnings t) ->
       f = file /\
       exists code message,
         code <> "ENOENT" /\
         (w_stat w (clock st) file = Failed code message \/
          w_remove w (S (clock st)) file = Failed code message)).
Proof.
  unfold Build.cleanupFile, removable.
  unfold try_catch, bind, call, log, ret.
  destruct (w_stat w (clock st) file) as [size|code message] eqn:Hstat.
  - cbn [clock tick].
    destruct (Build.has Build.forbiddenExtensions
                (Build.toLowerCase (path_extname file))
              || (Build.maxSize <? size)) eqn:Hrm.
    + cbn [clock tick].
      destruct (w_remove w (S (clock st)) file) as [[]|code message] eqn:Hr.
      * exists true. do 2 eexists. cbn. split; [reflexivity|].
        split; [reflexivity|]. split; [cbn; lia|]. split.
        -- right. split; [reflexivity|]. split; [eauto|].
           split; reflexivity.
        -- intros f [].
      * rewrite enoent_case.
        destruct (String.eqb_spec code "ENOENT") as [->|Hne];
          exists false; do 2 eexists; cbn; (split; [reflexivity|]);
          (split; [reflexivity|]); (split; [cbn; lia|]); split;
          try (right; split; [reflexivity|]; split; [eauto|];
               split; intros; discriminate).
        -- intros f [].
        -- intros f [<-|[]]. split; [reflexivity|].
           exists code, message. auto.
    + exists false. do 2 eexists. cbn. split; [reflexivity|].
      split; [reflexivity|]. split; [cbn; lia|]. split; [auto|].
      intros f [].
  - cbn [clock tick]. rewrite enoent_case.
    destruct (String.eqb_spec code "ENOENT") as [->|Hne];
      exists false; do 2 eexists; cbn; (split; [reflexivity|]);
      (split; [reflexivity|]); (split; [cbn; lia|]); (split; [auto|]).
    + intros f [].
    + intros f [<-|[]]. split; [reflexivity|].
      exists code, message. auto.
Qed.


(** The loop: every file is handled once, in order, whatever fails. *)
Lemma cleanupLoop_result files :
  forall removedCount st,
  exists n st' t,
    Build.cleanupLoop w path_extname files removedCount st
    = (Return n, st', t) /\
    stats t = files /\
    (clock st <= clock st')%nat /\
    (removedCount <= n <= removedCount + List.length (removals t))%nat /\
    (List.length (removals t) <= List.length files)%nat /\
    ((forall k f, w_remove w k f = Ok tt) ->
     n = (removedCount + List.length (removals t))%nat) /\
    (forall f, In f (removals t) ->
       exists k size, w_stat w k f = Ok size /\
                      removable path_extname f size = true) /\
    (forall f, In f (cleanup_warnings t) ->
       exists k code message,
         code <> "ENOENT" /\
         (w_stat w k f = Failed code message \/
          w_remove w k f = Failed code message)).
Proof.
  induction files as [|file rest IH]; intros c st.
  - exists c, st, []. cbn. repeat split; auto; try lia; intros f [].
  - destruct (cleanupFile_turn file st)
      as (b & st1 & t1 & E1 & HS1 & K1 & R1 & W1).
    destruct (IH (if b then S c else c) st1)
      as (n & st2 & t2 & E2 & HS2 & K2 & N2 & L2 & A2 & R2 & W2).
    exists n, st2, (t1 ++ t2). cbn [Build.cleanupLoop].
    unfold bind at 1. rewrite E1, E2.
    rewrite stats_app, removals_app, cleanup_warnings_app, HS1, HS2,
      !length_app.
    split; [reflexivity|]. split; [reflexivity|]. split; [lia|].
    destruct R1 as [[Hr ->]|(Hr & (size & Hs & Hrm) & Hb)]; rewrite Hr;
      cbn [List.length app].
    + split; [lia|]. split; [lia|]. split; [auto|].
      split; [exact R2|].
      intros f Hf. apply in_app_or in Hf as [Hf|Hf].
      * destruct (W1 f Hf) as (-> & code & message & Hne & H).
        destruct H as [H|H]; eauto 6.
      * auto.
    + split; [destruct b; lia|]. split; [lia|]. split.
      * intros Hall. rewrite (A2 Hall).
        destruct Hb as [_ Hb]. rewrite (Hb (Hall _ _)). lia.
      * split.
        -- intros f [<-|Hf]; [eauto|auto].
        -- intros f Hf. apply in_app_or in Hf as [Hf|Hf]; [|auto].
           destruct (W1 f Hf) as (-> & code & message & Hne & H).
           destruct H as [H|H]; eauto 6.
Qed.

(** The loop itself reports nothing. *)
Lemma cleanupLoop_no_report files :
  forall removedCount st,
    cleanup_reports
      (trace_of (Build.cleanupLoop w path_extname files removedCount st))
    = [].
Proof.
  induction files as [|f fs IH]; intros c s; [reflexivity|].
  cbn [Build.cleanupLoop]. unfold bind at 1.
  destruct (cleanupFile_turn f s) as (b & s1 & t1 & E1 & _).
  rewrite E1.
  specialize (IH (if b then S c else c) s1).
  destruct (Build.cleanupLoop w path_extname fs (if b then S c else c) s1)
    as [[r2 s2] t2].
  unfold trace_of, cleanup_reports in *. cbn [snd] in *.
  rewrite flat_map_app, IH, app_nil_r.
  revert E1. unfold Build.cleanupFile, try_catch, bind, call, log, ret.
  destruct (w_stat w (clock s) f) as [size|c0 m0]; cbn.
  - destruct (_ || _); cbn;
      [destruct (w_remove w (S (clock s)) f) as [[]|c1 m1]; cbn;
       rewrite ?enoent_case;
       try destruct (String.eqb c1 "ENOENT")|];
      intros H; inversion H; reflexivity.
  - rewrite enoent_case. destruct (String.eqb c0 "ENOENT");
      intros H; inversion H; reflexivity.
Qed.

End Cleanup.

(** X1.  The cleanup removes a file only after [fs.stat] answered with a
    size for it and the file has a forbidden extension (compared in lower
    case) or is larger than 100 KiB. *)
Theorem cleanup_removes_only_binary_or_large :
  forall (w : World) (config : Config) (path_extname : string -> string)
         (st : state) (file : string),
    In file (removals (trace_of (Build.cleanupDataDir w config path_extname st))) ->
    exists k size,
      w_stat w k file = Ok size /\
      (Build.has Build.forbiddenExtensions
         (Build.toLowerCase (path_extname file)) = true \/
       100 * 1024 < size).
Proof.
  intros w config ext st file.
  unfold Build.cleanupDataDir, bind at 1, log at 1.
  unfold bind at 1, call.
  destruct (w_globAbsolute w (clock st) (Build.dataDir config))
    as [files|code message]; [|intros []].
  destruct (cleanupLoop_result w ext files 0%nat (tick st))
    as (n & st' & t & E & _ & _ & _ & _ & _ & R & _).
  unfold bind, log. rewrite E. unfold trace_of. cbn [snd app].
  cbn [removals flat_map app]. fold (removals (t ++ [Console (CleanupComplete n)])).
  rewrite removals_app. cbn. rewrite app_nil_r.
  intros Hin. destruct (R file Hin) as (k & size & Hs & Hrm).
  exists k, size. split; [exact Hs|].
  unfold removable in Hrm. apply Bool.orb_true_iff in Hrm as [H|H]; [auto|].
  right. now apply Z.ltb_lt in H.
Qed.

(** A sample run: of four files the image and the oversized one are removed,
    the file of exactly 100 KiB and the vanished one are not. *)
Lemma cleanup_removes_only_binary_or_large_witness :
  removals (trace_of (Build.cleanupDataDir four_files localConfig
                        sample_extname init_state))
  = ["/srv/data/logo.PNG"; "/srv/data/big.md"] /\
  exists k size,
    w_stat four_files k "/srv/data/big.md" = Ok size /\
    (Build.has Build.forbiddenExtensions
       (Build.toLowerCase (sample_extname "/srv/data/big.md")) = true \/
     100 * 1024 < size).
Proof.
  split; [reflexivity|].
  apply (cleanup_removes_only_binary_or_large four_files localConfig
           sample_extname init_state "/srv/data/big.md").
  right. left. reflexivity.
Defined.

(** What [cleanupDataDir] leaves in the trace once the files are listed. *)
Lemma cleanupDataDir_trace (w : World) (config : Config)
    (path_extname : string -> string) (st : state) (files : list string) :
  w_globAbsolute w (clock st) (Build.dataDir config) = Ok files ->
  exists n st' t,
    Build.cleanupLoop w path_extname files 0%nat (tick st)
    = (Return n, st', t) /\
    Build.cleanupDataDir w config path_extname st
    = (Return tt, st',
       [Console CleaningUp; GlobAbsolute (Build.dataDir config)]
       ++ t ++ [Console (CleanupComplete n)]).
Proof.
  intros Hglob.
  destruct (cleanupLoop_result w path_extname files 0%nat (tick st))
    as (n & st' & t & E & _).
  exists n, st', t. split; [exact E|].
  unfold Build.cleanupDataDir, bind at 1, log at 1.
  unfold bind at 1, call. rewrite Hglob.
  unfold bind, log. rewrite E. reflexivity.
Qed.

(** X2.  Once the files are listed the cleanup always returns: it stats
    every listed file once, in order, whatever [stat] or [remove] answers;
    the count it reports is at most the number of removals started, which is
    at most the number of files, and equals it when every removal succeeds.
    When the listing fails the cleanup throws without touching a file. *)
Theorem cleanup_handles_every_file :
  forall (w : World) (config : Config) (path_extname : string -> string)
         (st : state),
    let r := Build.cleanupDataDir w config path_extname st in
    (forall files,
        w_globAbsolute w (clock st) (Build.dataDir config) = Ok files ->
        outcome_of r = Return tt /\
        stats (trace_of r) = files /\
        exists n,
          cleanup_reports (trace_of r) = [n] /\
          (n <= List.length (removals (trace_of r)) <= List.length files)%nat /\
          ((forall k f, w_remove w k f = Ok tt) ->
           n = List.length (removals (trace_of r)))) /\
    (forall code message,
        w_globAbsolute w (clock st) (Build.dataDir config)
        = Failed code message ->
        outcome_of r = Throw (IoError code message) /\
        operations (trace_of r) = [GlobAbsolute (Build.dataDir config)]).
Proof.
  intros w config ext st r. subst r. split.
  - intros files Hglob.
    destruct (cleanupDataDir_trace w config ext st files Hglob)
      as (n & st' & t & E & ->).
    destruct (cleanupLoop_result w ext files 0%nat (tick st))
      as (n' & st'' & t' & E' & HS & _ & N & L & A & _).
    rewrite E in E'. inversion E'; subst n' st'' t'.
    unfold outcome_of, trace_of. cbn [fst snd].
    assert (Hs : forall t0, stats ([Console CleaningUp;
                 GlobAbsolute (Build.dataDir config)] ++ t0
                 ++ [Console (CleanupComplete n)]) = stats t0).
    { intros t0. rewrite !stats_app. cbn. now rewrite app_nil_r. }
    assert (Hr : forall t0, removals ([Console CleaningUp;
                 GlobAbsolute (Build.dataDir config)] ++ t0
                 ++ [Console (CleanupComplete n)]) = removals t0).
    { intros t0. rewrite !removals_app. cbn. now rewrite app_nil_r. }
    rewrite Hs, Hr. split; [reflexivity|]. split; [exact HS|].
    exists n. split.
    + pose proof (cleanupLoop_no_report w ext files 0%nat (tick st)) as Hnone.
      rewrite E in Hnone.
      unfold trace_of, cleanup_reports in *. cbn [snd] in Hnone.
      rewrite !flat_map_app, Hnone. reflexivity.
    + split; [lia|]. intros Hall. now rewrite (A Hall).
  - intros code message Hglob.
    unfold Build.cleanupDataDir, bind, log, call. cbn [clock].
    rewrite Hglob. split; reflexivity.
Qed.

(** A sample run on the four files. *)
Lemma cleanup_handles_every_file_witness :
  let r := Build.cleanupDataDir four_files localConfig sample_extname
             init_state in
  outcome_of r = Return tt /\
  stats (trace_of r)
  = ["/srv/data/a.md"; "/srv/data/logo.PNG"; "/srv/data/big.md";
     "/srv/data/gone.txt"] /\
  cleanup_reports (trace_of r) = [2%nat].
Proof.
  intros r.
  destruct (cleanup_handles_every_file four_files localConfig sample_extname
              init_state) as [H _].
  destruct (H _ eq_refl) as (Ho & Hs & n & Hn & _).
  split; [exact Ho|]. split; [exact Hs|]. reflexivity.
Defined.

(** X3.  The cleanup warns about a file only when [stat] or [remove] failed
    on it with a code other than ENOENT; a file that vanished is passed over
    in silence. *)
Theorem cleanup_warns_unless_vanished :
  forall (w : World) (config : Config) (path_extname : string -> string)
         (st : state),
    let r := Build.cleanupDataDir w config path_extname st in
    (forall file,
        In file (cleanup_warnings (trace_of r)) ->
        exists k code message,
          code <> "ENOENT" /\
          (w_stat w k file = Failed code message \/
           w_remove w k file = Failed code message)) /\
    ((forall k f code message,
         (w_stat w k f = Failed code message \/
          w_remove w k f = Failed code message) -> code = "ENOENT") ->
     cleanup_warnings (trace_of r) = []).
Proof.
  intros w config ext st r.
  assert (H : forall file,
             In file (cleanup_warnings (trace_of r)) ->
             exists k code message,
               code <> "ENOENT" /\
               (w_stat w k file = Failed code message \/
                w_remove w k file = Failed code message)).
  { subst r. intros file.
    unfold Build.cleanupDataDir, bind at 1, log at 1.
    unfold bind at 1, call.
    destruct (w_globAbsolute w (clock st) (Build.dataDir config))
      as [files|code message]; [|intros []].
    destruct (cleanupLoop_result w ext files 0%nat (tick st))
      as (n & st' & t & E & _ & _ & _ & _ & _ & _ & W).
    unfold bind, log. rewrite E. unfold trace_of. cbn [snd app].
    cbn [cleanup_warnings flat_map app].
    fold (cleanup_warnings (t ++ [Console (CleanupComplete n)])).
    rewrite cleanup_warnings_app. cbn. rewrite app_nil_r. apply W. }
  split; [exact H|].
  intros Hall.
  destruct (cleanup_warnings (trace_of r)) as [|file rest] eqn:E;
    [reflexivity|].
  destruct (H file (or_introl eq_refl)) as (k & code & message & Hne & Hf).
  contradiction Hne. exact (Hall k file code message Hf).
Qed.

(** A sample run: the vanished file of the four is not warned about. *)
Lemma cleanup_warns_unless_vanished_witness :
  cleanup_warnings (trace_of (Build.cleanupDataDir four_files localConfig
                                sample_extname init_state)) = [].
Proof.
  apply (cleanup_warns_unless_vanished four_files localConfig sample_extname
           init_state).
  intros k f code message [H|H].
  - unfold four_files in H. cbn in H.
    repeat match type of H with
           | (if ?b then _ else _) = _ => destruct b; try discriminate
           end.
    now inversion H.
  - discriminate.
Defined.

(* ===================================================================== *)
(** ** Reasoning by parts *)
(* ===================================================================== *)

Section Confined.

Context {A B : Type}.
Variable P : event -> bool.

Lemma confined_ret (a : A) : confined P (ret a).
Proof. intros st. reflexivity. Qed.

Lemma confined_throw (e : error) : confined P (@throw A e).
Proof. intros st. reflexivity. Qed.

Lemma confined_exit (c : Z) : confined P (@exit A c).
Proof. intros st. reflexivity. Qed.

Lemma confined_log (c : console) :
  P (Console c) = true -> confined P (log c).
Proof. intros H st. cbn. now rewrite H. Qed.

Lemma confined_call (ev : event) (ask : nat -> io A) :
  P ev = true -> confined P (call ev ask).
Proof.
  intros H st. unfold call. destruct (ask (clock st)); cbn; now rewrite H.
Qed.

Lemma confined_bind (m : M A) (k : A -> M B) :
  confined P m -> (forall a, confined P (k a)) -> confined P (bind m k).
Proof.
  unfold confined, trace_of in *. intros Hm Hk st. specialize (Hm st). unfold bind.
  destruct (m st) as [[[a|e|c] st1] t1]; cbn [snd] in *; try assumption.
  specialize (Hk a st1). destruct (k a st1) as [[r st2] t2].
  cbn [snd] in *. now rewrite forallb_app, Hm, Hk.
Qed.

Lemma confined_try_catch (m : M A) (h : error -> M A) :
  confined P m -> (forall e, confined P (h e)) -> confined P (try_catch m h).
Proof.
  unfold confined, trace_of in *. intros Hm Hh st. specialize (Hm st). unfold try_catch.
  destruct (m st) as [[[a|e|c] st1] t1]; cbn [snd] in *; try assumption.
  specialize (Hh e st1). destruct (h e st1) as [[r st2] t2].
  cbn [snd] in *. now rewrite forallb_app, Hm, Hh.
Qed.

Lemma confined_try_finally (m : M A) (f : M unit) :
  confined P m -> confined P f -> confined P (try_finally m f).
Proof.
  unfold confined, trace_of in *. intros Hm Hf st. specialize (Hm st). unfold try_finally.
  destruct (m st) as [[[a|e|c] st1] t1]; cbn [snd] in *; try assumption;
    specialize (Hf st1); destruct (f st1) as [[[u|e'|c'] st2] t2];
    cbn [snd] in *; now rewrite forallb_app, Hm, Hf.
Qed.

Lemma confined_if (b : bool) (m1 m2 : M A) :
  confined P m1 -> confined P m2 -> confined P (if b then m1 else m2).
Proof. destruct b; auto. Qed.

End Confined.

Lemma confined_for_each {A} (P : event -> bool) (body : A -> M unit) xs :
  (forall x, confined P (body x)) -> confined P (for_each body xs).
Proof.
  intros H. induction xs as [|x xs IH]; cbn [for_each].
  - apply confined_ret.
  - apply confined_bind; auto.
Qed.

Section NoExit.

Context {A B : Type}.

Lemma no_exit_ret (a : A) : no_exit (ret a).
Proof. intros st c. discriminate. Qed.

Lemma no_exit_throw (e : error) : no_exit (@throw A e).
Proof. intros st c. discriminate. Qed.

Lemma no_exit_log (c : console) : no_exit (log c).
Proof. intros st c'. discriminate. Qed.

Lemma no_exit_call (ev : event) (ask : nat -> io A) : no_exit (call ev ask).
Proof.
  intros st c. unfold call, outcome_of.
  destruct (ask (clock st)); discriminate.
Qed.

Lemma no_exit_bind (m : M A) (k : A -> M B) :
  no_exit m -> (forall a, no_exit (k a)) -> no_exit (bind m k).
Proof.
  unfold no_exit, outcome_of in *. intros Hm Hk st c. specialize (Hm st). unfold bind.
  destruct (m st) as [[[a|e|c'] st1] t1]; cbn [fst] in *;
    try discriminate; [|exfalso; now apply (Hm c')].
  specialize (Hk a st1 c). destruct (k a st1) as [[r st2] t2].
  exact Hk.
Qed.

Lemma no_exit_try_catch (m : M A) (h : error -> M A) :
  no_exit m -> (forall e, no_exit (h e)) -> no_exit (try_catch m h).
Proof.
  unfold no_exit, outcome_of in *. intros Hm Hh st c. specialize (Hm st). unfold try_catch.
  destruct (m st) as [[[a|e|c'] st1] t1]; cbn [fst] in *;
    try discriminate; [|exfalso; now apply (Hm c')].
  specialize (Hh e st1 c). destruct (h e st1) as [[r st2] t2].
  exact Hh.
Qed.

Lemma no_exit_try_finally (m : M A) (f : M unit) :
  no_exit m -> no_exit f -> no_exit (try_finally m f).
Proof.
  unfold no_exit, outcome_of in *. intros Hm Hf st c. specialize (Hm st). unfold try_finally.
  destruct (m st) as [[[a|e|c'] st1] t1]; cbn [fst] in *;
    try (exfalso; now apply (Hm c'));
    specialize (Hf st1); destruct (f st1) as [[[u|e'|c''] st2] t2];
    cbn [fst] in *; try discriminate; exfalso; now apply (Hf c'').
Qed.

Lemma no_exit_if (b : bool) (m1 m2 : M A) :
  no_exit m1 -> no_exit m2 -> no_exit (if b then m1 else m2).
Proof. destruct b; auto. Qed.

End NoExit.

Lemma no_exit_for_each {A} (body : A -> M unit) xs :
  (forall x, no_exit (body x)) -> no_exit (for_each body xs).
Proof.
  intros H. induction xs as [|x xs IH]; cbn [for_each].
  - apply no_exit_ret.
  - apply no_exit_bind; auto.
Qed.

Section ExitsOnly.

Context {A B : Type}.
Variable code : Z.

Lemma exits_only_no_exit (m : M A) : no_exit m -> exits_only code m.
Proof. intros H st c E. exfalso. exact (H st c E). Qed.

Lemma exits_only_exit : exits_only code (@exit A code).
Proof. intros st c E. cbn in E. congruence. Qed.

Lemma exits_only_bind (m : M A) (k : A -> M B) :
  exits_only code m -> (forall a, exits_only code (k a)) ->
  exits_only code (bind m k).
Proof.
  unfold exits_only, outcome_of in *. intros Hm Hk st c.
  specialize (Hm st). unfold bind.
  destruct (m st) as [[[a|e|c'] st1] t1]; cbn [fst] in *;
    try discriminate;
    [|intros E; injection E as <-; now apply Hm].
  specialize (Hk a st1 c). destruct (k a st1) as [[r st2] t2].
  exact Hk.
Qed.

Lemma exits_only_try_catch (m : M A) (h : error -> M A) :
  exits_only code m -> (forall e, exits_only code (h e)) ->
  exits_only code (try_catch m h).
Proof.
  unfold exits_only, outcome_of in *. intros Hm Hh st c.
  specialize (Hm st). unfold try_catch.
  destruct (m st) as [[[a|e|c'] st1] t1]; cbn [fst] in *;
    try discriminate;
    [|intros E; injection E as <-; now apply Hm].
  specialize (Hh e st1 c). destruct (h e st1) as [[r st2] t2].
  exact Hh.
Qed.

Lemma exits_only_if (b : bool) (m1 m2 : M A) :
  exits_only code m1 -> exits_only code m2 ->
  exits_only code (if b then m1 else m2).
Proof. destruct b; auto. Qed.

End ExitsOnly.

Section Leads.

Context {A B : Type}.
Variables P Q R : state -> Prop.

Lemma leads_bind (m : M A) (k : A -> M B) :
  leads P Q m -> (forall a, leads Q R (k a)) -> (forall s, Q s -> R s) ->
  leads P R (bind m k).
Proof.
  unfold leads, state_of in *. intros Hm Hk HQR st H.
  specialize (Hm st H). unfold bind.
  destruct (m st) as [[[a|e|c] st1] t1]; cbn [fst snd] in *; auto.
  specialize (Hk a st1 Hm). destruct (k a st1) as [[r st2] t2].
  exact Hk.
Qed.

Lemma leads_try_catch (m : M A) (h : error -> M A) :
  leads P Q m -> (forall e, leads Q R (h e)) -> (forall s, Q s -> R s) ->
  leads P R (try_catch m h).
Proof.
  unfold leads, state_of in *. intros Hm Hh HQR st H.
  specialize (Hm st H). unfold try_catch.
  destruct (m st) as [[[a|e|c] st1] t1]; cbn [fst snd] in *; auto.
  specialize (Hh e st1 Hm). destruct (h e st1) as [[r st2] t2].
  exact Hh.
Qed.

Lemma leads_try_finally (m : M A) (f : M unit) :
  leads P Q m -> leads Q R f -> (forall s, Q s -> R s) ->
  leads P R (try_finally m f).
Proof.
  unfold leads, state_of in *. intros Hm Hf HQR st H.
  specialize (Hm st H). unfold try_finally.
  destruct (m st) as [[[a|e|c] st1] t1]; cbn [fst snd] in *; auto;
    specialize (Hf st1 Hm); destruct (f st1) as [[[u|e'|c'] st2] t2];
    exact Hf.
Qed.

Lemma leads_if (b : bool) (m1 m2 : M A) :
  leads P Q m1 -> leads P Q m2 -> leads P Q (if b then m1 else m2).
Proof. destruct b; auto. Qed.

Lemma leads_weaken (m : M A) :
  leads P Q m -> (forall s, Q s -> R s) -> leads P R m.
Proof. intros H HQR st Hst. apply HQR, H, Hst. Qed.

End Leads.

(** Steps that keep a property of the state that the clock does not
    affect. *)
Section Keeps.

Context {A : Type}.
Variable I : state -> Prop.
Hypothesis I_tick : forall st, I st -> I (tick st).

Lemma keeps_ret (a : A) : leads I I (ret a).
Proof. intros st H. exact H. Qed.

Lemma keeps_throw (e : error) : leads I I (@throw A e).
Proof. intros st H. exact H. Qed.

Lemma keeps_exit (c : Z) : leads I I (@exit A c).
Proof. intros st H. exact H. Qed.

Lemma keeps_log (c : console) : leads I I (log c).
Proof. intros st H. exact H. Qed.

Lemma keeps_call (ev : event) (ask : nat -> io A) : leads I I (call ev ask).
Proof.
  intros st H. unfold call, state_of.
  destruct (ask (clock st)); cbn; auto.
Qed.

End Keeps.

(* ===================================================================== *)
(** ** The build script as a whole *)
(* ===================================================================== *)

Lemma bind_assoc {A B C} (m : M A) (k : A -> M B) (h : B -> M C) st :
  bind (bind m k) h st = bind m (fun a => bind (k a) h) st.
Proof.
  unfold bind. destruct (m st) as [[[a|e|c] st1] t1]; try reflexivity.
  destruct (k a st1) as [[[b|e|c] st2] t2]; try reflexivity.
  destruct (h b st2) as [[r st3] t3]. now rewrite app_assoc.
Qed.

Lemma bind_ext {A B} (m : M A) (k k' : A -> M B) st :
  (forall a s, k a s = k' a s) -> bind m k st = bind m k' st.
Proof.
  intros H. unfold bind. destruct (m st) as [[[a|e|c] st1] t1]; try reflexivity.
  now rewrite H.
Qed.

Lemma free_of_confined {A} (p : event -> bool) (m : M A) st :
  confined (fun e => negb (p e)) m -> free_of p (trace_of (m st)).
Proof.
  intros H. specialize (H st). unfold free_of, has_event.
  induction (trace_of (m st)) as [|e t IH]; [reflexivity|].
  cbn in *. apply andb_prop in H as [He Ht].
  apply Bool.negb_true_iff in He. now rewrite He, IH.
Qed.

Lemma confined_existsSync P w p :
  P (ExistsSync p) = true -> confined P (existsSync w p).
Proof. intros H st. cbn. now rewrite H. Qed.

Lemma confined_httpGet P w url :
  P (HttpGet url) = true -> confined P (httpGet w url).
Proof.
  intros H st. unfold httpGet.
  destruct (w_httpGet w (clock st) url) as [status|message];
    [destruct (_ && _)|]; cbn; now rewrite H.
Qed.

Lemma no_exit_existsSync w p : no_exit (existsSync w p).
Proof. intros st c. discriminate. Qed.

Lemma no_exit_httpGet w url : no_exit (httpGet w url).
Proof.
  intros st c. unfold httpGet, outcome_of.
  destruct (w_httpGet w (clock st) url) as [status|message];
    [destruct (_ && _)|]; discriminate.
Qed.

(** Side conditions on single events are settled by evaluation. *)
Ltac confine_with extra :=
  repeat first
    [ apply confined_ret | apply confined_throw | apply confined_exit
    | apply confined_log; solve [reflexivity | auto]
    | apply confined_existsSync; solve [reflexivity | auto]
    | apply confined_httpGet; solve [reflexivity | auto]
    | apply confined_call; solve [reflexivity | auto]
    | apply confined_for_each; intros ?
    | apply confined_if
    | apply confined_try_catch; [|intros ?]
    | apply confined_try_finally
    | apply confined_bind; [|intros ?]
    | extra
    | match goal with
      | |- confined _ (match ?x with _ => _ end) => destruct x
      end ].

Ltac stay_with extra :=
  repeat first
    [ apply no_exit_ret | apply no_exit_throw
    | apply no_exit_log
    | apply no_exit_existsSync
    | apply no_exit_httpGet
    | apply no_exit_call
    | apply no_exit_for_each; intros ?
    | apply no_exit_if
    | apply no_exit_try_catch; [|intros ?]
    | apply no_exit_try_finally
    | apply no_exit_bind; [|intros ?]
    | extra
    | match goal with
      | |- no_exit (match ?x with _ => _ end) => destruct x
      end ].

Section BuildParts.

Variable w : World.
Variable config : Config.
Variable path_join : string -> string -> string.
Variable path_dirname : string -> string.
Variable path_extname : string -> string.
Variable rootConfigPath : string.
Variable binPath : string.

Lemma cleanupFile_confined (P : event -> bool) file :
  P (Stat file) = true -> P (Remove file) = true ->
  P (Console (Removing file)) = true ->
  P (Console (CouldNotProcess file)) = true ->
  confined P (Build.cleanupFile w path_extname file).
Proof.
  intros. unfold Build.cleanupFile.
  apply confined_try_catch; [confine_with fail|].
  intros [status|code message|message|code message];
    rewrite ?enoent_case; confine_with fail.
Qed.

Lemma cleanupLoop_confined (P : event -> bool) files :
  (forall f, P (Stat f) = true) -> (forall f, P (Remove f) = true) ->
  (forall f, P (Console (Removing f)) = true) ->
  (forall f, P (Console (CouldNotProcess f)) = true) ->
  forall n, confined P (Build.cleanupLoop w path_extname files n).
Proof.
  intros. revert n. induction files as [|f fs IH]; intros n;
    cbn [Build.cleanupLoop].
  - apply confined_ret.
  - apply confined_bind; [now apply cleanupFile_confined|].
    intros b. apply IH.
Qed.

Lemma cleanupFile_no_exit file :
  no_exit (Build.cleanupFile w path_extname file).
Proof.
  unfold Build.cleanupFile.
  apply no_exit_try_catch; [stay_with fail|].
  intros [status|code message|message|code message];
    rewrite ?enoent_case; stay_with fail.
Qed.

Lemma cleanupLoop_no_exit files :
  forall n, no_exit (Build.cleanupLoop w path_extname files n).
Proof.
  induction files as [|f fs IH]; intros n; cbn [Build.cleanupLoop].
  - apply no_exit_ret.
  - apply no_exit_bind; [apply cleanupFile_no_exit|]. intros b. apply IH.
Qed.

(** Everything the build does before its last line. *)
Local Abbreviation build_steps :=
  (Build.createDefaultConfig w rootConfigPath ;;
   Build.prepareDataDir w config path_join path_dirname ;;
   (if truthy (enableBuildCleanup config)
    then Build.cleanupDataDir w config path_extname
    else log CleanupDisabled) ;;
   call (Chmod binPath) (fun t => w_chmod w t binPath) ;;
   log MadeExecutable).

Lemma build_steps_quiet :
  confined (fun e => negb (is_verdict e)) build_steps.
Proof.
  confine_with
    ltac:(first [ apply cleanupLoop_confined; intros; reflexivity
                | progress unfold Build.downloadAndExtractTarball, Build.join ]).
Qed.

Lemma build_steps_no_exit : no_exit build_steps.
Proof.
  stay_with
    ltac:(first [ apply cleanupLoop_no_exit
                | progress unfold Build.downloadAndExtractTarball, Build.join ]).
Qed.

Lemma build_verdict st :
  let r := Build.build w config path_join path_dirname path_extname
             rootConfigPath binPath st in
  (outcome_of r = Return tt /\
   exists t, trace_of r = t ++ [Console BuildSucceeded] /\
             free_of is_verdict t) \/
  (outcome_of r = Exit 1 /\
   exists t, trace_of r = t ++ [Console BuildFailed] /\
             free_of is_verdict t).
Proof.
  intros r. subst r. unfold Build.build, try_catch.
  assert (E : forall st,
            (Build.createDefaultConfig w rootConfigPath ;;
             Build.prepareDataDir w config path_join path_dirname ;;
             (if truthy (enableBuildCleanup config)
              then Build.cleanupDataDir w config path_extname
              else log CleanupDisabled) ;;
             call (Chmod binPath) (fun t => w_chmod w t binPath) ;;
             log MadeExecutable ;;
             log BuildSucceeded) st
            = (build_steps ;; log BuildSucceeded) st).
  { intros s. symmetry.
    repeat (rewrite bind_assoc; apply bind_ext; intros ? ?). reflexivity. }
  rewrite E. clear E.
  pose proof (free_of_confined is_verdict _ st build_steps_quiet) as Hq.
  pose proof (build_steps_no_exit st) as Hx.
  unfold outcome_of, trace_of in *.
  destruct (build_steps st) as [[[[]|e|c] st1] t1] eqn:E0; cbn [fst snd] in *.
  - left. rewrite (bind_Return _ _ _ _ _ _ E0). cbn.
    split; [reflexivity|]. exists t1. split; [reflexivity|exact Hq].
  - right. rewrite (bind_Throw _ _ _ _ _ _ E0). cbn.
    split; [reflexivity|]. exists t1. split; [reflexivity|exact Hq].
  - exfalso. now apply (Hx c).
Qed.

End BuildParts.

(** X4.  Once the settings are loaded, [build()] never ends with an
    uncaught error: either it returns, and then its last line is the
    success line and it never wrote the failure line, or it exits with
    status 1, and then its last line is the failure line and it never wrote
    the success line. *)
Theorem build_returns_or_exits_1 :
  forall (w : World) (config : Config)
         (path_join : string -> string -> string)
         (path_dirname path_extname : string -> string)
         (rootConfigPath binPath : string) (st : state),
    let r := Build.build w config path_join path_dirname path_extname
               rootConfigPath binPath st in
    (outcome_of r = Return tt /\
     build_failed (trace_of r) = false /\
     exists t, trace_of r = t ++ [Console BuildSucceeded]) \/
    (outcome_of r = Exit 1 /\
     build_succeeded (trace_of r) = false /\
     exists t, trace_of r = t ++ [Console BuildFailed]).
Proof.
  intros w config pj pd pe rc bp st r.
  assert (Hsub : forall t, free_of is_verdict t ->
            build_failed t = false /\ build_succeeded t = false).
  { unfold free_of, build_failed, build_succeeded, has_event.
    induction t as [|e t IH]; [auto|]. cbn. intros H.
    apply Bool.orb_false_iff in H as [He Ht]. destruct (IH Ht) as [-> ->].
    destruct e as [[]| | | | | | | | | | | | | | | | | | | | | | ];
      try discriminate; auto. }
  destruct (build_verdict w config pj pd pe rc bp st)
    as [(Ho & t & Et & Hq)|(Ho & t & Et & Hq)]; [left|right];
    (split; [exact Ho|]); fold r in Et; rewrite Et;
    destruct (Hsub t Hq) as [Hf Hs].
  - split; [|eauto]. unfold build_failed, has_event in *.
    now rewrite existsb_app, Hf.
  - split; [|eauto]. unfold build_succeeded, has_event in *.
    now rewrite existsb_app, Hs.
Qed.

Lemma operations_free_of p t :
  free_of p t -> free_of p (operations t).
Proof.
  unfold free_of, has_event, operations.
  induction t as [|e t IH]; [auto|]. cbn. intros H.
  apply Bool.orb_false_iff in H as [He Ht].
  destruct e; cbn; rewrite ?He; auto.
Qed.

Lemma clears_free_of t : free_of clear_event t -> clears t = [].
Proof.
  unfold free_of, has_event, clears.
  induction t as [|e t IH]; [auto|]. cbn. intros H.
  apply Bool.orb_false_iff in H as [He Ht].
  destruct e; try discriminate; cbn; auto.
Qed.

Section Strategy.

Variable w : World.
Variable config : Config.
Variable path_join : string -> string -> string.
Variable path_dirname : string -> string.

(** The choice of lines 34-47 of build.js. *)
Local Abbreviation fill :=
  (if truthy (gitUrl config) then
     if gt0 (autoUpdateInterval config)
     then log UsingGitClone ;; Build.cloneGitRepo w config
     else log UsingTarball ;; Build.downloadAndExtractTarball w config
   else if truthy (includeDir config)
        then Build.copyIncludedDir w config path_join path_dirname
        else log EmptyDataDirCreated).

Lemma fill_never_clears : confined (fun e => negb (clear_event e)) fill.
Proof.
  confine_with
    ltac:(progress unfold Build.downloadAndExtractTarball, Build.join).
Qed.

Lemma prepare_then (k : M unit) (d : jsval) st :
  (log BuildingPackage ;; ensureDir w d ;; emptyDir w d ;; k) st
  = match w_ensureDir w (clock st) d with
    | Failed code message =>
        (Throw (IoError code message), tick st,
         [Console BuildingPackage; EnsureDir d])
    | Ok _ =>
        match w_emptyDir w (S (clock st)) d with
        | Failed code message =>
            (Throw (IoError code message), tick (tick st),
             [Console BuildingPackage; EnsureDir d; EmptyDir d])
        | Ok _ =>
            let '(o, s, t) := k (tick (tick st)) in
            (o, s, [Console BuildingPackage; EnsureDir d; EmptyDir d] ++ t)
        end
    end.
Proof.
  unfold bind, log, ensureDir, emptyDir, call.
  destruct (w_ensureDir w (clock st) d) as [[]|c m]; cbn [clock tick];
    [destruct (w_emptyDir w (S (clock st)) d) as [[]|c m]|];
    try reflexivity.
  destruct (k (tick (tick st))) as [[o s] t]. reflexivity.
Qed.

Lemma prepareDataDir_steps st :
  Build.prepareDataDir w config path_join path_dirname st
  = (log BuildingPackage ;;
     ensureDir w (dataDir config) ;;
     emptyDir w (dataDir config) ;;
     fill) st.
Proof. reflexivity. Qed.

End Strategy.

(** X5.  The build makes sure the data directory exists and then empties
    it before it does anything else.  When either step fails the error is
    thrown on and no source is touched; when both succeed the directory is
    not emptied a second time, whatever source is then used. *)
Theorem data_directory_is_prepared_first :
  forall (w : World) (config : Config)
         (path_join : string -> string -> string)
         (path_dirname : string -> string) (st : state),
    let d := dataDir config in
    let r := Build.prepareDataDir w config path_join path_dirname st in
    (forall code message,
        w_ensureDir w (clock st) d = Failed code message ->
        outcome_of r = Throw (IoError code message) /\
        operations (trace_of r) = [EnsureDir d]) /\
    (forall code message,
        w_ensureDir w (clock st) d = Ok tt ->
        w_emptyDir w (S (clock st)) d = Failed code message ->
        outcome_of r = Throw (IoError code message) /\
        operations (trace_of r) = [EnsureDir d; EmptyDir d]) /\
    (w_ensureDir w (clock st) d = Ok tt ->
     w_emptyDir w (S (clock st)) d = Ok tt ->
     exists rest,
       operations (trace_of r) = EnsureDir d :: EmptyDir d :: rest /\
       clears rest = []).
Proof.
  intros w config pj pd st d r. subst r.
  rewrite prepareDataDir_steps, prepare_then. fold d.
  split; [|split].
  - intros code message ->. split; reflexivity.
  - intros code message -> ->. split; reflexivity.
  - intros -> ->.
    pose proof (free_of_confined clear_event _
                  (tick (tick st)) (fill_never_clears w config pj pd)) as H.
    unfold trace_of in *.
    match type of H with
    | free_of _ (snd ?x) => destruct x as [[o s] t]
    end.
    cbn [snd] in *. exists (operations t). split; [reflexivity|].
    apply clears_free_of. now apply operations_free_of.
Qed.

(** A sample run: the directory cannot be emptied, so the repository of the
    settings is neither downloaded nor cloned. *)
Lemma data_directory_is_prepared_first_witness :
  let r := Build.prepareDataDir cannot_empty (repoConfig (Num 0))
             sample_join sample_dirname init_state in
  outcome_of r = Throw (IoError "EACCES" "permission denied") /\
  operations (trace_of r)
  = [EnsureDir (VStr "/srv/data"); EmptyDir (VStr "/srv/data")].
Proof.
  intros r.
  destruct (data_directory_is_prepared_first cannot_empty (repoConfig (Num 0))
              sample_join sample_dirname init_state) as (_ & H & _).
  exact (H "EACCES" "permission denied" eq_refl eq_refl).
Defined.

(** X6.  A build fills the data directory from one source only.  With a
    repository URL nothing is copied from a local directory, and when the
    interval is positive nothing is downloaded either: the repository is
    cloned.  Without a repository URL nothing is cloned or downloaded, and
    when no local directory is configured either the build touches nothing
    but the data directory itself. *)
Theorem build_uses_one_source :
  forall (w : World) (config : Config)
         (path_join : string -> string -> string)
         (path_dirname : string -> string) (st : state),
    let t := trace_of (Build.prepareDataDir w config path_join path_dirname st) in
    (truthy (gitUrl config) = true ->
     free_of copy_event t /\
     (gt0 (autoUpdateInterval config) = true -> free_of archive_event t)) /\
    (truthy (gitUrl config) = false ->
     free_of clone_event t /\ free_of archive_event t /\
     (truthy (includeDir config) = false ->
      forall e, In e (operations t) ->
                e = EnsureDir (dataDir config) \/
                e = EmptyDir (dataDir config))).
Proof.
  intros w config pj pd st t. subst t. split.
  - intros Hgit. split; [|intros Hint];
      apply free_of_confined; unfold Build.prepareDataDir;
      rewrite Hgit; try rewrite Hint;
      confine_with
        ltac:(progress unfold Build.downloadAndExtractTarball, Build.join).
  - intros Hgit. split; [|split; [|intros Hinc]].
    1, 2: apply free_of_confined; unfold Build.prepareDataDir;
      rewrite Hgit;
      confine_with
        ltac:(progress unfold Build.downloadAndExtractTarball, Build.join).
    intros e. rewrite prepareDataDir_steps, prepare_then, Hgit, Hinc.
    destruct (w_ensureDir w (clock st) (dataDir config)) as [[]|c m];
      [destruct (w_emptyDir w (S (clock st)) (dataDir config)) as [[]|c m]|];
      cbn; intuition (subst; auto).
Qed.

(** A sample run: a repository with a positive interval is cloned, and no
    archive is requested. *)
Lemma build_uses_one_source_witness :
  let t := trace_of (Build.prepareDataDir calm (repoConfig (Num 5))
                       sample_join sample_dirname init_state) in
  free_of copy_event t /\ free_of archive_event t /\
  clones t = [Clone (VStr "https://github.com/acme/docs") (VStr "/srv/data")
                (VStr "main")].
Proof.
  intros t.
  destruct (build_uses_one_source calm (repoConfig (Num 5))
              sample_join sample_dirname init_state) as [H _].
  destruct (H eq_refl) as [Hc Ha].
  split; [exact Hc|]. split; [exact (Ha eq_refl)|reflexivity].
Defined.

(* ===================================================================== *)
(** ** A copy pass that meets no failure *)
(* ===================================================================== *)

Section CopyPass.

Variable w : World.
Variable config : Config.
Variable path_join : string -> string -> string.
Variable path_dirname : string -> string.
Variable source target : string.

Hypothesis source_is : includeDir config = VStr source.
Hypothesis target_is : dataDir config = VStr target.
Hypothesis ensureDir_ok : forall t p, w_ensureDir w t p = Ok tt.
Hypothesis copy_ok : forall t a b, w_copy w t a b = Ok tt.

Lemma copy_loop_plan files :
  forall st, exists st',
    for_each (Build.copyFile w config path_join path_dirname) files st
    = (Return tt, st',
       copy_plan path_join path_dirname source target files).
Proof.
  induction files as [|file rest IH]; intros st.
  - exists st. reflexivity.
  - cbn [for_each copy_plan flat_map].
    assert (E : Build.copyFile w config path_join path_dirname file st
                = (Return tt, tick (tick st),
                   [EnsureDir (VStr (path_dirname (path_join target file)));
                    Copy (path_join source file) (path_join target file)])).
    { unfold Build.copyFile, Build.join, Build.dataDir.
      rewrite source_is, target_is.
      unfold bind, ret, ensureDir, call.
      rewrite ensureDir_ok. cbn [clock tick]. now rewrite copy_ok. }
    destruct (IH (tick (tick st))) as (st' & E').
    exists st'. rewrite (bind_Return _ _ _ _ _ _ E), E'. reflexivity.
Qed.

End CopyPass.

(** X7.  When the listing answers and no directory creation or copy fails,
    the copy pass returns after copying every listed file once, in the
    order listed, from [includeDir/file] to [dataDir/file], each copy
    preceded by the creation of the target's directory; both counts it
    prints are the number of files listed.  An empty listing is a
    successful pass that copies nothing. *)
Theorem copy_pass_copies_every_listed_file :
  forall (w : World) (config : Config)
         (path_join : string -> string -> string)
         (path_dirname : string -> string)
         (source target : string) (files : list string) (st : state),
    includeDir config = VStr source ->
    dataDir config = VStr target ->
    w_glob w (clock st) (VStr source) (ignorePatterns config) = Ok files ->
    (forall t p, w_ensureDir w t p = Ok tt) ->
    (forall t a b, w_copy w t a b = Ok tt) ->
    let r := Build.copyIncludedDir w config path_join path_dirname st in
    outcome_of r = Return tt /\
    trace_of r
    = [Console CopyingDirectory;
       Glob (VStr source) (ignorePatterns config);
       Console (FoundFiles (List.length files))]
      ++ copy_plan path_join path_dirname source target files
      ++ [Console (CopySucceeded (List.length files))].
Proof.
  intros w config pj pd source target files st Hs Ht Hglob He Hc r. subst r.
  destruct (copy_loop_plan w config pj pd source target Hs Ht He Hc files
              (tick st)) as (st' & E).
  enough (R : Build.copyIncludedDir w config pj pd st
              = (Return tt, st',
                 [Console CopyingDirectory;
                  Glob (VStr source) (ignorePatterns config);
                  Console (FoundFiles (List.length files))]
                 ++ copy_plan pj pd source target files
                 ++ [Console (CopySucceeded (List.length files))]))
    by (rewrite R; split; reflexivity).
  unfold Build.copyIncludedDir.
  unfold bind at 1, log at 1. unfold try_catch, bind at 1, call.
  rewrite Hs, Hglob.
  unfold bind at 1, log at 1. unfold bind at 1.
  rewrite E. reflexivity.
Qed.

(** A sample run on the two files of the calm world. *)
Lemma copy_pass_copies_every_listed_file_witness :
  let r := Build.copyIncludedDir calm localConfig sample_join sample_dirname
             init_state in
  outcome_of r = Return tt /\
  trace_of r
  = [Console CopyingDirectory;
     Glob (VStr "/tmp/mydocs") (Some ["*.log"]);
     Console (FoundFiles 2);
     EnsureDir (VStr "/srv/data/a.md");
     Copy "/tmp/mydocs/a.md" "/srv/data/a.md";
     EnsureDir (VStr "/srv/data/guide/b.md");
     Copy "/tmp/mydocs/guide/b.md" "/srv/data/guide/b.md";
     Console (CopySucceeded 2)].
Proof.
  intros r.
  exact (copy_pass_copies_every_listed_file calm localConfig sample_join
           sample_dirname "/tmp/mydocs" "/srv/data" ["a.md"; "guide/b.md"]
           init_state eq_refl eq_refl eq_refl
           (fun _ _ => eq_refl) (fun _ _ _ => eq_refl)).
Defined.

(* ===================================================================== *)
(** ** The default configuration file *)
(* ===================================================================== *)

Section DefaultConfig.

Variable w : World.
Variable config : Config.
Variable path_join : string -> string -> string.
Variable path_dirname : string -> string.
Variable path_extname : string -> string.
Variable rootConfigPath : string.
Variable binPath : string.

(** The build after [createDefaultConfig]. *)
Local Abbreviation after_config :=
  (Build.prepareDataDir w config path_join path_dirname ;;
   (if truthy (enableBuildCleanup config)
    then Build.cleanupDataDir w config path_extname
    else log CleanupDisabled) ;;
   call (Chmod binPath) (fun t => w_chmod w t binPath) ;;
   log MadeExecutable ;;
   log BuildSucceeded).

Lemma after_config_writes_nothing :
  confined (fun e => negb (write_event e))
    (try_catch after_config (fun error => log BuildFailed ;; exit 1)).
Proof.
  confine_with
    ltac:(first [ apply cleanupLoop_confined; intros; reflexivity
                | progress unfold Build.downloadAndExtractTarball, Build.join ]).
Qed.

(** A guarded computation that starts with [createDefaultConfig], once
    the existence of the file is known. *)
Lemma createDefaultConfig_then (k : M unit) st :
  try_catch (Build.createDefaultConfig w rootConfigPath ;; k)
    (fun error => log BuildFailed ;; exit 1) st
  = if w_existsSync w (clock st) (VStr rootConfigPath)
    then
      let '(o, s, t) :=
        try_catch k (fun error => log BuildFailed ;; exit 1) (tick st) in
      (o, s, ExistsSync (VStr rootConfigPath) :: t)
    else
      match w_writeFile w (S (clock st)) rootConfigPath with
      | Ok _ =>
          let '(o, s, t) :=
            try_catch k (fun error => log BuildFailed ;; exit 1)
              (tick (tick st)) in
          (o, s, [ExistsSync (VStr rootConfigPath); WriteFile rootConfigPath;
                  Console CreatedDefaultConfig] ++ t)
      | Failed code message =>
          (Exit 1, tick (tick st),
           [ExistsSync (VStr rootConfigPath); WriteFile rootConfigPath;
            Console BuildFailed])
      end.
Proof.
  unfold Build.createDefaultConfig.
  unfold try_catch, bind, existsSync, call, log, ret, exit.
  destruct (w_existsSync w (clock st) (VStr rootConfigPath)); cbn [negb].
  - destruct (k (tick st)) as [[[[]|e|c] s] t]; reflexivity.
  - cbn [clock tick].
    destruct (w_writeFile w (S (clock st)) rootConfigPath) as [[]|code message];
      [|reflexivity].
    destruct (k (tick (tick st))) as [[[[]|e|c] s] t]; reflexivity.
Qed.

Lemma build_after_existsSync st :
  Build.build w config path_join path_dirname path_extname rootConfigPath
    binPath st
  = if w_existsSync w (clock st) (VStr rootConfigPath)
    then
      let '(o, s, t) :=
        try_catch after_config (fun error => log BuildFailed ;; exit 1)
          (tick st) in
      (o, s, ExistsSync (VStr rootConfigPath) :: t)
    else
      match w_writeFile w (S (clock st)) rootConfigPath with
      | Ok _ =>
          let '(o, s, t) :=
            try_catch after_config (fun error => log BuildFailed ;; exit 1)
              (tick (tick st)) in
          (o, s, [ExistsSync (VStr rootConfigPath); WriteFile rootConfigPath;
                  Console CreatedDefaultConfig] ++ t)
      | Failed code message =>
          (Exit 1, tick (tick st),
           [ExistsSync (VStr rootConfigPath); WriteFile rootConfigPath;
            Console BuildFailed])
      end.
Proof. apply createDefaultConfig_then. Qed.

End DefaultConfig.

(** X8.  The build never overwrites a configuration file that exists: it
    writes [docs-mcp.config.json] only when [existsSync] answered false,
    and then once, before anything else.  A write that fails ends the
    build with status 1 before the data directory is touched. *)
Theorem default_config_is_written_only_when_missing :
  forall (w : World) (config : Config)
         (path_join : string -> string -> string)
         (path_dirname path_extname : string -> string)
         (rootConfigPath binPath : string) (st : state),
    let r := Build.build w config path_join path_dirname path_extname
               rootConfigPath binPath st in
    (w_existsSync w (clock st) (VStr rootConfigPath) = true ->
     free_of write_event (trace_of r)) /\
    (w_existsSync w (clock st) (VStr rootConfigPath) = false ->
     exists rest,
       operations (trace_of r)
       = ExistsSync (VStr rootConfigPath) :: WriteFile rootConfigPath :: rest /\
       free_of write_event rest /\
       (forall code message,
           w_writeFile w (S (clock st)) rootConfigPath = Failed code message ->
           outcome_of r = Exit 1 /\ rest = [])).
Proof.
  intros w config pj pd pe rc bp st r. subst r.
  rewrite build_after_existsSync.
  pose proof (after_config_writes_nothing w config pj pd pe bp) as Hq.
  split; intros ->.
  - apply (free_of_confined write_event) with (st := tick st) in Hq.
    unfold trace_of in *.
    match type of Hq with
    | free_of _ (snd ?x) => destruct x as [[o s] t]
    end.
    exact Hq.
  - destruct (w_writeFile w (S (clock st)) rc) as [[]|code message].
    + apply (free_of_confined write_event) with (st := tick (tick st)) in Hq.
      unfold trace_of in *.
      match type of Hq with
      | free_of _ (snd ?x) => destruct x as [[o s] t]
      end.
      cbn [snd] in *. exists (operations t). split; [reflexivity|].
      split; [now apply operations_free_of|]. discriminate.
    + exists []. split; [reflexivity|]. split; [reflexivity|].
      intros c m _. split; reflexivity.
Qed.

(** A sample run: on a read-only checkout without a configuration file the
    build stops at the write. *)
Lemma default_config_is_written_only_when_missing_witness :
  let r := Build.build fresh_checkout localConfig sample_join sample_dirname
             sample_extname "/pkg/docs-mcp.config.json" "/pkg/bin/mcp"
             init_state in
  outcome_of r = Exit 1 /\
  operations (trace_of r)
  = [ExistsSync (VStr "/pkg/docs-mcp.config.json");
     WriteFile "/pkg/docs-mcp.config.json"].
Proof.
  intros r.
  destruct (default_config_is_written_only_when_missing fresh_checkout
              localConfig sample_join sample_dirname sample_extname
              "/pkg/docs-mcp.config.json" "/pkg/bin/mcp" init_state)
    as [_ H].
  destruct (H eq_refl) as (rest & Hops & _ & Hfail).
  destruct (Hfail _ _ eq_refl) as [Ho Hrest].
  split; [exact Ho|]. fold r in Hops. rewrite Hops, Hrest. reflexivity.
Defined.

(* ===================================================================== *)
(** ** Repository addresses *)
(* ===================================================================== *)

Lemma match_url_mentions (s : string) :
  mentions "github.com/" s = false -> GitHub.match_url s = None.
Proof.
  induction s as [|c s IH]; cbn [mentions GitHub.match_url];
    unfold GitHub.match_here.
  - reflexivity.
  - destruct (GitHub.strip_prefix "github.com/" (String c s));
      [discriminate|]. exact IH.
Qed.

Lemma split_slash_owner (owner rest : string) :
  GitHub.has_slash owner = false ->
  GitHub.split_slash (owner ++ "/" ++ rest) = Some (owner, rest).
Proof.
  induction owner as [|c owner IH]; cbn in *; [reflexivity|].
  intros H. apply Bool.orb_false_iff in H as [-> H].
  now rewrite (IH H).
Qed.

Lemma has_slash_app (a b : string) :
  GitHub.has_slash (a ++ b) = GitHub.has_slash a || GitHub.has_slash b.
Proof.
  induction a as [|c a IH]; cbn; [reflexivity|].
  now rewrite IH, Bool.orb_assoc.
Qed.

Lemma length_append (a b : string) :
  String.length (a ++ b) = (String.length a + String.length b)%nat.
Proof. induction a as [|c a IH]; cbn; [reflexivity|now rewrite IH]. Qed.

Lemma append_assoc_local (a b c : string) :
  (a ++ (b ++ c) = (a ++ b) ++ c)%string.
Proof. induction a as [|x a IH]; cbn; [reflexivity|now rewrite IH]. Qed.

Lemma append_git_alone (r : string) :
  String.eqb (r ++ ".git") ".git" = String.eqb r "".
Proof.
  destruct r as [|c r]; [reflexivity|]. cbn [String.eqb].
  destruct (String.eqb_spec (String c r ++ ".git") ".git") as [E|]; [|reflexivity].
  apply (f_equal String.length) in E. cbn in E.
  rewrite length_append in E. cbn in E. lia.
Qed.

Lemma lazy_repo_drops_git (repo : string) :
  repo <> "" -> GitHub.lazy_repo (repo ++ ".git") = repo.
Proof.
  induction repo as [|c r IH]; [congruence|]. intros _.
  cbn [append GitHub.lazy_repo]. rewrite append_git_alone.
  destruct r as [|c' r]; [reflexivity|].
  cbn [String.eqb]. now rewrite IH.
Qed.

Lemma lazy_repo_whole (repo : string) :
  ends_with ".git" repo = false -> GitHub.lazy_repo repo = repo.
Proof.
  induction repo as [|c r IH]; [reflexivity|].
  cbn [ends_with GitHub.lazy_repo]. intros H.
  apply Bool.orb_false_iff in H as [_ H].
  rewrite (IH H).
  destruct r as [|c' r]; [reflexivity|].
  cbn [ends_with] in H. apply Bool.orb_false_iff in H as [-> _].
  reflexivity.
Qed.

Lemma match_here_owner_repo (owner rest : string) :
  owner <> "" -> rest <> "" ->
  GitHub.has_slash owner = false -> GitHub.has_slash rest = false ->
  GitHub.match_here ("github.com/" ++ owner ++ "/" ++ rest)
  = Some (owner, GitHub.lazy_repo rest).
Proof.
  intros Ho Hr So Sr. unfold GitHub.match_here.
  change (GitHub.strip_prefix "github.com/"
            ("github.com/" ++ owner ++ "/" ++ rest))
    with (Some (owner ++ "/" ++ rest)%string).
  cbv beta iota.
  rewrite (split_slash_owner owner rest So), Sr.
  apply String.eqb_neq in Ho, Hr. now rewrite Ho, Hr.
Qed.

Lemma match_url_here (s : string) r :
  GitHub.match_here s = Some r -> GitHub.match_url s = Some r.
Proof. intros H. destruct s; cbn [GitHub.match_url]; now rewrite H. Qed.

Lemma match_url_https (rest : string) :
  GitHub.match_url ("https://" ++ rest) = GitHub.match_url rest.
Proof. reflexivity. Qed.

(** X9.  A repository address that does not contain [github.com/] (an SSH
    address, another host) is never matched by the archive pattern: the
    build sends no request and goes straight to one clone of that address,
    returning exactly when the clone succeeds; the server sends no request,
    does not empty the data directory, and throws. *)
Theorem address_without_github_is_never_downloaded :
  forall (w : World) (config : Config) (url : string) (st : state),
    gitUrl config = VStr url ->
    mentions "github.com/" url = false ->
    let b := Build.downloadAndExtractTarball w config st in
    let s := Server.downloadAndExtractTarballRuntime w config st in
    operations (trace_of b)
    = [Clone (VStr url) (dataDir config) (gitRef config)] /\
    (outcome_of b = Return tt <->
     w_clone w (clock st) (VStr url) (dataDir config) (gitRef config) = Ok tt) /\
    operations (trace_of s) = [] /\
    outcome_of s
    = Throw (JsError "Invalid or unsupported Git URL for tarball download.").
Proof.
  intros w config url st Hurl Hno b s. subst b s.
  unfold Build.downloadAndExtractTarball, Server.downloadAndExtractTarballRuntime.
  rewrite Hurl, (match_url_mentions url Hno).
  unfold Build.cloneGitRepo, Build.dataDir, clone.
  unfold try_catch, bind, log, call, throw. rewrite Hurl.
  destruct (w_clone w (clock st) (VStr url) (dataDir config) (gitRef config))
    as [[]|code message]; cbn; repeat split; intros; try discriminate; auto.
Qed.

(** A sample run on an SSH address. *)
Lemma address_without_github_is_never_downloaded_witness :
  let b := Build.downloadAndExtractTarball calm sshConfig init_state in
  let s := Server.downloadAndExtractTarballRuntime calm sshConfig init_state in
  operations (trace_of b)
  = [Clone (VStr "git@github.com:acme/docs.git") (VStr "/srv/data")
       (VStr "main")] /\
  outcome_of b = Return tt /\
  operations (trace_of s) = [].
Proof.
  intros b s.
  destruct (address_without_github_is_never_downloaded calm sshConfig
              "git@github.com:acme/docs.git" init_state eq_refl eq_refl)
    as (Hb & Hr & Hs & _).
  split; [exact Hb|]. split; [apply Hr; reflexivity|exact Hs].
Defined.

Section FirstRequest.

Variable w : World.
Variable config : Config.

Lemma build_attempt_starts owner repo ref st :
  exists rest,
    trace_of (Build.downloadAttempt w config owner repo ref st)
    = Console (Attempting ref (GitHub.tarballUrl owner repo ref))
      :: HttpGet (GitHub.tarballUrl owner repo ref) :: rest.
Proof.
  unfold Build.downloadAttempt, bind, log, httpGet, extract, call.
  destruct (w_httpGet w (clock st) _) as [status|message];
    [destruct (_ && _)|]; cbn [clock tick];
    try destruct (w_extract w _ _) as [[]|c m]; cbn; eauto.
Qed.

Lemma try_catch_starts {A} (m : M A) (h : error -> M A) st e1 e2 rest :
  trace_of (m st) = e1 :: e2 :: rest ->
  exists rest', trace_of (try_catch m h st) = e1 :: e2 :: rest'.
Proof.
  unfold try_catch, trace_of.
  destruct (m st) as [[[a|e|c] s] t]; cbn [snd]; intros ->; eauto.
  destruct (h e s) as [[o' s'] t']. cbn. eauto.
Qed.

End FirstRequest.

(** X10.  An HTTPS address of GitHub names its owner and repository with
    or without the [.git] ending: both forms are matched with the same two
    groups, so the build asks for the same archive,
    [https://github.com/<owner>/<repo>/archive/<ref>.tar.gz], first. *)
Theorem github_address_names_owner_and_repo :
  forall (owner repo : string),
    owner <> "" -> repo <> "" ->
    GitHub.has_slash owner = false -> GitHub.has_slash repo = false ->
    let short := ("https://github.com/" ++ owner ++ "/" ++ repo)%string in
    GitHub.match_url (short ++ ".git") = Some (owner, repo) /\
    (ends_with ".git" repo = false ->
     GitHub.match_url short = Some (owner, repo)) /\
    (forall (w : World) (config : Config) (st : state),
        gitUrl config = VStr (short ++ ".git")
        \/ (gitUrl config = VStr short /\ ends_with ".git" repo = false) ->
        exists rest,
          downloads (trace_of (Build.downloadAndExtractTarball w config st))
          = (short ++ "/archive/"
             ++ toString (Js.or_else (gitRef config) (VStr "main"))
             ++ ".tar.gz")%string :: rest).
Proof.
  intros owner repo Ho Hr So Sr short.
  assert (L : GitHub.match_url (short ++ ".git") = Some (owner, repo)).
  { subst short.
    replace (("https://github.com/" ++ owner ++ "/" ++ repo) ++ ".git")%string
      with ("https://" ++ "github.com/" ++ owner ++ "/" ++ (repo ++ ".git"))%string.
    2:{ cbn. do 19 f_equal. rewrite <- !append_assoc_local. reflexivity. }
    rewrite match_url_https. apply match_url_here.
    rewrite match_here_owner_repo; auto.
    - now rewrite lazy_repo_drops_git.
    - destruct repo; discriminate.
    - now rewrite has_slash_app, Sr. }
  assert (S' : ends_with ".git" repo = false ->
               GitHub.match_url short = Some (owner, repo)).
  { intros He. subst short.
    change ("https://github.com/" ++ owner ++ "/" ++ repo)%string
      with ("https://" ++ "github.com/" ++ owner ++ "/" ++ repo)%string.
    rewrite match_url_https. apply match_url_here.
    rewrite match_here_owner_repo; auto.
    now rewrite lazy_repo_whole. }
  split; [exact L|]. split; [exact S'|].
  intros w config st Hurl.
  assert (M' : exists url, gitUrl config = VStr url /\
                           GitHub.match_url url = Some (owner, repo)).
  { destruct Hurl as [H|[H He]]; eauto. }
  destruct M' as (url & Hu & Hm).
  unfold Build.downloadAndExtractTarball. rewrite Hu, Hm.
  destruct (build_attempt_starts w config owner repo
              (Js.or_else (gitRef config) (VStr "main")) st) as (rest & E).
  match goal with
  | |- context [try_catch ?m ?h st] =>
      destruct (try_catch_starts m h st _ _ _ E) as (rest' & E')
  end.
  rewrite E'. cbn [downloads flat_map app]. eexists.
  unfold GitHub.tarballUrl. subst short. cbn [append].
  do 19 f_equal. rewrite <- !append_assoc_local. reflexivity.
Qed.

(** A sample run. *)
Lemma github_address_names_owner_and_repo_witness :
  GitHub.match_url "https://github.com/acme/docs.git" = Some ("acme", "docs") /\
  GitHub.match_url "https://github.com/acme/docs" = Some ("acme", "docs").
Proof.
  assert (Ho : "acme" <> "") by discriminate.
  assert (Hr : "docs" <> "") by discriminate.
  destruct (github_address_names_owner_and_repo "acme" "docs" Ho Hr
              eq_refl eq_refl) as (H1 & H2 & _).
  split; [exact H1|exact (H2 eq_refl)].
Defined.

(** X11.  A download attempt hands the response to the extractor only when
    the status is between 200 and 299, and returns exactly when, on top of
    that, the extraction succeeds; a 199, a 300 or a missing response
    extracts nothing.  At server start the attempt empties the data
    directory first, and sends no request when that fails. *)
Theorem archive_is_extracted_only_after_2xx :
  forall (w : World) (config : Config) (owner repo : string) (ref : jsval)
         (st : state),
    let url := GitHub.tarballUrl owner repo ref in
    let b := Build.downloadAttempt w config owner repo ref st in
    let s := Server.downloadAttempt w config owner repo ref st in
    (has_event extract_event (trace_of b)
     = accepted (w_httpGet w (clock st) url)) /\
    (outcome_of b = Return tt <->
     accepted (w_httpGet w (clock st) url) = true /\
     w_extract w (S (clock st)) (dataDir config) = Ok tt) /\
    (w_emptyDir w (clock st) (dataDir config) = Ok tt ->
     has_event extract_event (trace_of s)
     = accepted (w_httpGet w (S (clock st)) url) /\
     (outcome_of s = Return tt <->
      accepted (w_httpGet w (S (clock st)) url) = true /\
      w_extract w (S (S (clock st))) (dataDir config) = Ok tt)) /\
    (forall code message,
        w_emptyDir w (clock st) (dataDir config) = Failed code message ->
        free_of request_event (trace_of s) /\
        outcome_of s = Throw (IoError code message)).
Proof.
  intros w config owner repo ref st url b s. subst b s.
  unfold Build.downloadAttempt, Server.downloadAttempt, Build.dataDir.
  fold url. unfold bind, log, emptyDir, httpGet, extract, call, accepted.
  split; [|split; [|split]].
  - destruct (w_httpGet w (clock st) url) as [status|message];
      [destruct (_ && _)|]; cbn [clock tick];
      try destruct (w_extract w _ _) as [[]|c m]; reflexivity.
  - destruct (w_httpGet w (clock st) url) as [status|message];
      [destruct (_ && _)|]; cbn [clock tick];
      try destruct (w_extract w _ _) as [[]|c m]; cbn;
      split; try (intros [? ?]); try discriminate; auto.
  - intros ->. cbn [clock tick].
    destruct (w_httpGet w (S (clock st)) url) as [status|message];
      [destruct (_ && _)|]; cbn [clock tick];
      try destruct (w_extract w _ _) as [[]|c m]; cbn;
      (split; [reflexivity|]);
      split; try (intros [? ?]); try discriminate; auto.
  - intros code message ->. split; reflexivity.
Qed.

(** A sample run: the host answers 300, nothing is extracted. *)
Lemma archive_is_extracted_only_after_2xx_witness :
  let s := Server.downloadAttempt archive_redirects (repoConfig (Num 0))
             "acme" "docs" (VStr "main") init_state in
  has_event extract_event (trace_of s) = false /\
  outcome_of s <> Return tt.
Proof.
  intros s.
  destruct (archive_is_extracted_only_after_2xx archive_redirects
              (repoConfig (Num 0)) "acme" "docs" (VStr "main") init_state)
    as (_ & _ & H & _).
  destruct (H eq_refl) as [He Hr].
  split; [exact He|].
  intros Ho. apply Hr in Ho. destruct Ho as [Ho _]. discriminate Ho.
Defined.

(* ===================================================================== *)
(** ** Tool calls that reach the search engine *)
(* ===================================================================== *)

(** X12.  A call for the configured tool with a usable query runs one
    search, always in the configured data directory and with the query as
    given, whatever else the arguments hold.  The text the engine returns
    is relayed unchanged; when the engine fails the call still returns,
    with [isError] set, and nothing is thrown to the protocol layer. *)
Theorem search_result_is_relayed :
  forall (w : World) (config : Config) (request : Server.request)
         (st : state),
    strict_eq (Server.name request) (toolName config) = true ->
    lacks_query (Server.arguments request) = false ->
    let query := Js.get (Server.arguments request) "query" in
    let r := Server.callTool w config request st in
    searches (trace_of r) = [(dataDir config, query)] /\
    state_of r = tick st /\
    (forall result,
        w_search w (clock st) (dataDir config) query = Ok result ->
        outcome_of r = Return (Server.mkResponse result false)) /\
    (forall code message,
        w_search w (clock st) (dataDir config) query = Failed code message ->
        exists text, outcome_of r = Return (Server.mkResponse text true)).
Proof.
  intros w config request st Hname Hq query r. subst r.
  unfold lacks_query in Hq.
  apply Bool.orb_false_iff in Hq as [Hobj Hquery].
  unfold Server.callTool, Server.executeDocsSearch.
  rewrite Hname, Hobj, Hquery. cbn [negb]. fold query.
  unfold try_catch, bind, log, call, throw, ret.
  destruct (w_search w (clock st) (dataDir config) query)
    as [result|code message]; cbn.
  - repeat split; intros; try discriminate; congruence.
  - repeat split; intros; try discriminate; eauto.
Qed.

(** A sample run: the [path] of the arguments is not where the search
    runs. *)
Lemma search_result_is_relayed_witness :
  let r := Server.callTool calm localConfig install_query init_state in
  searches (trace_of r) = [(VStr "/srv/data", VStr "install")] /\
  outcome_of r = Return (Server.mkResponse "results" false).
Proof.
  intros r.
  destruct (search_result_is_relayed calm localConfig install_query
              init_state eq_refl eq_refl) as (Hs & _ & Hok & _).
  split; [exact Hs|exact (Hok "results" eq_refl)].
Defined.

Lemma same_timers_refl st : same_timers st st.
Proof. repeat split. Qed.

Lemma same_timers_trans a b c :
  same_timers a b -> same_timers b c -> same_timers a c.
Proof.
  unfold same_timers. intros (H1 & H2 & H3 & H4) (K1 & K2 & K3 & K4).
  repeat split; congruence.
Qed.

Section Session.

Import Server.
Variable w : World.
Variable config : Config.

(** What answering one request can do. *)
Lemma answer_footprint request st :
  exists reply st' t,
    answer w config request st = (Return reply, st', t) /\
    same_timers st st' /\
    (operations t = [] \/
     exists q, operations t = [Search (dataDir config) q]) /\
    (strict_eq (name request) (toolName config) = false ->
     t = [] /\ is_method_not_found reply = true).
Proof.
  unfold answer, callTool, executeDocsSearch.
  unfold try_catch, bind, log, throw, ret, call.
  destruct (strict_eq (name request) (toolName config)); cbn [negb].
  - destruct (negb (truthy (arguments request))
              || negb (String.eqb (typeof (arguments request)) "object"));
      [|destruct (negb (truthy (Js.get (arguments request) "query")));
        [|destruct (w_search w (clock st) (dataDir config)
                      (Js.get (arguments request) "query"))]];
      cbn; do 3 eexists; (split; [reflexivity|]);
      (split; [repeat split|]);
      (split; [cbn; eauto|discriminate]).
  - cbn. do 3 eexists. split; [reflexivity|].
    split; [apply same_timers_refl|]. split; [auto|]. auto.
Qed.

Lemma serve_footprint requests :
  forall st, exists replies st' t,
    serve w config requests st = (Return replies, st', t) /\
    same_timers st st' /\
    (forall e, In e (operations t) ->
               exists q, e = Search (dataDir config) q) /\
    (List.length (operations t) <= List.length requests)%nat /\
    ((forall request, In request requests ->
         strict_eq (name request) (toolName config) = false) ->
     t = [] /\ forallb is_method_not_found replies = true).
Proof.
  induction requests as [|request rest IH]; intros st.
  - exists [], st, []. cbn. repeat split; auto using same_timers_refl.
    intros e [].
  - destruct (answer_footprint request st)
      as (r & st1 & t1 & E1 & T1 & O1 & U1).
    destruct (IH st1) as (rs & st2 & t2 & E2 & T2 & O2 & L2 & U2).
    exists (r :: rs), st2, (t1 ++ t2 ++ []).
    cbn [serve]. unfold bind at 1. rewrite E1.
    unfold bind at 1. rewrite E2. cbn [ret].
    split; [reflexivity|]. split; [eapply same_timers_trans; eauto|].
    rewrite app_nil_r, operations_app, length_app.
    split; [|split].
    + intros e He. apply in_app_or in He as [He|He]; [|auto].
      destruct O1 as [O1|[q O1]]; rewrite O1 in He.
      * destruct He.
      * destruct He as [<-|[]]. eauto.
    + destruct O1 as [O1|[q O1]]; rewrite O1; cbn; lia.
    + intros Hall.
      destruct (U1 (Hall request (or_introl eq_refl))) as [-> Hr].
      destruct U2 as [-> Hrs]; [intros q Hq; apply Hall; now right|].
      cbn. now rewrite Hr, Hrs.
Qed.

End Session.

(** X13.  Answering requests never disturbs the server: whatever the
    requests and whatever the engine answers, a session leaves the Git
    handle, the update timer and the pending timers as they were, and the
    only operations it performs are searches in the configured data
    directory, at most one per request.  Requests for any other tool name
    are each answered with the protocol error "method not found", without
    a search and without a line on the console. *)
Theorem requests_never_disturb_the_server :
  forall (w : World) (config : Config) (requests : list Server.request)
         (st : state),
    let r := Server.serve w config requests st in
    same_timers st (state_of r) /\
    (forall e, In e (operations (trace_of r)) ->
               exists q, e = Search (dataDir config) q) /\
    (List.length (operations (trace_of r)) <= List.length requests)%nat /\
    ((forall request, In request requests ->
         strict_eq (Server.name request) (toolName config) = false) ->
     trace_of r = [] /\
     exists replies,
       outcome_of r = Return replies /\
       List.length replies = List.length requests /\
       forallb is_method_not_found replies = true).
Proof.
  intros w config requests st r. subst r.
  destruct (serve_footprint w config requests st)
    as (rs & st' & t & E & T & O & L & U).
  destruct (serve_answers_all w config requests st)
    as (rs' & st'' & t' & E' & Len).
  rewrite E in E'. inversion E'; subst rs' st'' t'.
  rewrite E. unfold state_of, trace_of, outcome_of. cbn [fst snd].
  split; [exact T|]. split; [exact O|]. split; [exact L|].
  intros Hall. destruct (U Hall) as [-> Hrs]. split; [reflexivity|].
  exists rs. auto.
Qed.

(** A sample run: two calls for a tool the server does not offer. *)
Lemma requests_never_disturb_the_server_witness :
  let r := Server.serve calm localConfig [other_tool; other_tool] git_ready in
  trace_of r = [] /\
  exists replies,
    outcome_of r = Return replies /\
    List.length replies = 2%nat /\
    forallb is_method_not_found replies = true.
Proof.
  intros r.
  destruct (requests_never_disturb_the_server calm localConfig
              [other_tool; other_tool] git_ready) as (_ & _ & _ & H).
  apply H. intros request [<-|[<-|[]]]; reflexivity.
Defined.

(* ===================================================================== *)
(** ** What an update cycle asks of Git *)
(* ===================================================================== *)

(** X14.  An update cycle calls Git in a fixed order and stops at the
    first step that fails or says no: after a repository check that fails
    or answers no, nothing else is asked; after a fetch that fails, no
    status; after a status that fails or reports the branch not behind, no
    pull.  It pulls the configured ref exactly when the directory is a
    repository, the fetch succeeded and the status reports the branch
    behind by more than 0 commits.  It never clones, downloads or empties
    the data directory. *)
Theorem update_cycle_calls_git_in_order :
  forall (w : World) (config : Config) (st : state),
    truthy (gitUrl config) = true ->
    git st = true ->
    let t := trace_of (Server.checkForUpdates w config st) in
    let k := clock st in
    (git_operations t = [CheckIsRepo] \/
     git_operations t = [CheckIsRepo; Fetch] \/
     git_operations t = [CheckIsRepo; Fetch; Status] \/
     git_operations t = [CheckIsRepo; Fetch; Status; Pull (gitRef config)]) /\
    (In (Pull (gitRef config)) t <->
     w_checkIsRepo w k = Ok true /\
     w_fetch w (S k) = Ok tt /\
     exists behind, w_status w (S (S k)) = Ok behind /\ 0 < behind) /\
    acquisitions t = git_operations t /\
    (w_checkIsRepo w k <> Ok true -> git_operations t = [CheckIsRepo]) /\
    (w_checkIsRepo w k = Ok true ->
     (w_fetch w (S k) <> Ok tt -> git_operations t = [CheckIsRepo; Fetch]) /\
     (w_fetch w (S k) = Ok tt ->
      ((forall behind, w_status w (S (S k)) = Ok behind -> behind <= 0) ->
       git_operations t = [CheckIsRepo; Fetch; Status]) /\
      (forall behind,
          w_status w (S (S k)) = Ok behind -> 0 < behind ->
          git_operations t
          = [CheckIsRepo; Fetch; Status; Pull (gitRef config)]))).
Proof.
  intros w config st Hurl Hgit t k. subst t k.
  unfold Server.checkForUpdates, Server.getGit, bind.
  rewrite Hurl, Hgit. cbn [negb orb].
  unfold try_finally, try_catch, call, log, ret,
    Server.setUpdateTimer, gt0.
  cbn [clock tick].
  destruct (w_checkIsRepo w (clock st)) as [[|]|c1 m1].
  2, 3: destruct (autoUpdateInterval config) as [minutes|];
    [destruct (0 <? minutes)|]; cbn;
    (split; [auto|]);
    (split; [split; [intros H; exfalso; intuition discriminate
                    |intros (H & _); discriminate]|]);
    (split; [reflexivity|]);
    (split; [reflexivity|discriminate]).
  cbn.
  destruct (w_fetch w (S (clock st))) as [[]|c2 m2].
  2: destruct (autoUpdateInterval config) as [minutes|];
    [destruct (0 <? minutes)|]; cbn;
    (split; [auto|]);
    (split; [split; [intros H; exfalso; intuition discriminate
                    |intros (_ & H & _); discriminate]|]);
    (split; [reflexivity|]);
    (split; [congruence|intros _]);
    (split; [reflexivity|discriminate]).
  cbn.
  destruct (w_status w (S (S (clock st)))) as [behind|c3 m3].
  2: destruct (autoUpdateInterval config) as [minutes|];
    [destruct (0 <? minutes)|]; cbn;
    (split; [auto|]);
    (split; [split; [intros H; exfalso; intuition discriminate
                    |intros (_ & _ & b & H & _); discriminate]|]);
    (split; [reflexivity|]);
    (split; [congruence|intros _]);
    (split; [congruence|intros _]);
    (split; [reflexivity|discriminate]).
  cbn.
  destruct (0 <? behind) eqn:Hb.
  - apply Z.ltb_lt in Hb. cbn.
    destruct (w_pull w (S (S (S (clock st)))) (gitRef config)) as [[]|c4 m4];
      destruct (autoUpdateInterval config) as [minutes|];
      try destruct (0 <? minutes); cbn;
      (split; [auto 6|]);
      (split; [split; [intros _; eauto|intros _; auto 8]|]);
      (split; [reflexivity|]);
      (split; [congruence|intros _]);
      (split; [congruence|intros _]);
      (split; [intros Hall; specialize (Hall behind eq_refl); lia
              |reflexivity]).
  - apply Z.ltb_ge in Hb.
    destruct (autoUpdateInterval config) as [minutes|];
      [destruct (0 <? minutes)|]; cbn;
      (split; [auto|]);
      (split; [split; [intros H; exfalso; intuition discriminate
                      |intros (_ & _ & b & H & Hpos); inversion H; lia]|]);
      (split; [reflexivity|]);
      (split; [congruence|intros _]);
      (split; [congruence|intros _]);
      (split; [reflexivity|intros b H Hpos; inversion H; lia]).
Qed.

(** A sample run: the repository is current, so nothing is pulled. *)
Lemma update_cycle_calls_git_in_order_witness :
  let t := trace_of (Server.checkForUpdates calm (repoConfig (Num 5))
                       git_ready) in
  ~ In (Pull (VStr "main")) t /\ acquisitions t = git_operations t /\
  git_operations t = [CheckIsRepo; Fetch; Status].
Proof.
  intros t.
  destruct (update_cycle_calls_git_in_order calm (repoConfig (Num 5))
              git_ready eq_refl eq_refl) as (_ & Hpull & Hacq & _ & Hstop).
  split; [|split; [exact Hacq|]].
  - intros Hin. apply Hpull in Hin.
    destruct Hin as (_ & _ & behind & Hs & Hpos).
    inversion Hs. subst behind. exact (Z.lt_irrefl 0 Hpos).
  - destruct (Hstop eq_refl) as [_ Hfetch].
    destruct (Hfetch eq_refl) as [Hnot _].
    apply Hnot. intros behind Hs. inversion Hs. apply Z.le_refl.
Defined.

(* ===================================================================== *)
(** ** The start of the server *)
(* ===================================================================== *)

Section ServerParts.

Variable w : World.
Variable config : Config.
Variable P : event -> bool.

Lemma confined_clearUpdateTimer :
  (forall id, P (ClearTimeout id) = true) ->
  confined P Server.clearUpdateTimer.
Proof.
  intros H st. unfold Server.clearUpdateTimer.
  destruct (updateTimer st); cbn; [now rewrite H|reflexivity].
Qed.

Lemma confined_setUpdateTimer ms :
  (forall id, P (SetTimeout id ms) = true) ->
  confined P (Server.setUpdateTimer ms).
Proof. intros H st. cbn. now rewrite H. Qed.

Lemma confined_initGit : confined P Server.initGit.
Proof. intros st. reflexivity. Qed.

Lemma confined_getGit : confined P Server.getGit.
Proof. intros st. reflexivity. Qed.

Lemma no_exit_clearUpdateTimer : no_exit Server.clearUpdateTimer.
Proof.
  intros st c. unfold Server.clearUpdateTimer, outcome_of.
  destruct (updateTimer st); discriminate.
Qed.

Lemma no_exit_setUpdateTimer ms : no_exit (Server.setUpdateTimer ms).
Proof. intros st c. discriminate. Qed.

Lemma no_exit_initGit : no_exit Server.initGit.
Proof. intros st c. discriminate. Qed.

Lemma no_exit_getGit : no_exit Server.getGit.
Proof. intros st c. discriminate. Qed.

End ServerParts.

Ltac server_parts :=
  first [ apply confined_clearUpdateTimer; intros; reflexivity
        | apply confined_setUpdateTimer; intros; reflexivity
        | apply confined_initGit
        | apply confined_getGit
        | progress unfold Server.downloadAndExtractTarballRuntime ].

Ltac server_stays :=
  first [ apply no_exit_clearUpdateTimer
        | apply no_exit_setUpdateTimer
        | apply no_exit_initGit
        | apply no_exit_getGit
        | progress unfold Server.downloadAndExtractTarballRuntime ].

Ltac exits_1 :=
  repeat first
    [ apply exits_only_no_exit; solve [stay_with server_stays]
    | apply exits_only_exit
    | apply exits_only_if
    | apply exits_only_try_catch; [|intros ?]
    | apply exits_only_bind; [|intros ?]
    | match goal with
      | |- exits_only _ (match ?x with _ => _ end) => destruct x
      end ].

Section Start.

Variable w : World.
Variable config : Config.
Variable args : Args.
Variable env : Env.

(** Everything [run] does before it connects the transport. *)
Local Abbreviation preparation :=
  (log StartingServer ;;
   (if truthy (gitUrl config)
    then log (UsingGitRepository (autoUpdateInterval config))
    else if truthy (includeDir config) then log UsingStaticDirectory
    else ret tt) ;;
   usePrebuiltData <- Server.detectPrebuilt w config args env ;;
   Server.initContent w config args env usePrebuiltData).

Lemma checkForUpdates_no_exit : no_exit (Server.checkForUpdates w config).
Proof. stay_with server_stays. Qed.

Lemma preparation_exits_1 : exits_only 1 preparation.
Proof. exits_1. Qed.

Lemma preparation_is_offline :
  confined (fun e => negb (connect_event e || running_line e)) preparation.
Proof. confine_with server_parts. Qed.

Lemma run_steps st :
  Server.run w config args env st
  = try_catch (preparation ;; call Connect (w_connect w) ;; log ServerRunning)
      (fun error => log StartError ;; exit 1) st.
Proof.
  unfold Server.run, try_catch.
  match goal with
  | |- (match ?a with _ => _ end) = (match ?b with _ => _ end) =>
      replace a with b; [reflexivity|]
  end.
  repeat (rewrite bind_assoc; apply bind_ext; intros ? ?). reflexivity.
Qed.

End Start.

Lemma free_of_or p q t :
  free_of (fun e => p e || q e) t -> free_of p t /\ free_of q t.
Proof.
  unfold free_of, has_event. induction t as [|e t IH]; [auto|].
  cbn. intros H. apply Bool.orb_false_iff in H as [He Ht].
  apply Bool.orb_false_iff in He as [-> ->]. destruct (IH Ht) as [-> ->].
  auto.
Qed.

Lemma free_of_app p t1 t2 :
  free_of p t1 -> free_of p t2 -> free_of p (t1 ++ t2).
Proof.
  unfold free_of. intros H1 H2. now rewrite has_event_app, H1, H2.
Qed.

Lemma bind_Exit {A B} (m : M A) (k : A -> M B) st c st1 t1 :
  m st = (Exit c, st1, t1) -> bind m k st = (Exit c, st1, t1).
Proof. intros H. unfold bind. now rewrite H. Qed.

Lemma run_verdict (w : World) (config : Config) (args : Args) (env : Env)
    (st : state) :
  let r := Server.run w config args env st in
  (outcome_of r = Return tt /\
   exists t, trace_of r = t ++ [Connect; Console ServerRunning] /\
             free_of connect_event t /\ free_of running_line t) \/
  (outcome_of r = Exit 1 /\ free_of running_line (trace_of r)).
Proof.
  intros r. subst r. rewrite run_steps.
  pose proof (free_of_confined _ _ st
                (preparation_is_offline w config args env)) as Hq.
  apply free_of_or in Hq as [Hc Hr].
  pose proof (preparation_exits_1 w config args env st) as Hx.
  unfold try_catch, outcome_of, trace_of in *.
  match goal with
  | |- context [bind ?p ?k st] =>
      destruct (p st) as [[[[]|e|c] s1] t1] eqn:E; cbn [fst snd] in *
  end.
  - rewrite (bind_Return _ _ _ _ _ _ E).
    unfold bind, call, log.
    destruct (w_connect w (clock s1)) as [[]|code message]; cbn.
    + left. split; [reflexivity|]. exists t1.
      split; [reflexivity|]. split; assumption.
    + right. split; [reflexivity|].
      apply free_of_app; [apply free_of_app|]; auto; reflexivity.
  - rewrite (bind_Throw _ _ _ _ _ _ E). cbn. right.
    split; [reflexivity|]. apply free_of_app; auto. reflexivity.
  - specialize (Hx c eq_refl). subst c. right.
    rewrite (bind_Exit _ _ _ _ _ _ E). cbn. split; [reflexivity|exact Hr].
Qed.

Lemma ensureDataDir_then {B} (w : World) (config : Config) (k : M B) st :
  (Server.ensureDataDir w config ;; k) st
  = match w_ensureDir w (clock st) (dataDir config) with
    | Ok _ =>
        let '(o, s, t) := k (tick st) in
        (o, s, [EnsureDir (dataDir config); Console EnsuredDataDir] ++ t)
    | Failed code message =>
        (Exit 1, tick st,
         [EnsureDir (dataDir config); Console EnsureDataDirFailed])
    end.
Proof.
  unfold Server.ensureDataDir, bind, try_catch, ensureDir, call, log, exit.
  destruct (w_ensureDir w (clock st) (dataDir config)) as [[]|c m];
    [|reflexivity].
  destruct (k (tick st)) as [[o s] t]. reflexivity.
Qed.

(** X15.  Once the settings are loaded the server never dies of an
    uncaught error: from the [ensureDirSync] of the module on, it either
    ends up running, having connected the transport as the very last
    operation and written its "running" line last, or it exits with status
    1 without ever writing that line.  When the data directory cannot be
    ensured the process exits before anything else is attempted. *)
Theorem server_runs_or_exits_1 :
  forall (w : World) (config : Config) (args : Args) (env : Env)
         (st : state),
    let r := Server.main w config args env st in
    ((outcome_of r = Return tt /\
      exists t, trace_of r = t ++ [Connect; Console ServerRunning] /\
                free_of connect_event t /\ free_of running_line t) \/
     (outcome_of r = Exit 1 /\ free_of running_line (trace_of r))) /\
    (forall code message,
        w_ensureDir w (clock st) (dataDir config) = Failed code message ->
        outcome_of r = Exit 1 /\
        operations (trace_of r) = [EnsureDir (dataDir config)]).
Proof.
  intros w config args env st r. subst r.
  unfold Server.main. rewrite ensureDataDir_then.
  destruct (w_ensureDir w (clock st) (dataDir config)) as [[]|c m].
  - split; [|discriminate].
    pose proof (run_verdict w config args env (tick st)) as H.
    unfold outcome_of, trace_of in *.
    destruct (Server.run w config args env (tick st)) as [[o s] t].
    cbn [fst snd] in *.
    destruct H as [(-> & t' & -> & Hc & Hr)|(-> & Hr)]; [left|right].
    + split; [reflexivity|].
      exists ([EnsureDir (dataDir config); Console EnsuredDataDir] ++ t').
      split; [reflexivity|].
      split; apply free_of_app; auto; reflexivity.
    + split; [reflexivity|]. apply free_of_app; auto. reflexivity.
  - cbn. split.
    + right. split; reflexivity.
    + intros code message _. split; reflexivity.
Qed.

Lemma acquisitions_free_of t : free_of is_acquisition t -> acquisitions t = [].
Proof.
  unfold free_of, has_event, acquisitions.
  induction t as [|e t IH]; [auto|]. cbn. intros H.
  apply Bool.orb_false_iff in H as [-> Ht]. auto.
Qed.

Lemma armed_free_of t : free_of timer_event t -> armed t = [].
Proof.
  unfold free_of, has_event, armed.
  induction t as [|e t IH]; [auto|]. cbn. intros H.
  apply Bool.orb_false_iff in H as [He Ht].
  destruct e; try discriminate; cbn; auto.
Qed.

(** X16.  The server never copies a local directory: [includeDir] is the
    business of the build alone.  Without a repository URL server start
    fetches nothing at all, whatever the other settings, the overrides and
    the state of the data directory: no download, extraction, clone or Git
    call, the data directory is not emptied, and no timer is armed. *)
Theorem server_without_repository_fetches_nothing :
  forall (w : World) (config : Config) (args : Args) (env : Env)
         (st : state),
    let t := trace_of (Server.main w config args env st) in
    free_of copy_event t /\
    (truthy (gitUrl config) = false ->
     acquisitions t = [] /\ armed t = []).
Proof.
  intros w config args env st t. subst t. split.
  - apply free_of_confined. confine_with server_parts.
  - intros Hurl. split.
    + apply acquisitions_free_of, free_of_confined.
      unfold Server.main, Server.run, Server.initContent.
      rewrite Hurl. cbv iota. confine_with server_parts.
    + apply armed_free_of, free_of_confined.
      unfold Server.main, Server.run, Server.initContent.
      rewrite Hurl. cbv iota. confine_with server_parts.
Qed.

(** A sample run: a local directory is configured, the data directory is
    missing, and the server starts without touching either. *)
Lemma server_without_repository_fetches_nothing_witness :
  let t := trace_of (Server.main fresh_checkout localConfig noArgs noEnv
                       init_state) in
  free_of copy_event t /\ acquisitions t = [] /\ armed t = [] /\
  connected t = true.
Proof.
  intros t.
  destruct (server_without_repository_fetches_nothing fresh_checkout
              localConfig noArgs noEnv init_state) as [Hc H].
  destruct (H eq_refl) as [Ha Ht].
  split; [exact Hc|]. split; [exact Ha|]. split; [exact Ht|reflexivity].
Defined.

(* ===================================================================== *)
(** ** Server start with auto-update *)
(* ===================================================================== *)




Section AutoUpdate.

Variable w : World.
Variable config : Config.
Hypothesis git_backed : truthy (gitUrl config) = true.


End AutoUpdate.



(* ===================================================================== *)
(** ** The update timer *)
(* ===================================================================== *)

Lemma no_timer_tick st : no_timer st -> no_timer (tick st).
Proof. exact (fun H => H). Qed.

Lemma one_timer_tick st : one_timer st -> one_timer (tick st).
Proof. exact (fun H => H). Qed.

Lemma no_timer_one_timer st : no_timer st -> one_timer st.
Proof. intros H. now left. Qed.

Section Timer.

Variable w : World.
Variable config : Config.
Variable args : Args.
Variable env : Env.

Lemma clearUpdateTimer_disarms : leads one_timer no_timer Server.clearUpdateTimer.
Proof.
  intros st H. unfold Server.clearUpdateTimer, state_of, no_timer.
  destruct H as [H|(id & ms & Hp & Hu)].
  - destruct (updateTimer st); cbn; now rewrite H.
  - rewrite Hu. cbn. rewrite Hp. cbn. now rewrite Nat.eqb_refl.
Qed.

Lemma setUpdateTimer_arms ms : leads no_timer one_timer (Server.setUpdateTimer ms).
Proof.
  intros st H. right. exists (next_id st), ms. cbn.
  unfold no_timer in H. now rewrite H.
Qed.

Lemma existsSync_keeps I p :
  (forall st, I st -> I (tick st)) -> leads I I (existsSync w p).
Proof. intros Ht st H. apply Ht, H. Qed.

Lemma httpGet_keeps I url :
  (forall st, I st -> I (tick st)) -> leads I I (httpGet w url).
Proof.
  intros Ht st H. unfold httpGet, state_of.
  destruct (w_httpGet w (clock st) url) as [status|message];
    [destruct (_ && _)|]; cbn; apply Ht, H.
Qed.

Lemma initGit_keeps_no_timer : leads no_timer no_timer Server.initGit.
Proof. exact (fun st H => H). Qed.

Lemma getGit_keeps_no_timer : leads no_timer no_timer Server.getGit.
Proof. exact (fun st H => H). Qed.

End Timer.

(** Steps that leave the timers alone keep a property [I] of the state
    that the clock does not affect. *)
Ltac keep_with I I_tick extra :=
  repeat first
    [ apply keeps_ret | apply keeps_throw | apply keeps_exit | apply keeps_log
    | apply keeps_call; exact I_tick
    | apply existsSync_keeps; exact I_tick
    | apply httpGet_keeps; exact I_tick
    | extra
    | apply leads_if
    | apply (leads_try_catch I I I); [|intros ?|exact (fun s H => H)]
    | apply (leads_try_finally I I I); [| |exact (fun s H => H)]
    | apply (leads_bind I I I); [|intros ?|exact (fun s H => H)]
    | progress unfold Server.downloadAndExtractTarballRuntime
    | match goal with
      | |- leads _ _ (match ?x with _ => _ end) => destruct x
      end ].

Section TimerInvariant.

Variable w : World.
Variable config : Config.
Variable args : Args.
Variable env : Env.

Lemma clearUpdateTimer_keeps_no_timer :
  leads no_timer no_timer Server.clearUpdateTimer.
Proof.
  intros st H. apply clearUpdateTimer_disarms. now left.
Qed.

Ltac quiet_steps :=
  keep_with no_timer no_timer_tick
    ltac:(first [ apply initGit_keeps_no_timer
                | apply getGit_keeps_no_timer
                | apply clearUpdateTimer_keeps_no_timer ]).

Lemma checkForUpdates_arms_one :
  leads no_timer one_timer (Server.checkForUpdates w config).
Proof.
  unfold Server.checkForUpdates.
  apply (leads_bind no_timer no_timer one_timer);
    [apply getGit_keeps_no_timer| |exact no_timer_one_timer].
  intros initialized. apply leads_if.
  - apply leads_weaken with (Q := no_timer);
      [apply keeps_ret|exact no_timer_one_timer].
  - apply (leads_bind no_timer no_timer one_timer);
      [apply keeps_log| |exact no_timer_one_timer].
    intros _.
    apply (leads_try_finally no_timer no_timer one_timer);
      [quiet_steps| |exact no_timer_one_timer].
    apply leads_if;
      [destruct (autoUpdateInterval config);
       [apply setUpdateTimer_arms|]|];
      (apply leads_weaken with (Q := no_timer);
       [apply keeps_ret|exact no_timer_one_timer]).
Qed.

Lemma initContent_arms_one usePrebuiltData :
  leads no_timer one_timer
    (Server.initContent w config args env usePrebuiltData).
Proof.
  assert (Q : forall m : M unit, leads no_timer no_timer m ->
                                 leads no_timer one_timer m).
  { intros m H. apply leads_weaken with (Q := no_timer);
      [exact H|exact no_timer_one_timer]. }
  unfold Server.initContent.
  apply leads_if; [apply Q; quiet_steps|].
  apply leads_if; [apply leads_if|].
  - repeat first
      [ apply checkForUpdates_arms_one
      | apply (leads_bind no_timer no_timer one_timer);
          [solve [quiet_steps]|intros ?|exact no_timer_one_timer] ].
  - apply Q. quiet_steps.
  - apply leads_if; [apply Q; quiet_steps|].
    apply leads_if; apply Q; quiet_steps.
Qed.

Lemma run_arms_one : leads no_timer one_timer (Server.run w config args env).
Proof.
  unfold Server.run.
  apply (leads_try_catch no_timer one_timer one_timer);
    [|intros e; keep_with one_timer one_timer_tick fail
     |exact (fun s H => H)].
  repeat (apply (leads_bind no_timer no_timer one_timer);
          [solve [quiet_steps]|intros ?|exact no_timer_one_timer]).
  apply (leads_bind no_timer one_timer one_timer);
    [apply initContent_arms_one
    |intros _; keep_with one_timer one_timer_tick fail
    |exact (fun s H => H)].
Qed.

Lemma main_arms_one : leads no_timer one_timer (Server.main w config args env).
Proof.
  unfold Server.main.
  apply (leads_bind no_timer no_timer one_timer);
    [unfold Server.ensureDataDir, ensureDir; quiet_steps
    |intros _; apply run_arms_one
    |exact no_timer_one_timer].
Qed.

Lemma fireTimer_keeps_one : leads one_timer one_timer (Server.fireTimer w config).
Proof.
  intros st H. unfold Server.fireTimer.
  destruct (pending st) as [|[id ms] rest] eqn:Hp; [exact H|].
  apply checkForUpdates_arms_one.
  destruct H as [H|(id' & ms' & H & _)]; [congruence|].
  rewrite Hp in H. inversion H. reflexivity.
Qed.

Lemma fireTimers_keep_one n : leads one_timer one_timer (Server.fireTimers w config n).
Proof.
  induction n as [|n IH]; cbn [Server.fireTimers].
  - apply keeps_ret.
  - apply (leads_bind one_timer one_timer one_timer);
      [apply fireTimer_keeps_one|intros _; exact IH|exact (fun s H => H)].
Qed.

Lemma answer_keeps_one request :
  leads one_timer one_timer (Server.answer w config request).
Proof.
  unfold Server.answer, Server.callTool, Server.executeDocsSearch.
  keep_with one_timer one_timer_tick fail.
Qed.

Lemma serve_keeps_one requests :
  leads one_timer one_timer (Server.serve w config requests).
Proof.
  induction requests as [|request rest IH]; cbn [Server.serve].
  - apply keeps_ret.
  - apply (leads_bind one_timer one_timer one_timer);
      [apply answer_keeps_one| |exact (fun s H => H)].
    intros r.
    apply (leads_bind one_timer one_timer one_timer);
      [exact IH|intros rs; apply keeps_ret|exact (fun s H => H)].
Qed.

End TimerInvariant.

(** X18.  The server never holds more than one update timer, and
    [updateTimer] is the handle of the one that is pending.  The process
    starts without a timer; server start leaves at most one; every firing
    of the timer and every request answered keeps it so, whatever the
    settings and whatever fails.  So it is after any number of firings
    followed by any requests. *)
Theorem at_most_one_update_timer :
  forall (w : World) (config : Config) (args : Args) (env : Env),
    no_timer init_state /\
    leads no_timer one_timer (Server.main w config args env) /\
    leads one_timer one_timer (Server.fireTimer w config) /\
    (forall request,
        leads one_timer one_timer (Server.answer w config request)) /\
    (forall n requests,
        one_timer
          (state_of ((Server.main w config args env ;;
                      Server.fireTimers w config n ;;
                      Server.serve w config requests) init_state))).
Proof.
  intros w config args env.
  split; [reflexivity|].
  split; [apply main_arms_one|].
  split; [apply fireTimer_keeps_one|].
  split; [apply answer_keeps_one|].
  intros n requests.
  assert (H : leads no_timer one_timer
                (Server.main w config args env ;;
                 Server.fireTimers w config n ;;
                 Server.serve w config requests)).
  { apply (leads_bind no_timer one_timer one_timer);
      [apply main_arms_one| |exact (fun s H => H)].
    intros _.
    apply (leads_bind one_timer one_timer one_timer);
      [apply fireTimers_keep_one|intros _; apply serve_keeps_one
      |exact (fun s H => H)]. }
  apply H. reflexivity.
Qed.

(* ===================================================================== *)
(** ** Intervals written in decimal *)
(* ===================================================================== *)

From Stdlib Require DecimalPos.

Ltac digit_value :=
  match goal with
  | |- context [digit_val ?c] =>
      let v := eval vm_compute in (digit_val c) in
      change (digit_val c) with v
  end.

Lemma digits_of_uint_acc (d : Decimal.uint) :
  forall acc : positive,
    digits (Some (Z.pos acc)) (NilEmpty.string_of_uint d)
    = Some (Z.pos (Pos.of_uint_acc d acc)).
Proof.
  induction d; intros acc; cbn [NilEmpty.string_of_uint Pos.of_uint_acc];
    [reflexivity|..];
    cbn [digits]; change (is_digit _) with true; cbv iota;
    rewrite <- IHd; f_equal; f_equal; digit_value; lia.
Qed.

Lemma digits_of_uint (d : Decimal.uint) :
  d <> Decimal.Nil ->
  forall a, a = None \/ a = Some 0 ->
    digits a (NilEmpty.string_of_uint d) = Some (Z.of_N (Pos.of_uint d)).
Proof.
  induction d; intros Hd a Ha; [congruence|..];
    cbn [NilEmpty.string_of_uint Pos.of_uint digits];
    change (is_digit _) with true; cbv iota;
    assert (Hz : match a with Some a => a | None => 0 end = 0)
      by (destruct Ha as [->| ->]; reflexivity);
    rewrite Hz.
  1: { destruct d; [reflexivity|..];
       (apply IHd; [discriminate|now right]). }
  all: digit_value; apply digits_of_uint_acc.
Qed.

Lemma string_of_uint_starts (d : Decimal.uint) :
  d <> Decimal.Nil ->
  exists c rest,
    NilEmpty.string_of_uint d = String c rest /\
    is_digit c = true /\ is_space c = false.
Proof.
  destruct d; [congruence|..]; intros _; cbn; do 2 eexists; repeat split.
Qed.

Lemma parseInt_string_of_Z (z : Z) : parseInt_string (string_of_Z z) = Num z.
Proof.
  unfold string_of_Z, parseInt_string.
  destruct z as [|p|p]; [reflexivity|..];
    cbn [Z.to_int NilZero.string_of_int];
    pose proof (DecimalPos.Unsigned.to_uint_nonnil p) as Hnil;
    assert (Hs : NilZero.string_of_uint (Pos.to_uint p)
                 = NilEmpty.string_of_uint (Pos.to_uint p))
      by (destruct (Pos.to_uint p); [congruence|reflexivity..]);
    rewrite Hs;
    pose proof (digits_of_uint _ Hnil None (or_introl eq_refl)) as Hd;
    rewrite DecimalPos.Unsigned.of_to in Hd;
    destruct (string_of_uint_starts _ Hnil) as (c & rest & E & Hc & Hsp).
  - rewrite E in *. cbn [skip_spaces]. rewrite Hsp.
    destruct c as [[] [] [] [] [] [] [] []]; try discriminate;
      cbv iota; rewrite Hd; reflexivity.
  - cbn [skip_spaces]. change (is_space "-") with false. cbv iota.
    rewrite Hd. reflexivity.
Qed.

Lemma string_of_Z_nonempty (z : Z) : string_of_Z z <> "".
Proof.
  unfold string_of_Z. destruct z as [|p|p]; [discriminate| |discriminate].
  cbn [Z.to_int NilZero.string_of_int].
  pose proof (DecimalPos.Unsigned.to_uint_nonnil p) as Hnil.
  destruct (Pos.to_uint p); [congruence|discriminate..].
Qed.

(** X19.  An interval written as a decimal integer comes back as that
    integer (within the integers a JavaScript number holds exactly, which
    are printed in plain decimal): given as a number or as its decimal
    text on the command line, or as its decimal text in
    [AUTO_UPDATE_INTERVAL] when the flag is absent, it is the interval of
    the settings [loadConfig] returns, and auto-update is on exactly when
    it is positive. *)
Theorem decimal_interval_round_trips :
  forall (path_isAbsolute : string -> bool)
         (path_resolve : string -> string -> string)
         (defaultConfigPath defaultDataDir : string)
         (args : Args) (env : Env) (cwd : string)
         (readConfig : jsval -> FileState) (z : Z),
    Z.abs z <= 9007199254740991 ->
    a_autoUpdateInterval args = VNum z \/
    a_autoUpdateInterval args = VStr (string_of_Z z) \/
    (a_autoUpdateInterval args = VUndef /\
     AUTO_UPDATE_INTERVAL env = Some (string_of_Z z)) ->
    parseInt (VNum z) = Num z /\
    forall config out,
      loadConfig path_isAbsolute path_resolve defaultConfigPath defaultDataDir
        args env cwd readConfig = (Return config, out) ->
      autoUpdateInterval config = Num z /\
      (gt0 (autoUpdateInterval config) = true <-> 0 < z).
Proof.
  intros pia pr dcp ddd args env cwd readConfig z _ Hsrc.
  assert (Hp : parseInt (VNum z) = Num z) by apply parseInt_string_of_Z.
  split; [exact Hp|].
  intros config out Hload.
  rewrite (loadConfig_keeps_interval pia pr dcp ddd args env cwd readConfig
             config out Hload).
  assert (Hm : autoUpdateInterval (merged dcp ddd args env readConfig) = Num z).
  { rewrite merged_by_precedence.
    unfold Precedence.by_precedence. cbn [autoUpdateInterval].
    destruct Hsrc as [Ha|[Ha|[Ha He]]]; rewrite Ha; cbn [Precedence.given
      option_map Precedence.highest].
    - exact Hp.
    - apply parseInt_string_of_Z.
    - rewrite He. cbn [Precedence.variable].
      destruct (String.eqb_spec (string_of_Z z) "") as [E|_];
        [now apply string_of_Z_nonempty in E|].
      cbn. apply parseInt_string_of_Z. }
  rewrite Hm. split; [reflexivity|]. cbn. apply Z.ltb_lt.
Qed.

(** A sample run: the variable holds the text 15. *)
Lemma decimal_interval_round_trips_witness :
  exists config out,
    loadConfig sample_isAbsolute sample_resolve "/pkg/docs-mcp.config.json"
      "/pkg/data" noArgs intervalEnv "/work" (fun _ => FileMissing)
    = (Return config, out) /\
    autoUpdateInterval config = Num 15 /\
    gt0 (autoUpdateInterval config) = true.
Proof.
  do 2 eexists. split; [reflexivity|].
  destruct (decimal_interval_round_trips sample_isAbsolute sample_resolve
              "/pkg/docs-mcp.config.json" "/pkg/data" noArgs intervalEnv
              "/work" (fun _ => FileMissing) 15 ltac:(cbn; lia)
              (or_intror (or_intror (conj eq_refl eq_refl)))) as [_ H].
  destruct (H _ _ eq_refl) as [Hi Hg].
  split; [exact Hi|]. apply Hg. reflexivity.
Defined.

(* ===================================================================== *)
(** ** Intervals that are not positive *)
(* ===================================================================== *)

Lemma git_operations_free_of t : free_of git_event t -> git_operations t = [].
Proof.
  unfold free_of, has_event, git_operations.
  induction t as [|e t IH]; [auto|]. cbn. intros H.
  apply Bool.orb_false_iff in H as [He Ht].
  destruct e; try discriminate; cbn; auto.
Qed.

(** X20.  An interval that is not greater than 0 (zero, a negative number,
    not a number) turns auto-update off altogether: server start never
    calls Git, not even to clone, never initialises the Git handle and
    arms no timer, and an update cycle, should one run, arms no timer
    either. *)
Theorem non_positive_interval_disables_auto_update :
  forall (w : World) (config : Config) (args : Args) (env : Env)
         (st : state),
    gt0 (autoUpdateInterval config) = false ->
    let r := Server.main w config args env st in
    git_operations (trace_of r) = [] /\
    armed (trace_of r) = [] /\
    git (state_of r) = git st /\
    forall st', armed (trace_of (Server.checkForUpdates w config st')) = [].
Proof.
  intros w config args env st Hint r. subst r.
  split; [|split; [|split]].
  - apply git_operations_free_of, free_of_confined.
    unfold Server.main, Server.run, Server.initContent.
    rewrite Hint. cbv iota. confine_with server_parts.
  - apply armed_free_of, free_of_confined.
    unfold Server.main, Server.run, Server.initContent.
    rewrite Hint. cbv iota. confine_with server_parts.
  - assert (K : leads (fun s => git s = git st) (fun s => git s = git st)
                  (Server.main w config args env)).
    { unfold Server.main, Server.run, Server.initContent,
        Server.ensureDataDir, Server.detectPrebuilt.
      rewrite Hint. cbv iota.
      keep_with (fun s => git s = git st)
        (fun s (H : git s = git st) => H : git (tick s) = git st)
        ltac:(first [ intros s H; unfold Server.clearUpdateTimer, state_of;
                      destruct (updateTimer s); exact H ]). }
    apply K. reflexivity.
  - intros st'. apply armed_free_of, free_of_confined.
    unfold Server.checkForUpdates. rewrite Hint. confine_with server_parts.
Qed.

(** A sample run: an interval of -5 minutes. *)
Lemma non_positive_interval_disables_auto_update_witness :
  let r := Server.main calm (repoConfig (Num (-5))) dataDirArgs noEnv
             init_state in
  git_operations (trace_of r) = [] /\ armed (trace_of r) = [] /\
  outcome_of r = Return tt.
Proof.
  intros r.
  destruct (non_positive_interval_disables_auto_update calm
              (repoConfig (Num (-5))) dataDirArgs noEnv init_state eq_refl)
    as (Hg & Ha & _).
  split; [exact Hg|]. split; [exact Ha|reflexivity].
Defined.

(* ===================================================================== *)
(** ** Detection of pre-built content *)
(* ===================================================================== *)

(** X21.  The check for pre-built content never fails the start: it always
    returns.  It answers yes exactly when no content source is overridden
    on the command line or in the environment, the data directory exists,
    and listing it succeeds with at least one entry; a listing that fails
    is taken as a no.  With an override the file system is not looked at. *)
Theorem prebuilt_detection_never_fails :
  forall (w : World) (config : Config) (args : Args) (env : Env)
         (st : state),
    let r := Server.detectPrebuilt w config args env st in
    let d := dataDir config in
    exists used,
      outcome_of r = Return used /\
      (used = true <->
       truthy (Server.runtimeOverride args env) = false /\
       w_existsSync w (clock st) d = true /\
       exists item items, w_readdir w (S (clock st)) d = Ok (item :: items)) /\
      (truthy (Server.runtimeOverride args env) = true ->
       operations (trace_of r) = []).
Proof.
  intros w config args env st r d. subst r d.
  unfold Server.detectPrebuilt.
  destruct (truthy (Server.runtimeOverride args env)); cbn [negb].
  - exists false. cbn. split; [reflexivity|]. split; [|reflexivity].
    split; [discriminate|intros (H & _); discriminate].
  - unfold try_catch, bind, existsSync, call, log, ret.
    destruct (w_existsSync w (clock st) (dataDir config)); cbn [clock tick].
    + destruct (w_readdir w (S (clock st)) (dataDir config))
        as [[|item items]|code message]; cbn.
      * exists false. split; [reflexivity|]. split; [|discriminate].
        split; [discriminate|intros (_ & _ & i & l & H); discriminate].
      * exists true. split; [reflexivity|]. split; [|discriminate].
        split; [intros _; eauto|reflexivity].
      * exists false. split; [reflexivity|]. split; [|discriminate].
        split; [discriminate|intros (_ & _ & i & l & H); discriminate].
    + cbn. exists false. split; [reflexivity|]. split; [|discriminate].
      split; [discriminate|intros (_ & H & _); discriminate].
Qed.

(** A sample run: the directory holds a file, but the command line names
    a data directory, so the content is not taken as pre-built. *)
Lemma prebuilt_detection_never_fails_witness :
  let r := Server.detectPrebuilt calm localConfig dataDirArgs noEnv
             init_state in
  outcome_of r = Return false /\ operations (trace_of r) = [].
Proof.
  intros r.
  destruct (prebuilt_detection_never_fails calm localConfig dataDirArgs noEnv
              init_state) as (used & Ho & _ & Hops).
  split; [reflexivity|exact (Hops eq_refl)].
Defined.

(* ===================================================================== *)
(** ** The two paths of the settings *)
(* ===================================================================== *)

Section Paths.

Variable path_isAbsolute : string -> bool.
Variable path_resolve : string -> string -> string.
Variable cwd : string.

Lemma absolutePaths_outcome (m : Config) :
  match absolutePaths path_isAbsolute path_resolve cwd m with
  | Return config =>
      is_string (dataDir m) = true /\
      (truthy (includeDir m) = true -> is_string (includeDir m) = true) /\
      dataDir config = absolute path_isAbsolute path_resolve cwd (dataDir m) /\
      includeDir config
      = (if truthy (includeDir m)
         then absolute path_isAbsolute path_resolve cwd (includeDir m)
         else includeDir m) /\
      gitUrl config = gitUrl m
  | Throw e =>
      e = JsError "The path argument must be of type string" /\
      (is_string (dataDir m) = false \/
       truthy (includeDir m) = true /\ is_string (includeDir m) = false)
  | Exit _ => False
  end.
Proof.
  unfold absolutePaths, isAbsolute, absolute.
  destruct m as [i u r n dd tn td ip cl].
  cbn [dataDir includeDir gitUrl].
  destruct dd; cbn; auto.
  destruct (path_isAbsolute s); cbn [negb dataDir includeDir gitUrl
    set_dataDir set_includeDir resolve];
    (destruct (truthy i) eqn:Ti; [|cbn; auto]);
    destruct i; cbn in *; auto;
    match goal with
    | |- context [path_isAbsolute ?x] => destruct (path_isAbsolute x)
    end; cbn; auto.
Qed.

End Paths.

(** X22.  [loadConfig] fails exactly when a path of the merged settings is
    not text: it throws the TypeError of [path.isAbsolute] when [dataDir]
    is not a string (as with [--dataDir 2024], which minimist reads as a
    number) or when [includeDir] is set and not a string, before it writes
    any warning; in every other case it returns. *)
Theorem loadConfig_fails_on_a_path_that_is_not_text :
  forall (path_isAbsolute : string -> bool)
         (path_resolve : string -> string -> string)
         (defaultConfigPath defaultDataDir : string)
         (args : Args) (env : Env) (cwd : string)
         (readConfig : jsval -> FileState),
    let m := merged defaultConfigPath defaultDataDir args env readConfig in
    let load := loadConfig path_isAbsolute path_resolve defaultConfigPath
                  defaultDataDir args env cwd readConfig in
    let mistyped :=
      negb (is_string (dataDir m))
      || (truthy (includeDir m) && negb (is_string (includeDir m))) in
    (mistyped = true ->
     exists message,
       load = (Throw (JsError message),
               snd (fileLayer defaultConfigPath defaultDataDir args
                      readConfig))) /\
    (mistyped = false -> exists config out, load = (Return config, out)).
Proof.
  intros pia pr dcp ddd args env cwd readConfig m load mistyped.
  subst load mistyped. unfold loadConfig. fold m.
  pose proof (absolutePaths_outcome pia pr cwd m) as H.
  destruct (absolutePaths pia pr cwd m) as [config|e|c]; [| |contradiction].
  - destruct H as (Hd & Hi & _). rewrite Hd. cbn [negb orb].
    destruct (truthy (includeDir m)); [rewrite (Hi eq_refl)|];
      cbn [negb andb]; (split; [discriminate|intros _]);
      destruct (validate config) as [c' out']; eauto.
  - destruct H as [-> [Hd|[Ht Hi]]].
    + rewrite Hd. cbn. split; [eauto|discriminate].
    + rewrite Ht, Hi. rewrite Bool.orb_true_r.
      split; [eauto|discriminate].
Qed.

(** A sample run: [--dataDir 2024]. *)
Lemma loadConfig_fails_on_a_path_that_is_not_text_witness :
  exists message,
    loadConfig sample_isAbsolute sample_resolve "/pkg/docs-mcp.config.json"
      "/pkg/data" numericDataDirArgs noEnv "/work" (fun _ => FileMissing)
    = (Throw (JsError message), [ConfigFileMissing]).
Proof.
  destruct (loadConfig_fails_on_a_path_that_is_not_text sample_isAbsolute
              sample_resolve "/pkg/docs-mcp.config.json" "/pkg/data"
              numericDataDirArgs noEnv "/work" (fun _ => FileMissing))
    as [H _].
  exact (H eq_refl).
Defined.

(** X23.  Given that [path.resolve] returns absolute paths, the settings
    [loadConfig] returns always hold an absolute data directory, and a
    local directory that is absolute whenever it is set; a directory that
    was absolute already is kept as given. *)
Theorem returned_paths_are_absolute :
  forall (path_isAbsolute : string -> bool)
         (path_resolve : string -> string -> string)
         (defaultConfigPath defaultDataDir : string)
         (args : Args) (env : Env) (cwd : string)
         (readConfig : jsval -> FileState),
    (forall base p, path_isAbsolute (path_resolve base p) = true) ->
    let m := merged defaultConfigPath defaultDataDir args env readConfig in
    forall config out,
      loadConfig path_isAbsolute path_resolve defaultConfigPath
        defaultDataDir args env cwd readConfig = (Return config, out) ->
      absolute_path path_isAbsolute (dataDir config) = true /\
      (truthy (includeDir config) = true ->
       absolute_path path_isAbsolute (includeDir config) = true) /\
      (absolute_path path_isAbsolute (dataDir m) = true ->
       dataDir config = dataDir m).
Proof.
  intros pia pr dcp ddd args env cwd readConfig Habs m config out.
  unfold loadConfig. fold m.
  pose proof (absolutePaths_outcome pia pr cwd m) as H.
  destruct (absolutePaths pia pr cwd m) as [c0|e|c]; try discriminate.
  destruct H as (Hd & Hi & Ed & Ei & _).
  unfold validate.
  assert (Hdir : absolute_path pia (dataDir c0) = true).
  { rewrite Ed. destruct (dataDir m); try discriminate. cbn.
    destruct (pia s) eqn:E; cbn; [exact E|apply Habs]. }
  assert (Hinc : truthy (includeDir c0) = true ->
                 absolute_path pia (includeDir c0) = true).
  { rewrite Ei. destruct (truthy (includeDir m)) eqn:Ti; [|congruence].
    specialize (Hi eq_refl). destruct (includeDir m); try discriminate.
    cbn. intros _. destruct (pia s) eqn:E; cbn; [exact E|apply Habs]. }
  assert (Hkeep : absolute_path pia (dataDir m) = true ->
                  dataDir c0 = dataDir m).
  { rewrite Ed. destruct (dataDir m); try discriminate. cbn.
    now intros ->. }
  destruct (truthy (includeDir c0) && truthy (gitUrl c0));
    intros E; inversion E; subst; cbn [dataDir includeDir set_includeDir];
    repeat split; auto.
Qed.

(** A sample run: a relative data directory in the environment. *)
Lemma returned_paths_are_absolute_witness :
  exists config out,
    loadConfig sample_isAbsolute rooted_resolve "/pkg/docs-mcp.config.json"
      "/pkg/data" noArgs
      (mkEnv None None None None (Some "docs/data") None None)
      "/work" (fun _ => FileMissing)
    = (Return config, out) /\
    dataDir config = VStr "/work/docs/data" /\
    absolute_path sample_isAbsolute (dataDir config) = true.
Proof.
  do 2 eexists. split; [reflexivity|]. split; [reflexivity|].
  refine (proj1 (returned_paths_are_absolute sample_isAbsolute rooted_resolve
                   "/pkg/docs-mcp.config.json" "/pkg/data" noArgs
                   (mkEnv None None None None (Some "docs/data") None None)
                   "/work" (fun _ => FileMissing) _ _ _ eq_refl)).
  intros base p. unfold rooted_resolve.
  destruct base as [|c base]; [reflexivity|].
  destruct (sample_isAbsolute (String c base)) eqn:E; [|reflexivity].
  unfold sample_isAbsolute in *. cbn.
  destruct c as [[] [] [] [] [] [] [] []]; try discriminate E. reflexivity.
Defined.

(* ===================================================================== *)
(** ** The cleanup switch *)
(* ===================================================================== *)

(** X24.  With [enableBuildCleanup] falsy the build leaves the content as
    it was fetched: it never asks for the absolute listing of the data
    directory and calls neither [fs.stat] nor [fs.remove].  Whatever the
    switch, the steps before the cleanup (the default configuration file,
    the preparation of the data directory) make none of these calls
    either. *)
Theorem cleanup_can_be_switched_off :
  forall (w : World) (config : Config)
         (path_join : string -> string -> string)
         (path_dirname path_extname : string -> string)
         (rootConfigPath binPath : string) (st : state),
    let t := trace_of (Build.build w config path_join path_dirname
                         path_extname rootConfigPath binPath st) in
    (truthy (enableBuildCleanup config) = false -> free_of cleanup_event t) /\
    free_of cleanup_event
      (trace_of (Build.prepareDataDir w config path_join path_dirname st)) /\
    free_of cleanup_event
      (trace_of (Build.createDefaultConfig w rootConfigPath st)).
Proof.
  intros w config pj pd pe rc bp st t. subst t. split; [|split].
  - intros Hoff. apply free_of_confined. unfold Build.build.
    rewrite Hoff.
    confine_with
      ltac:(progress unfold Build.downloadAndExtractTarball, Build.join).
  - apply free_of_confined.
    confine_with
      ltac:(progress unfold Build.downloadAndExtractTarball, Build.join).
  - apply free_of_confined. confine_with fail.
Qed.

(** A sample run: a build of a local directory with the cleanup off. *)
Lemma cleanup_can_be_switched_off_witness :
  let r := Build.build four_files keepAllConfig sample_join sample_dirname
             sample_extname "/pkg/docs-mcp.config.json" "/pkg/bin/mcp"
             init_state in
  free_of cleanup_event (trace_of r) /\ outcome_of r = Return tt.
Proof.
  intros r.
  destruct (cleanup_can_be_switched_off four_files keepAllConfig sample_join
              sample_dirname sample_extname "/pkg/docs-mcp.config.json"
              "/pkg/bin/mcp" init_state) as [H _].
  split; [exact (H eq_refl)|reflexivity].
Defined.

(* ===================================================================== *)
(** ** What a tool call passes on *)
(* ===================================================================== *)

(** X25.  Of the arguments of a tool call only [query] reaches the search
    engine: two calls for the same tool whose arguments are objects with
    the same usable query get the same answer, perform the same search and
    leave the same state, whatever other keys ([page], [maxResults],
    [path], ...) either of them holds. *)
Theorem only_the_query_matters :
  forall (w : World) (config : Config) (name arguments1 arguments2 : jsval)
         (st : state),
    lacks_query arguments1 = false ->
    lacks_query arguments2 = false ->
    Js.get arguments1 "query" = Js.get arguments2 "query" ->
    let r1 := Server.callTool w config (Server.mkRequest name arguments1) st in
    let r2 := Server.callTool w config (Server.mkRequest name arguments2) st in
    outcome_of r1 = outcome_of r2 /\
    state_of r1 = state_of r2 /\
    operations (trace_of r1) = operations (trace_of r2).
Proof.
  intros w config name a1 a2 st H1 H2 Hq r1 r2. subst r1 r2.
  unfold lacks_query in H1, H2.
  apply Bool.orb_false_iff in H1 as [O1 Q1].
  apply Bool.orb_false_iff in H2 as [O2 Q2].
  unfold Server.callTool, Server.executeDocsSearch.
  cbn [Server.name Server.arguments].
  rewrite O1, O2, Q1, Q2, Hq.
  destruct (negb (strict_eq name (toolName config))); auto.
Qed.

(** A sample run: a page number and a result limit change nothing. *)
Lemma only_the_query_matters_witness :
  outcome_of (Server.callTool calm localConfig paged_query init_state)
  = outcome_of (Server.callTool calm localConfig install_query init_state).
Proof.
  exact (proj1 (only_the_query_matters calm localConfig (VStr "search_docs")
                  (Server.arguments paged_query)
                  (Server.arguments install_query)
                  init_state eq_refl eq_refl eq_refl)).
Defined.
